(** * pint: definition lines, wrapping helpers, error rendering and the
      application registry, embedded from the Python sources.

    Conventions of the embedding.
    - A Python [str] is a [string] whose characters are the code points
      below 256; [split], [strip], [startswith] and the like are written out
      in [Module pystr] the way CPython's [str] methods behave on them.
    - Numbers (scales, offsets, exponents, magnitudes) are exact rationals
      [Q]; the code only multiplies, adds and compares them with zero.
    - A raising call returns [Raise t msg]; [Ok] carries the returned value.
    - A Python set of indices is named by the list of its members in the
      order they were added; the order in which a loop visits them is a
      [Variable] of which only the fact that it is a permutation is used.
    - Code of the package that is not part of the sources at hand (the
      expression parser, the converters, the registry, the error classes) is
      either a [Variable] of the section that uses it or a definition whose
      comment starts with the words Modelled from the spec. *)

From Stdlib Require Import String Ascii List Bool Arith ZArith QArith Lia.
From Stdlib Require Import DecimalString.
From stdpp Require Import base option list gmap strings.
Import ListNotations.

Local Open Scope string_scope.
Local Open Scope list_scope.

(* ===================================================================== *)
(** ** Python strings *)
(* ===================================================================== *)

Module pystr.

Abbreviation str := string (only parsing).

(** [c in s] for a one-character [c]. *)
Fixpoint contains (c : ascii) (s : str) : bool :=
  match s with
  | EmptyString => false
  | String a s' => Ascii.eqb a c || contains c s'
  end.

(** Prepend a character to the first field of a split. *)
Definition cons_head (c : ascii) (l : list str) : list str :=
  match l with
  | [] => [String c EmptyString]
  | h :: t => String c h :: t
  end.

(** [s.split(sep)] for a one-character separator: never an empty list. *)
Fixpoint split (sep : ascii) (s : str) : list str :=
  match s with
  | EmptyString => [EmptyString]
  | String c s' =>
      if Ascii.eqb c sep then EmptyString :: split sep s'
      else cons_head c (split sep s')
  end.

(** [s.split(sep, maxsplit)]: at most [maxsplit] cuts, from the left; the
    rest of the string is the last field. *)
Fixpoint split_max (sep : ascii) (maxsplit : nat) (s : str) : list str :=
  match s with
  | EmptyString => [EmptyString]
  | String c s' =>
      if Ascii.eqb c sep then
        match maxsplit with
        | O => [s]
        | S n => EmptyString :: split_max sep n s'
        end
      else cons_head c (split_max sep maxsplit s')
  end.

(** [sep.join(l)]. *)
Fixpoint join (sep : ascii) (l : list str) : str :=
  match l with
  | [] => EmptyString
  | [x] => x
  | x :: rest => x +:+ String sep (join sep rest)
  end.

(** [str.isspace] on one code point below 256. *)
Definition isspace (c : ascii) : bool :=
  let n := nat_of_ascii c in
  (((9 <=? n) && (n <=? 13)) || ((28 <=? n) && (n <=? 32))
   || (n =? 133) || (n =? 160))%nat.

(** Drop the leading characters that satisfy [p]. *)
Fixpoint lstrip_by (p : ascii -> bool) (s : str) : str :=
  match s with
  | EmptyString => EmptyString
  | String c s' => if p c then lstrip_by p s' else s
  end.

(** Drop the trailing characters that satisfy [p]. *)
Fixpoint rstrip_by (p : ascii -> bool) (s : str) : str :=
  match s with
  | EmptyString => EmptyString
  | String c s' =>
      match rstrip_by p s' with
      | EmptyString => if p c then EmptyString else String c EmptyString
      | r => String c r
      end
  end.

Definition lstrip (s : str) : str := lstrip_by isspace s.
Definition rstrip (s : str) : str := rstrip_by isspace s.
Definition strip (s : str) : str := rstrip (lstrip s).

(** [s.strip(chars)] and [s.rstrip(chars)]: [chars] is a set of characters. *)
Definition rstrip_chars (chars : str) (s : str) : str :=
  rstrip_by (fun c => contains c chars) s.
Definition strip_chars (chars : str) (s : str) : str :=
  rstrip_chars chars (lstrip_by (fun c => contains c chars) s).

Definition startswith (p : str) (s : str) : bool := String.prefix p s.

Fixpoint rev_onto (s acc : str) : str :=
  match s with
  | EmptyString => acc
  | String c s' => rev_onto s' (String c acc)
  end.

Definition endswith (p : str) (s : str) : bool :=
  String.prefix (rev_onto p EmptyString) (rev_onto s EmptyString).

(** [s[n:]]. *)
Fixpoint drop (n : nat) (s : str) : str :=
  match n, s with
  | O, _ => s
  | S n', String _ s' => drop n' s'
  | S _, EmptyString => EmptyString
  end.

(** [x != y] on strings. *)
Definition ne (x y : str) : bool := negb (String.eqb x y).

(** Truthiness of a string. *)
Definition truthy (s : str) : bool := ne s EmptyString.

(* --------------------------------------------------------------------- *)
(** *** What the splits compute *)

Lemma contains_app c a b : contains c (a +:+ b) = contains c a || contains c b.
Proof.
  induction a as [|x a IH]; simpl; [reflexivity|].
  rewrite IH. apply orb_assoc.
Qed.

Lemma split_ne_nil sep s : split sep s <> [].
Proof.
  destruct s as [|c s]; simpl; [discriminate|].
  destruct (Ascii.eqb c sep); [discriminate|].
  destruct (split sep s); discriminate.
Qed.

Lemma split_max_ne_nil sep n s : split_max sep n s <> [].
Proof.
  revert n; induction s as [|c s IH]; intros n; simpl; [discriminate|].
  destruct (Ascii.eqb c sep).
  - destruct n; discriminate.
  - specialize (IH n). destruct (split_max sep n s); [contradiction|discriminate].
Qed.

(** A string without the separator is a single field. *)
Lemma split_no_sep sep s : contains sep s = false -> split sep s = [s].
Proof.
  induction s as [|c s IH]; simpl; [reflexivity|].
  intros H. apply orb_false_iff in H as [Hc Hs].
  rewrite Hc, (IH Hs). reflexivity.
Qed.

Lemma split_max_no_sep sep n s : contains sep s = false -> split_max sep n s = [s].
Proof.
  induction s as [|c s IH]; simpl; [reflexivity|].
  intros H. apply orb_false_iff in H as [Hc Hs].
  rewrite Hc, (IH Hs). reflexivity.
Qed.

(** Splitting cuts at the first separator. *)
Lemma split_app sep a b :
  contains sep a = false ->
  split sep (a +:+ String sep b) = a :: split sep b.
Proof.
  induction a as [|c a IH]; simpl; intros H.
  - rewrite Ascii.eqb_refl. reflexivity.
  - apply orb_false_iff in H as [Hc Ha].
    rewrite Hc, (IH Ha). reflexivity.
Qed.

Lemma split_max_app sep n a b :
  contains sep a = false ->
  split_max sep (S n) (a +:+ String sep b) = a :: split_max sep n b.
Proof.
  induction a as [|c a IH]; simpl; intros H.
  - rewrite Ascii.eqb_refl. reflexivity.
  - apply orb_false_iff in H as [Hc Ha].
    rewrite Hc. simpl in IH. rewrite (IH Ha). reflexivity.
Qed.

Lemma split_max_0 sep s : split_max sep 0 s = [s].
Proof.
  induction s as [|c s IH]; simpl; [reflexivity|].
  destruct (Ascii.eqb c sep); [reflexivity|]. rewrite IH. reflexivity.
Qed.

(** [split(sep, 1)] of a line with a separator: the text before the first
    separator and everything after it. *)
Lemma split_max_1 sep a b :
  contains sep a = false ->
  split_max sep 1 (a +:+ String sep b) = [a; b].
Proof.
  intros H. rewrite split_max_app by exact H. rewrite split_max_0. reflexivity.
Qed.

(** Splitting undoes joining, when no field holds the separator. *)
Lemma split_join sep (l : list str) :
  l <> [] ->
  Forall (fun t => contains sep t = false) l ->
  split sep (join sep l) = l.
Proof.
  induction l as [|x l IH]; intros Hne Hall; [contradiction|].
  inversion Hall as [|? ? Hx Hl]; subst.
  destruct l as [|y l].
  - simpl. apply split_no_sep, Hx.
  - change (join sep (x :: y :: l)) with (x +:+ String sep (join sep (y :: l))).
    rewrite split_app by exact Hx.
    rewrite IH; [reflexivity|discriminate|exact Hl].
Qed.

(** Every string is the join of its fields, and no field holds the
    separator. *)
Lemma join_split sep s : join sep (split sep s) = s.
Proof.
  induction s as [|c s IH]; simpl; [reflexivity|].
  destruct (Ascii.eqb_spec c sep) as [->|Hne].
  - pose proof (split_ne_nil sep s) as Hnil.
    destruct (split sep s) as [|h t]; [contradiction|].
    change (join sep (EmptyString :: h :: t))
      with (EmptyString +:+ String sep (join sep (h :: t))).
    rewrite IH. reflexivity.
  - pose proof (split_ne_nil sep s) as Hnil.
    destruct (split sep s) as [|h t]; [contradiction|].
    simpl cons_head.
    destruct t as [|h' t].
    + simpl in *. congruence.
    + change (join sep (String c h :: h' :: t))
        with (String c (h +:+ String sep (join sep (h' :: t)))).
      change (join sep (h :: h' :: t))
        with (h +:+ String sep (join sep (h' :: t))) in IH.
      rewrite IH. reflexivity.
Qed.

Lemma split_fields sep s : Forall (fun t => contains sep t = false) (split sep s).
Proof.
  induction s as [|c s IH]; simpl.
  - constructor; [reflexivity|constructor].
  - destruct (Ascii.eqb c sep) eqn:Hc.
    + constructor; [reflexivity|exact IH].
    + destruct (split sep s) as [|h t]; simpl.
      * constructor; [simpl; rewrite Hc; reflexivity|constructor].
      * inversion IH; subst. constructor; [simpl; rewrite Hc; assumption|assumption].
Qed.

(* --------------------------------------------------------------------- *)
(** *** First and last characters, and what stripping leaves *)

Fixpoint last_char (s : str) : option ascii :=
  match s with
  | EmptyString => None
  | String c EmptyString => Some c
  | String _ s' => last_char s'
  end.

Definition first_char (s : str) : option ascii :=
  match s with
  | EmptyString => None
  | String c _ => Some c
  end.

(** A string that holds the separator is cut at its first occurrence. *)
Lemma contains_cut sep s :
  contains sep s = true ->
  exists a b, s = a +:+ String sep b /\ contains sep a = false.
Proof.
  induction s as [|c s IH]; simpl; [discriminate|].
  destruct (Ascii.eqb_spec c sep) as [->|Hne]; simpl.
  - intros _. exists EmptyString, s. split; reflexivity.
  - intros H. destruct (IH H) as (a & b & -> & Ha).
    exists (String c a), b. split; [reflexivity|].
    simpl. rewrite Ha. destruct (Ascii.eqb_spec c sep); [contradiction|reflexivity].
Qed.

(** [split(sep, 2)] of a text with two separators or more has three
    fields. *)
Lemma split_max_2 sep a b rest :
  contains sep a = false -> contains sep b = false ->
  split_max sep 2 (a +:+ String sep (b +:+ String sep rest)) = [a; b; rest].
Proof.
  intros Ha Hb. rewrite split_max_app by exact Ha.
  rewrite split_max_app by exact Hb. rewrite split_max_0. reflexivity.
Qed.

Lemma startswith_char c s :
  startswith (String c EmptyString) s = true <-> first_char s = Some c.
Proof.
  unfold startswith. destruct s as [|d s]; simpl.
  - split; discriminate.
  - destruct (ascii_dec c d) as [->|Hne].
    + split; [reflexivity|]. intros _. destruct s; reflexivity.
    + split; [discriminate|]. intros [= ->]. contradiction.
Qed.

Lemma rev_onto_last s acc c :
  last_char s = Some c -> exists t, rev_onto s acc = String c t.
Proof.
  revert acc. induction s as [|a s IH]; intros acc H; [discriminate|].
  destruct s as [|b s].
  - injection H as ->. exists acc. reflexivity.
  - apply (IH (String a acc)). exact H.
Qed.

Lemma endswith_char c s :
  endswith (String c EmptyString) s = true <-> last_char s = Some c.
Proof.
  unfold endswith. simpl rev_onto at 1.
  destruct (last_char s) as [d|] eqn:Hl.
  - destruct (rev_onto_last s EmptyString d Hl) as (t & ->). simpl.
    destruct (ascii_dec c d) as [->|Hne].
    + split; [reflexivity|]. intros _. destruct t; reflexivity.
    + split; [discriminate|]. intros [= ->]. contradiction.
  - destruct s as [|a s]; [split; discriminate|].
    exfalso. revert a Hl. induction s as [|b s IH]; intros a Hl; [discriminate|].
    apply (IH b). exact Hl.
Qed.

(** What is left after [lstrip] does not start with a stripped
    character. *)
Lemma lstrip_by_first p s c :
  first_char (lstrip_by p s) = Some c -> p c = false.
Proof.
  induction s as [|a s IH]; simpl; [discriminate|].
  destruct (p a) eqn:Hp; [exact IH|]. simpl. intros [= <-]. exact Hp.
Qed.

(** [rstrip] keeps a first character that is not stripped. *)
Lemma rstrip_by_first p s c :
  first_char s = Some c -> p c = false -> first_char (rstrip_by p s) = Some c.
Proof.
  destruct s as [|a s]; [discriminate|]. simpl. intros [= ->] Hp.
  destruct (rstrip_by p s); [rewrite Hp|]; reflexivity.
Qed.

Lemma rstrip_by_first_inv p s c :
  first_char (rstrip_by p s) = Some c -> first_char s = Some c.
Proof.
  destruct s as [|a s]; [discriminate|]. simpl.
  destruct (rstrip_by p s); [destruct (p a)|]; simpl; congruence.
Qed.

(** What is left after [rstrip] does not end with a stripped character. *)
Lemma rstrip_by_last p s c :
  last_char (rstrip_by p s) = Some c -> p c = false.
Proof.
  induction s as [|a s IH]; simpl; [discriminate|].
  destruct (rstrip_by p s) as [|b r] eqn:Hr.
  - destruct (p a) eqn:Hp; [discriminate|]. simpl. intros [= <-]. exact Hp.
  - intros H. apply IH. exact H.
Qed.

(** [s.strip(chars)] neither starts nor ends with one of [chars]. *)
Lemma strip_chars_ends chars s c :
  (first_char (strip_chars chars s) = Some c -> contains c chars = false)
  /\ (last_char (strip_chars chars s) = Some c -> contains c chars = false).
Proof.
  unfold strip_chars, rstrip_chars. split.
  - intros H. apply rstrip_by_first_inv in H.
    apply (lstrip_by_first _ _ _ H).
  - apply rstrip_by_last.
Qed.

Lemma contains_singleton c d :
  contains c (String d EmptyString) = Ascii.eqb d c.
Proof. simpl. apply orb_false_r. Qed.

End pystr.

(* ===================================================================== *)
(** ** Raising and returning *)
(* ===================================================================== *)

Module py.

(** The exception classes the modelled code raises or lets through. *)
Inductive exc_type :=
| ValueError | TypeError | AttributeError | KeyError | IndexError
| SyntaxError | ZeroDivisionError | AssertionError
| DefinitionSyntaxError | RedefinitionError | UndefinedUnitError
| DimensionalityError | OffsetUnitCalculusError.

(** The outcome of a call: the returned value, or the exception raised. *)
Inductive result (A : Type) :=
| Ok (a : A)
| Raise (t : exc_type) (msg : string).
Arguments Ok {A} a.
Arguments Raise {A} t msg.

Definition bind {A B} (m : result A) (k : A -> result B) : result B :=
  match m with
  | Ok a => k a
  | Raise t msg => Raise t msg
  end.

Definition fmap {A B} (f : A -> B) (m : result A) : result B :=
  bind m (fun a => Ok (f a)).

Definition raises {A} (m : result A) (t : exc_type) : Prop :=
  exists msg, m = Raise t msg.

Definition is_ok {A} (m : result A) : bool :=
  match m with Ok _ => true | Raise _ _ => false end.

(** [result] is a monad; the code below is written with stdpp's notation
    for binding, [x ← m; k]. *)
#[global] Instance result_ret : MRet result := fun A a => Ok a.
#[global] Instance result_bind : MBind result := fun A B k m => bind m k.
#[global] Instance result_fmap : FMap result := fun A B f m => fmap f m.

Lemma bind_ok {A B} (m : result A) (k : A -> result B) (b : B) :
  (m ≫= k) = Ok b -> exists a, m = Ok a /\ k a = Ok b.
Proof.
  destruct m as [a|t msg]; simpl; intros H; [|discriminate].
  exists a. split; [reflexivity|exact H].
Qed.

Lemma fmap_ok {A B} (f : A -> B) (m : result A) (b : B) :
  f <$> m = Ok b -> exists a, m = Ok a /\ b = f a.
Proof.
  destruct m as [a|t msg]; simpl; intros H; [|discriminate].
  exists a. split; [reflexivity|]. injection H as <-. reflexivity.
Qed.

End py.
Export py.

(* ===================================================================== *)
(** ** pint.converters and pint.util: what the definitions are made of *)
(* ===================================================================== *)

Module converters.

(** Modelled from the spec: converters.py is not part of the sources. A
    converter is a pure scale or a scale with an offset. *)
Inductive Converter :=
| ScaleConverter (scale : Q)
| OffsetConverter (scale offset : Q).

(** Modelled from the spec: [is_multiplicative] is true only for
    ScaleConverter. *)
Definition is_multiplicative (c : Converter) : bool :=
  match c with
  | ScaleConverter _ => true
  | OffsetConverter _ _ => false
  end.

(** Modelled from the spec: [to_reference(x) = x*scale] for a scale and
    [x*scale + offset] for an offset converter. *)
Definition to_reference (c : Converter) (x : Q) : Q :=
  match c with
  | ScaleConverter scale => x * scale
  | OffsetConverter scale offset => x * scale + offset
  end.

(** Modelled from the spec: [from_reference(x) = x/scale], respectively
    [(x-offset)/scale]. *)
Definition from_reference (c : Converter) (x : Q) : Q :=
  match c with
  | ScaleConverter scale => x / scale
  | OffsetConverter scale offset => (x - offset) / scale
  end.

End converters.
Export converters.

Module util.

(** A units container maps unit names to exponents. The pairs are kept in
    insertion order, as a Python dict keeps them. *)
Definition UnitsContainer := list (string * Q).

Definition keys (u : UnitsContainer) : list string := map fst u.

(** What [ParserHelper.from_string] returns: a units container that also
    carries a numeric scale. *)
Record ParserHelper := { scale : Q; units : UnitsContainer }.

End util.
Export util.

(* ===================================================================== *)
(** ** The expression parser of pint.util, from its description *)
(* ===================================================================== *)

Module parser.
Import pystr.

(** Modelled from the spec: [_is_dim] of pint.util is not part of the
    sources; a dimension name matches the pattern [[...]]. *)
Definition _is_dim (name : string) : bool :=
  startswith "[" name && endswith "]" name.

(** Multiplying two containers adds the exponents per key and drops the
    keys whose exponent becomes zero. *)
Fixpoint add_exponent (key : string) (e : Q) (u : UnitsContainer) : UnitsContainer :=
  match u with
  | [] => if Qeq_bool e 0 then [] else [(key, e)]
  | (k, x) :: rest =>
      if String.eqb k key then
        let s := Qred (x + e)%Q in
        if Qeq_bool s 0 then rest else (k, s) :: rest
      else (k, x) :: add_exponent key e rest
  end.

Definition multiply (a b : UnitsContainer) : UnitsContainer :=
  fold_left (fun acc kv => add_exponent (fst kv) (snd kv) acc) b a.

Definition power (a : UnitsContainer) (e : Q) : UnitsContainer :=
  if Qeq_bool e 0 then []
  else map (fun kv => (fst kv, Qred (snd kv * e)%Q)) a.

Definition divide (a b : UnitsContainer) : UnitsContainer :=
  multiply a (power b (-1 # 1)).

(** The tokens of the restricted grammar. *)
Inductive token :=
| TNum (text : string)
| TId (name : string)
| TMul | TDiv | TPow | TMinus | TLParen | TRParen.

Definition is_digit (c : ascii) : bool :=
  let n := nat_of_ascii c in ((48 <=? n) && (n <=? 57))%nat.

Definition is_letter (c : ascii) : bool :=
  let n := nat_of_ascii c in
  (((65 <=? n) && (n <=? 90)) || ((97 <=? n) && (n <=? 122)) || (n =? 95))%nat.

(** What the tokenizer is in the middle of; the text read so far is kept
    reversed. *)
Inductive lexing :=
| Between
| InNumber (rev_text : string) (after_e : bool)
| InName (rev_text : string)
| InBrackets (rev_text : string)
| AfterStar.

Definition rev (s : string) : string := rev_onto s EmptyString.

(** The tokens a state stands for when the text ends or another token
    starts. *)
Definition flush (st : lexing) : result (list token) :=
  match st with
  | Between => Ok []
  | InNumber t _ => Ok [TNum (rev t)]
  | InName t => Ok [TId (rev t)]
  | InBrackets _ => Raise SyntaxError "unmatched bracket"
  | AfterStar => Ok [TMul]
  end.

(** A character that starts a token. *)
Definition start (c : ascii) : result (list token * lexing) :=
  if isspace c then Ok ([], Between)
  else if is_digit c || Ascii.eqb c "." then Ok ([], InNumber (String c EmptyString) false)
  else if is_letter c then Ok ([], InName (String c EmptyString))
  else if Ascii.eqb c "[" then Ok ([], InBrackets (String c EmptyString))
  else if Ascii.eqb c "*" then Ok ([], AfterStar)
  else if Ascii.eqb c "/" then Ok ([TDiv], Between)
  else if Ascii.eqb c "^" then Ok ([TPow], Between)
  else if Ascii.eqb c "-" then Ok ([TMinus], Between)
  else if Ascii.eqb c "(" then Ok ([TLParen], Between)
  else if Ascii.eqb c ")" then Ok ([TRParen], Between)
  else Raise SyntaxError "unexpected character".

Definition flush_then_start (st : lexing) (c : ascii) : result (list token * lexing) :=
  done ← flush st;
  '(more, st') ← start c;
  Ok (done ++ more, st').

Definition lex_step (st : lexing) (c : ascii) : result (list token * lexing) :=
  match st with
  | InNumber t after_e =>
      if is_digit c || Ascii.eqb c "." then Ok ([], InNumber (String c t) false)
      else if Ascii.eqb c "e" || Ascii.eqb c "E" then Ok ([], InNumber (String "e" t) true)
      else if after_e && (Ascii.eqb c "-" || Ascii.eqb c "+") then Ok ([], InNumber (String c t) false)
      else flush_then_start st c
  | InName t =>
      if is_letter c || is_digit c then Ok ([], InName (String c t))
      else flush_then_start st c
  | InBrackets t =>
      if Ascii.eqb c "]" then Ok ([TId (rev (String c t))], Between)
      else Ok ([], InBrackets (String c t))
  | AfterStar =>
      if Ascii.eqb c "*" then Ok ([TPow], Between)
      else flush_then_start st c
  | Between => start c
  end.

Fixpoint tokenize_from (st : lexing) (s : string) : result (list token) :=
  match s with
  | EmptyString => flush st
  | String c s' =>
      '(done, st') ← lex_step st c;
      more ← tokenize_from st' s';
      Ok (done ++ more)
  end.

Definition tokenize (s : string) : result (list token) := tokenize_from Between s.

(** Decimal digits as a natural number; None on any other character. *)
Fixpoint digits_from (acc : N) (s : string) : option N :=
  match s with
  | EmptyString => Some acc
  | String c s' =>
      if is_digit c
      then digits_from (acc * 10 + (N_of_ascii c - 48))%N s'
      else None
  end.

Definition digits (s : string) : option N := digits_from 0%N s.

Definition pow10 (e : Z) : Q := Qpower (10 # 1) e.

(** An unsigned mantissa, [ddd] or [ddd.ddd] with digits on at least one
    side of the point. *)
Definition mantissa (s : string) : option Q :=
  match split "." s with
  | [i] => if truthy i then n ← digits i; Some (Z.of_N n # 1) else None
  | [i; f] =>
      if truthy i || truthy f then
        n ← digits i; m ← digits f;
        Some ((Z.of_N n # 1) + (Z.of_N m # 1) * pow10 (- Z.of_nat (String.length f)))%Q
      else None
  | _ => None
  end.

Definition signed_digits (s : string) : option Z :=
  match s with
  | String "-" d => if truthy d then n ← digits d; Some (- Z.of_N n)%Z else None
  | String "+" d => if truthy d then n ← digits d; Some (Z.of_N n) else None
  | d => if truthy d then n ← digits d; Some (Z.of_N n) else None
  end.

(** An integer, float or scientific literal; the tokenizer writes the
    exponent mark as a lower-case e. *)
Definition number (s : string) : option Q :=
  match split "e" s with
  | [m] => q ← mantissa m; Some (Qred q)
  | [m; e] => q ← mantissa m; x ← signed_digits e; Some (Qred (q * pow10 x)%Q)
  | _ => None
  end.

(** The exponent mark of a literal, in lower case. *)
Fixpoint lower_e (s : string) : string :=
  match s with
  | EmptyString => EmptyString
  | String c s' => String (if Ascii.eqb c "E" then "e"%char else c) (lower_e s')
  end.

(** A parsed sub-expression: a numeric scale and a container. *)
Definition value := ParserHelper.

Definition v_mul (a b : value) : value :=
  {| scale := Qred (scale a * scale b)%Q; units := multiply (units a) (units b) |}.

Definition v_div (a b : value) : result value :=
  if Qeq_bool (scale b) 0 then Raise ZeroDivisionError "division by zero"
  else Ok {| scale := Qred (scale a / scale b)%Q; units := divide (units a) (units b) |}.

Definition v_neg (a : value) : value :=
  {| scale := Qred (- scale a)%Q; units := units a |}.

(** [a ** e]: the exponent is a pure number. A scale other than one is
    raised to whole exponents only, which keeps the result rational. *)
Definition v_pow (a e : value) : result value :=
  match units e with
  | _ :: _ => Raise TypeError "the exponent is not a number"
  | [] =>
      let x := Qred (scale e) in
      if (Qden x =? 1)%positive then
        if Qeq_bool (scale a) 0 && (Qnum x <? 0)%Z
        then Raise ZeroDivisionError "zero to a negative power"
        else Ok {| scale := Qred (Qpower (scale a) (Qnum x)); units := power (units a) x |}
      else if Qeq_bool (scale a) 1
        then Ok {| scale := 1; units := power (units a) x |}
        else Raise ValueError "fractional power of a scale"
  end.

(** Evaluation with the precedences of the grammar: power binds tighter
    than unary minus, unary minus tighter than multiplication and division;
    power associates to the right, the others to the left. *)
Fixpoint unary (fuel : nat) (ts : list token) : result (value * list token) :=
  match fuel with
  | O => Raise SyntaxError "expression nested too deeply"
  | S fuel =>
      match ts with
      | TMinus :: ts =>
          '(v, ts) ← unary fuel ts; Ok (v_neg v, ts)
      | _ =>
          '(b, ts) ←
            match ts with
            | TNum t :: ts =>
                match number t with
                | Some q => Ok ({| scale := q; units := [] |}, ts)
                | None => Raise SyntaxError "malformed number"
                end
            | TId x :: ts => Ok ({| scale := 1; units := [(x, 1%Q)] |}, ts)
            | TLParen :: ts =>
                '(v, ts) ← term fuel ts;
                match ts with
                | TRParen :: ts => Ok (v, ts)
                | _ => Raise SyntaxError "unmatched parenthesis"
                end
            | _ => Raise SyntaxError "an operand is missing"
            end;
          match ts with
          | TPow :: ts =>
              '(e, ts) ← unary fuel ts;
              v ← v_pow b e;
              Ok (v, ts)
          | _ => Ok (b, ts)
          end
      end
  end
with term (fuel : nat) (ts : list token) : result (value * list token) :=
  match fuel with
  | O => Raise SyntaxError "expression nested too deeply"
  | S fuel => '(v, ts) ← unary fuel ts; factors fuel v ts
  end
with factors (fuel : nat) (acc : value) (ts : list token)
    : result (value * list token) :=
  match fuel with
  | O => Raise SyntaxError "expression nested too deeply"
  | S fuel =>
      match ts with
      | TMul :: ts => '(v, ts) ← unary fuel ts; factors fuel (v_mul acc v) ts
      | TDiv :: ts =>
          '(v, ts) ← unary fuel ts;
          q ← v_div acc v;
          factors fuel q ts
      | _ => Ok (acc, ts)
      end
  end.

(** Modelled from the spec: [ParserHelper.from_string] of pint.util is not
    part of the sources. The text is tokenized and evaluated into a scale and
    a container; a blank text is the empty container with scale one; tokens
    left over, or missing, are a syntax error. *)
Definition from_string (input_string : string) : result ParserHelper :=
  ts ← tokenize input_string;
  match ts with
  | [] => Ok {| scale := 1; units := [] |}
  | _ =>
      '(v, rest) ← term (2 * length ts + 2) ts;
      match rest with
      | [] => Ok v
      | _ => Raise SyntaxError "unexpected token"
      end
  end.

(** Modelled from the spec: the builtin [eval], as the definitions file
    uses it, reads a numeric literal; the model is the restricted
    numeric-literal parser the design notes ask for (blanks around the
    literal and a sign in front of it are accepted). *)
Definition eval (source : string) : result Q :=
  let s := strip source in
  let '(negative, body) :=
    match s with
    | String "-" r => (true, lstrip r)
    | String "+" r => (false, lstrip r)
    | _ => (false, s)
    end in
  match number (lower_e body) with
  | Some q => Ok (if negative : bool then Qred (- q)%Q else q)
  | None => Raise SyntaxError "invalid syntax"
  end.

End parser.

(* ===================================================================== *)
(** ** pint.definitions *)
(* ===================================================================== *)

Module definitions.
Import pystr.

(** The base class [Definition]: the four attributes its initialiser
    stores. *)
Record Definition_ := {
  _name : string;
  _symbol : option string;
  _aliases : list string;
  _converter : option Converter
}.

Record PrefixDefinition := { prefix_super :> Definition_ }.

Record UnitDefinition := {
  unit_super :> Definition_;
  reference : option UnitsContainer;
  is_base : bool
}.

Record DimensionDefinition := {
  dimension_super :> Definition_;
  dimension_reference : option UnitsContainer;
  dimension_is_base : bool
}.

Record AliasDefinition := { alias_super :> Definition_ }.

(** An instance of one of the four subclasses, as [from_string] returns. *)
Inductive instance :=
| APrefix (d : PrefixDefinition)
| AUnit (d : UnitDefinition)
| ADimension (d : DimensionDefinition)
| AnAlias (d : AliasDefinition).

Definition base_of (i : instance) : Definition_ :=
  match i with
  | APrefix d => d
  | AUnit d => d
  | ADimension d => d
  | AnAlias d => d
  end.

(** The [converter] argument of the initialisers: a string to parse, or a
    ready converter object (or None). *)
Inductive converter_arg :=
| FromStr (s : string)
| Given (c : option Converter).

(** [Definition.__init__] *)
Definition Definition_init (name : string) (symbol : option string)
    (aliases : list string) (converter : option Converter) : Definition_ :=
  {| _name := name; _symbol := symbol; _aliases := aliases;
     _converter := converter |}.

(** [Definition.is_multiplicative]: reads the converter's flag; there is no
    such attribute on None. *)
Definition Definition_is_multiplicative (self : Definition_) : result bool :=
  match _converter self with
  | Some c => Ok (is_multiplicative c)
  | None => Raise AttributeError "'NoneType' object has no attribute 'is_multiplicative'"
  end.

(** [Definition.name] *)
Definition name (self : Definition_) : string := _name self.

(** [Definition.symbol]: [self._symbol or self._name]. *)
Definition symbol (self : Definition_) : string :=
  match _symbol self with
  | Some s => if truthy s then s else _name self
  | None => _name self
  end.

(** [Definition.has_symbol]: [bool(self._symbol)]. *)
Definition has_symbol (self : Definition_) : bool :=
  match _symbol self with
  | Some s => truthy s
  | None => false
  end.

(** [Definition.aliases] *)
Definition aliases (self : Definition_) : list string := _aliases self.


(** [AliasDefinition.__init__] *)
Definition AliasDefinition_init (name : string) (aliases : list string)
    : AliasDefinition :=
  {| alias_super := Definition_init name None aliases None |}.

Section Definitions.

(** [ParserHelper.from_string] and [_is_dim] of pint.util, and the
    builtin [eval] on the numeric texts of a definitions file; none of them
    is part of the sources at hand. *)
Variable ParserHelper_from_string : string -> result ParserHelper.
Variable _is_dim : string -> bool.
Variable eval : string -> result Q.

(** [PrefixDefinition.__init__] *)
Definition PrefixDefinition_init (name : string) (symbol : option string)
    (aliases : list string) (converter : converter_arg)
    : result PrefixDefinition :=
  converter ← match converter with
               | FromStr converter =>
                   v ← eval converter; Ok (Some (ScaleConverter v))
               | Given c => Ok c
               end;
  let aliases := map (strip_chars "-") aliases in
  let symbol := match symbol with
                | Some s => if truthy s then Some (strip_chars "-" s) else Some s
                | None => None
                end in
  Ok {| prefix_super := Definition_init name symbol aliases converter |}.

(** The dict of [UnitDefinition.__init__]: one [key: value] pair per
    part, the key stripped and the value evaluated; a later key replaces an
    earlier one. *)
Fixpoint modifiers_dict (parts : list string) (acc : gmap string Q)
    : result (gmap string Q) :=
  match parts with
  | [] => Ok acc
  | part :: rest =>
      match split ":" part with
      | [key; value] =>
          v ← eval value;
          modifiers_dict rest (<[strip key := v]> acc)
      | [_] => Raise ValueError "not enough values to unpack (expected 2, got 1)"
      | _ => Raise ValueError "too many values to unpack (expected 2)"
      end
  end.

(** [UnitDefinition.__init__], its first lines on a string: the expression
    before the [;] and the modifiers after it. *)
Definition split_modifiers (converter : string) : result (string * gmap string Q) :=
  if contains ";" converter then
    match split_max ";" 2 converter with
    | [converter; modifiers] =>
        modifiers ← modifiers_dict (split ";" modifiers) ∅;
        Ok (converter, modifiers)
    | [_] => Raise ValueError "not enough values to unpack (expected 2, got 1)"
    | _ => Raise ValueError "too many values to unpack (expected 2)"
    end
  else Ok (converter, ∅).

(** [UnitDefinition.__init__] *)
Definition UnitDefinition_init (name : string) (symbol : option string)
    (aliases : list string) (converter : converter_arg)
    (reference : option UnitsContainer) (is_base : bool)
    : result UnitDefinition :=
  match converter with
  | FromStr converter =>
      '(converter, modifiers) ← split_modifiers converter;
      converter ← ParserHelper_from_string converter;
      is_base ←
        (if negb (existsb _is_dim (keys (units converter))) then Ok false
         else if forallb _is_dim (keys (units converter)) then Ok true
         else Raise ValueError
           ("Cannot mix dimensions and units in the same definition. "
            +:+ "Base units must be referenced only to dimensions. "
            +:+ "Derived units must be referenced only to units."));
      let reference := Some (units converter) in
      let offset := default 0%Q (modifiers !! "offset") in
      let converter :=
        if negb (Qeq_bool offset 0)
        then OffsetConverter (scale converter) offset
        else ScaleConverter (scale converter) in
      Ok {| unit_super := Definition_init name symbol aliases (Some converter);
            reference := reference; is_base := is_base |}
  | Given converter =>
      Ok {| unit_super := Definition_init name symbol aliases converter;
            reference := reference; is_base := is_base |}
  end.

(** [DimensionDefinition.__init__]; [not converter] on the parsed
    container asks whether it has no key. *)
Definition DimensionDefinition_init (name : string) (symbol : option string)
    (aliases : list string) (converter : converter_arg)
    (reference : option UnitsContainer) (is_base : bool)
    : result DimensionDefinition :=
  match converter with
  | FromStr converter =>
      converter ← ParserHelper_from_string converter;
      is_base ←
        (match units converter with
         | [] => Ok true
         | _ =>
             if forallb _is_dim (keys (units converter)) then Ok false
             else Raise ValueError
               ("Base dimensions must be referenced to None. "
                +:+ "Derived dimensions must only be referenced "
                +:+ "to dimensions.")
         end);
      Ok {| dimension_super := Definition_init name symbol aliases None;
            dimension_reference := Some (units converter);
            dimension_is_base := is_base |}
  | Given _ =>
      Ok {| dimension_super := Definition_init name symbol aliases None;
            dimension_reference := reference;
            dimension_is_base := is_base |}
  end.

(** [Definition.from_string] *)
Definition from_string (definition : string) : result instance :=
  match split_max "=" 1 definition with
  | [name; definition] =>
      let name := strip name in
      let result := map strip (split "=" definition) in
      if startswith "@alias " name then
        let name := lstrip (drop (String.length "@alias ") name) in
        Ok (AnAlias (AliasDefinition_init name result))
      else
        match result with
        | [] => Raise IndexError "list index out of range"
        | value :: rest =>
            let aliases := List.filter (fun x => ne x "") rest in
            let '(symbol, aliases) :=
              match aliases with
              | a :: others => (Some a, others)
              | [] => (None, aliases)
              end in
            let symbol :=
              match symbol with
              | Some s => if String.eqb s "_" then None else Some s
              | None => None
              end in
            let aliases := List.filter (fun x => ne x "_") aliases in
            if startswith "[" name then
              ADimension <$>
                (DimensionDefinition_init name symbol aliases (FromStr value)
                   None false)
            else if endswith "-" name then
              let name := rstrip_chars "-" name in
              APrefix <$>
                (PrefixDefinition_init name symbol aliases (FromStr value))
            else
              AUnit <$>
                (UnitDefinition_init name symbol aliases (FromStr value)
                   None false)
        end
  | _ => Raise ValueError "not enough values to unpack (expected 2, got 1)"
  end.

(** Some keys are dimension names and some are not. *)
Definition mixed (ks : list string) : bool :=
  existsb _is_dim ks && negb (forallb _is_dim ks).

(** The symbol and the aliases [from_string] hands to an initialiser, from
    the tokens that follow the value. *)
Definition symbol_of (given : list string) : option string :=
  match given with
  | s :: _ => if String.eqb s "_" then None else Some s
  | [] => None
  end.

Definition aliases_of (given : list string) : list string :=
  List.filter (fun x => ne x "_") (tl given).

(* --------------------------------------------------------------------- *)
(** *** What the initialisers store *)

Lemma forallb_existsb {A} (p : A -> bool) (l : list A) :
  l <> [] -> forallb p l = true -> existsb p l = true.
Proof.
  destruct l as [|x l]; [contradiction|]. simpl. intros _ H.
  apply andb_true_iff in H as [-> _]. reflexivity.
Qed.

Lemma UnitDefinition_init_stores name symbol aliases converter r b u :
  UnitDefinition_init name symbol aliases converter r b = Ok u ->
  _name u = name /\ _symbol u = symbol /\ _aliases u = aliases.
Proof.
  unfold UnitDefinition_init. destruct converter as [s|c].
  - intros H. apply bind_ok in H as ([expr mods] & _ & H).
    apply bind_ok in H as (ph & _ & H).
    apply bind_ok in H as (ib & _ & H).
    injection H as <-. repeat split.
  - intros H. injection H as <-. repeat split.
Qed.

Lemma DimensionDefinition_init_stores name symbol aliases converter r b d :
  DimensionDefinition_init name symbol aliases converter r b = Ok d ->
  _name d = name /\ _symbol d = symbol /\ _aliases d = aliases.
Proof.
  unfold DimensionDefinition_init. destruct converter as [s|c].
  - intros H. apply bind_ok in H as (ph & _ & H).
    apply bind_ok in H as (ib & _ & H).
    injection H as <-. repeat split.
  - intros H. injection H as <-. repeat split.
Qed.

Lemma PrefixDefinition_init_stores name symbol aliases converter p :
  PrefixDefinition_init name symbol aliases converter = Ok p ->
  _name p = name
  /\ _symbol p = match symbol with
                 | Some s => if truthy s then Some (strip_chars "-" s) else Some s
                 | None => None
                 end
  /\ _aliases p = map (strip_chars "-") aliases.
Proof.
  unfold PrefixDefinition_init. intros H.
  apply bind_ok in H as (c & _ & H). injection H as <-. repeat split.
Qed.

(** The text [expr; key: number] splits into the expression and a
    one-entry dict. *)
Lemma split_modifiers_one expr key num v :
  contains ";" expr = false ->
  contains ";" key = false -> contains ":" key = false ->
  contains ";" num = false -> contains ":" num = false ->
  eval num = Ok v ->
  split_modifiers (expr +:+ ";" +:+ key +:+ ":" +:+ num)
  = Ok (expr, {[ strip key := v ]}).
Proof.
  intros He Hk1 Hk2 Hn1 Hn2 Hv. unfold split_modifiers.
  change (expr +:+ ";" +:+ key +:+ ":" +:+ num)
    with (expr +:+ String ";" (key +:+ String ":" num)).
  assert (Hrest : contains ";" (key +:+ String ":" num) = false).
  { rewrite contains_app. simpl. rewrite Hk1, Hn1. reflexivity. }
  assert (Hc : contains ";" (expr +:+ String ";" (key +:+ String ":" num)) = true).
  { rewrite contains_app. simpl. apply orb_true_r. }
  rewrite Hc.
  rewrite split_max_app by exact He.
  rewrite split_max_no_sep by exact Hrest.
  rewrite split_no_sep by exact Hrest.
  simpl modifiers_dict.
  rewrite split_app by exact Hk2.
  rewrite split_no_sep by exact Hn2.
  rewrite Hv. simpl. rewrite insert_empty. reflexivity.
Qed.

Lemma split_modifiers_none value :
  contains ";" value = false -> split_modifiers value = Ok (value, ∅).
Proof. intros H. unfold split_modifiers. rewrite H. reflexivity. Qed.

(** [UnitDefinition.__init__] on a string, once the modifiers are read
    and the expression is parsed. *)
Lemma UnitDefinition_init_parsed name symbol aliases value r b expr modifiers ph :
  split_modifiers value = Ok (expr, modifiers) ->
  ParserHelper_from_string expr = Ok ph ->
  UnitDefinition_init name symbol aliases (FromStr value) r b =
    (is_base ←
       (if negb (existsb _is_dim (keys (units ph))) then Ok false
        else if forallb _is_dim (keys (units ph)) then Ok true
        else Raise ValueError
          ("Cannot mix dimensions and units in the same definition. "
           +:+ "Base units must be referenced only to dimensions. "
           +:+ "Derived units must be referenced only to units."));
     let offset := default 0%Q (modifiers !! "offset") in
     Ok {| unit_super :=
             Definition_init name symbol aliases
               (Some (if negb (Qeq_bool offset 0)
                      then OffsetConverter (scale ph) offset
                      else ScaleConverter (scale ph)));
           reference := Some (units ph); is_base := is_base |}).
Proof.
  intros Hm Hp. unfold UnitDefinition_init. rewrite Hm. simpl.
  rewrite Hp. reflexivity.
Qed.

(* --------------------------------------------------------------------- *)
(** *** The claims about definitions *)

(** Whatever a definition stores as its symbol, the accessor answers it
    when it is a string that is not empty and the name otherwise, and
    has_symbol tells the two cases apart. *)
Definition answers (d : Definition_) (stored : option string) : Prop :=
  _symbol d = stored
  /\ match stored with
     | Some (String c s) => symbol d = String c s /\ has_symbol d = true
     | _ => symbol d = _name d /\ has_symbol d = false
     end.

Lemma answers_stored (d : Definition_) : answers d (_symbol d).
Proof.
  unfold answers, symbol, has_symbol.
  destruct (_symbol d) as [[|c s]|]; repeat split.
Qed.

Lemma strip_chars_not_truthy (s : string) :
  (if truthy s then Some (strip_chars "-" s) else Some s)
  = Some (strip_chars "-" s).
Proof. destruct s; reflexivity. Qed.

(** C9 (amended). The symbol accessor of a definition answers the stored
    symbol when that is a string that is not empty, and the name when the
    stored symbol is None or empty, never None; has_symbol is true in the
    first case only. The base class, a unit definition and a dimension
    definition store the symbol they are given; an alias definition stores
    None; a prefix definition stores the given symbol without the dashes at
    its ends, so what it answers is the stripped symbol, and its name when
    nothing is left of the symbol. *)
Theorem symbol_falls_back_to_name (name : string) (given : option string)
    (aliases : list string) (converter : converter_arg) (c : option Converter)
    (r : option UnitsContainer) (b : bool) :
  (forall d : Definition_, answers d (_symbol d))
  /\ (answers (Definition_init name given aliases c) given
      /\ _name (Definition_init name given aliases c) = name)
  /\ (forall u, UnitDefinition_init name given aliases converter r b = Ok u ->
        answers u given /\ _name u = name)
  /\ (forall d, DimensionDefinition_init name given aliases converter r b = Ok d ->
        answers d given /\ _name d = name)
  /\ (forall p, PrefixDefinition_init name given aliases converter = Ok p ->
        answers p (strip_chars "-" <$> given) /\ _name p = name)
  /\ (answers (AliasDefinition_init name aliases) None
      /\ _name (AliasDefinition_init name aliases) = name).
Proof.
  split; [exact answers_stored|].
  split; [|split; [|split; [|split]]].
  - split; [apply (answers_stored (Definition_init name given aliases c))|reflexivity].
  - intros u H. apply UnitDefinition_init_stores in H as (Hn & Hs & _).
    split; [rewrite <- Hs; apply answers_stored|exact Hn].
  - intros d H. apply DimensionDefinition_init_stores in H as (Hn & Hs & _).
    split; [rewrite <- Hs; apply answers_stored|exact Hn].
  - intros p H. apply PrefixDefinition_init_stores in H as (Hn & Hs & _).
    split; [|exact Hn].
    replace (strip_chars "-" <$> given) with (_symbol p); [apply answers_stored|].
    rewrite Hs. destruct given as [s|]; [|reflexivity].
    apply strip_chars_not_truthy.
  - split; [apply (answers_stored (AliasDefinition_init name aliases))|reflexivity].
Qed.

(** C1 (amended). For a unit definition built from a string whose
    expression parses to [ph]: when no key of the parsed reference is a
    dimension name, which includes the empty reference, is_base is false; when
    the reference has a key and every key is a dimension name, is_base is
    true; when some keys are dimension names and some are not, the
    initialiser raises ValueError. The stored reference is the parsed one. *)
Theorem UnitDefinition_is_base name symbol aliases value r b expr modifiers ph :
  split_modifiers value = Ok (expr, modifiers) ->
  ParserHelper_from_string expr = Ok ph ->
  let ks := keys (units ph) in
  let made := UnitDefinition_init name symbol aliases (FromStr value) r b in
  (existsb _is_dim ks = false ->
     exists u, made = Ok u /\ is_base u = false /\ reference u = Some (units ph))
  /\ (ks <> [] -> forallb _is_dim ks = true ->
        exists u, made = Ok u /\ is_base u = true /\ reference u = Some (units ph))
  /\ (existsb _is_dim ks = true -> forallb _is_dim ks = false ->
        raises made ValueError).
Proof.
  intros Hm Hp ks made. subst made.
  rewrite (UnitDefinition_init_parsed _ _ _ _ _ _ _ _ _ Hm Hp). fold ks.
  split; [|split].
  - intros Hany. rewrite Hany. simpl. eexists. repeat split.
  - intros Hne Hall. rewrite (forallb_existsb _ _ Hne Hall), Hall. simpl.
    eexists. repeat split.
  - intros Hany Hall. rewrite Hany, Hall. simpl. eexists. reflexivity.
Qed.

Lemma UnitDefinition_init_consistent name symbol aliases value r b expr modifiers ph :
  split_modifiers value = Ok (expr, modifiers) ->
  ParserHelper_from_string expr = Ok ph ->
  mixed (keys (units ph)) = false ->
  let offset := default 0%Q (modifiers !! "offset") in
  UnitDefinition_init name symbol aliases (FromStr value) r b =
    Ok {| unit_super :=
            Definition_init name symbol aliases
              (Some (if negb (Qeq_bool offset 0)
                     then OffsetConverter (scale ph) offset
                     else ScaleConverter (scale ph)));
          reference := Some (units ph);
          is_base := existsb _is_dim (keys (units ph)) |}.
Proof.
  intros Hm Hp Hmix offset.
  rewrite (UnitDefinition_init_parsed _ _ _ _ _ _ _ _ _ Hm Hp).
  unfold mixed in Hmix.
  destruct (existsb _is_dim (keys (units ph))) eqn:Hany; simpl in *.
  - apply negb_false_iff in Hmix. rewrite Hmix. reflexivity.
  - reflexivity.
Qed.

(** C3 (amended). A unit definition whose value is [expr; offset: number]
    gets the affine OffsetConverter(scale, offset), which maps x to
    x*scale + offset and is not multiplicative, when the number is not zero;
    when the number is zero, and when the value has no modifier, it gets the
    ScaleConverter(scale), and only a ScaleConverter is multiplicative. *)
Theorem UnitDefinition_offset_converter name symbol aliases r b expr key num ph off :
  contains ";" expr = false ->
  contains ";" key = false -> contains ":" key = false ->
  contains ";" num = false -> contains ":" num = false ->
  strip key = "offset" ->
  eval num = Ok off ->
  ParserHelper_from_string expr = Ok ph ->
  mixed (keys (units ph)) = false ->
  (exists u,
     UnitDefinition_init name symbol aliases
       (FromStr (expr +:+ ";" +:+ key +:+ ":" +:+ num)) r b = Ok u
     /\ _converter u = Some (if Qeq_bool off 0
                             then ScaleConverter (scale ph)
                             else OffsetConverter (scale ph) off)
     /\ Definition_is_multiplicative u = Ok (Qeq_bool off 0))
  /\ (exists u,
        UnitDefinition_init name symbol aliases (FromStr expr) r b = Ok u
        /\ _converter u = Some (ScaleConverter (scale ph))
        /\ Definition_is_multiplicative u = Ok true)
  /\ (forall x, to_reference (OffsetConverter (scale ph) off) x
                = (x * scale ph + off)%Q
                /\ from_reference (OffsetConverter (scale ph) off) x
                   = ((x - off) / scale ph)%Q)
  /\ (forall c, is_multiplicative c = true -> exists s, c = ScaleConverter s).
Proof.
  intros He Hk1 Hk2 Hn1 Hn2 Hkey Hv Hp Hmix.
  split; [|split; [|split]].
  - pose proof (split_modifiers_one expr key num off He Hk1 Hk2 Hn1 Hn2 Hv) as Hm.
    rewrite Hkey in Hm.
    rewrite (UnitDefinition_init_consistent _ _ _ _ _ _ _ _ _ Hm Hp Hmix).
    rewrite lookup_singleton_eq. simpl.
    eexists. split; [reflexivity|]. simpl.
    unfold Definition_is_multiplicative. simpl.
    destruct (Qeq_bool off 0); simpl; split; reflexivity.
  - pose proof (split_modifiers_none expr He) as Hm.
    rewrite (UnitDefinition_init_consistent _ _ _ _ _ _ _ _ _ Hm Hp Hmix).
    rewrite lookup_empty. simpl.
    eexists. repeat split.
  - intros x. split; reflexivity.
  - intros [s|s o] H; [exists s; reflexivity|discriminate].
Qed.

(** [from_string] on a line with an equals sign, in terms of the text
    before the first one and the fields after it. *)
Lemma from_string_fields (name0 : string) (tokens : list string) :
  contains "=" name0 = false ->
  tokens <> [] ->
  Forall (fun t => contains "=" t = false) tokens ->
  let name := strip name0 in
  let result := map strip tokens in
  let value := hd "" result in
  let given := List.filter (fun x => ne x "") (tl result) in
  from_string (name0 +:+ "=" +:+ join "=" tokens) =
    if startswith "@alias " name then
      Ok (AnAlias (AliasDefinition_init (lstrip (drop 7 name)) result))
    else if startswith "[" name then
      ADimension <$>
        DimensionDefinition_init name (symbol_of given) (aliases_of given)
          (FromStr value) None false
    else if endswith "-" name then
      APrefix <$>
        PrefixDefinition_init (rstrip_chars "-" name) (symbol_of given)
          (aliases_of given) (FromStr value)
    else
      AUnit <$>
        UnitDefinition_init name (symbol_of given) (aliases_of given)
          (FromStr value) None false.
Proof.
  intros Hname Hne Hall name result value given.
  unfold from_string.
  change (name0 +:+ "=" +:+ join "=" tokens)
    with (name0 +:+ String "=" (join "=" tokens)).
  rewrite split_max_1 by exact Hname.
  rewrite split_join by assumption.
  fold name. fold result.
  destruct (startswith "@alias " name); [reflexivity|].
  subst value given result.
  destruct tokens as [|t ts]; [contradiction|].
  simpl map. simpl hd. simpl tl.
  unfold symbol_of, aliases_of.
  destruct (List.filter (fun x => ne x "") (map strip ts)) as [|s others]; simpl.
  - reflexivity.
  - destruct (String.eqb s "_"); reflexivity.
Qed.

Lemma from_string_no_equals (line : string) :
  contains "=" line = false -> raises (from_string line) ValueError.
Proof.
  intros H. unfold from_string. rewrite split_max_no_sep by exact H.
  eexists. reflexivity.
Qed.

(** Every line with an equals sign is a name text, the sign, and
    fields joined by the sign. *)
Lemma line_fields (line : string) :
  contains "=" line = true ->
  exists name0 tokens,
    line = name0 +:+ "=" +:+ join "=" tokens
    /\ contains "=" name0 = false /\ tokens <> []
    /\ Forall (fun t => contains "=" t = false) tokens.
Proof.
  intros Hc.
  pose proof (join_split "=" line) as Hj.
  pose proof (split_fields "=" line) as Hf.
  pose proof (split_ne_nil "=" line) as Hn.
  destruct (split "=" line) as [|name0 tokens] eqn:Hs; [contradiction|].
  destruct tokens as [|t ts].
  - simpl in Hj. subst name0. inversion Hf as [|? ? Hx _]; subst.
    rewrite Hx in Hc. discriminate.
  - exists name0, (t :: ts). inversion Hf; subst.
    repeat split; try assumption; try discriminate.
Qed.

Lemma symbol_of_truthy (l : list string) (s : string) :
  symbol_of (List.filter (fun x => ne x "") l) = Some s -> truthy s = true.
Proof.
  unfold symbol_of.
  destruct (List.filter (fun x => ne x "") l) as [|a rest] eqn:Hf; [discriminate|].
  destruct (String.eqb a "_"); [discriminate|]. intros [= <-].
  assert (Hin : In a (List.filter (fun x => ne x "") l)) by (rewrite Hf; left; reflexivity).
  apply filter_In in Hin as [_ Hin]. exact Hin.
Qed.

(** C2. A line with an equals sign is cut at the first one into the name
    text and the rest, and the rest at every sign into the value and the
    other fields, each stripped of blanks. A name that starts with
    [@alias ] gives an AliasDefinition for the name after the marker, with
    all the fields as its aliases; otherwise a name that starts with a
    bracket gives a DimensionDefinition; otherwise a name that ends in a dash
    gives a PrefixDefinition that stores the name without its trailing
    dashes; every other name gives a UnitDefinition. *)
Theorem from_string_dispatch (name0 : string) (tokens : list string) :
  contains "=" name0 = false ->
  tokens <> [] ->
  Forall (fun t => contains "=" t = false) tokens ->
  let name := strip name0 in
  let result := map strip tokens in
  let value := hd "" result in
  let given := List.filter (fun x => ne x "") (tl result) in
  let line := name0 +:+ "=" +:+ join "=" tokens in
  from_string line =
    (if startswith "@alias " name then
       Ok (AnAlias (AliasDefinition_init (lstrip (drop 7 name)) result))
     else if startswith "[" name then
       ADimension <$>
         DimensionDefinition_init name (symbol_of given) (aliases_of given)
           (FromStr value) None false
     else if endswith "-" name then
       APrefix <$>
         PrefixDefinition_init (rstrip_chars "-" name) (symbol_of given)
           (aliases_of given) (FromStr value)
     else
       AUnit <$>
         UnitDefinition_init name (symbol_of given) (aliases_of given)
           (FromStr value) None false)
  /\ forall i, from_string line = Ok i ->
       match i with
       | AnAlias a =>
           startswith "@alias " name = true
           /\ _name a = lstrip (drop 7 name) /\ _aliases a = result
       | ADimension d =>
           startswith "@alias " name = false /\ startswith "[" name = true
           /\ _name d = name
       | APrefix p =>
           startswith "@alias " name = false /\ startswith "[" name = false
           /\ endswith "-" name = true /\ _name p = rstrip_chars "-" name
       | AUnit u =>
           startswith "@alias " name = false /\ startswith "[" name = false
           /\ endswith "-" name = false /\ _name u = name
       end.
Proof.
  intros Hname Hne Hall name result value given line.
  pose proof (from_string_fields name0 tokens Hname Hne Hall) as Heq.
  cbv zeta in Heq. fold name result value given line in Heq.
  split; [exact Heq|].
  intros i Hi. rewrite Heq in Hi.
  destruct (startswith "@alias " name).
  { injection Hi as <-. repeat split. }
  destruct (startswith "[" name).
  { apply fmap_ok in Hi as (d & Hd & ->).
    apply DimensionDefinition_init_stores in Hd as (Hn & _). repeat split. exact Hn. }
  destruct (endswith "-" name).
  { apply fmap_ok in Hi as (p & Hp & ->).
    apply PrefixDefinition_init_stores in Hp as (Hn & _). repeat split. exact Hn. }
  apply fmap_ok in Hi as (u & Hu & ->).
  apply UnitDefinition_init_stores in Hu as (Hn & _). repeat split. exact Hn.
Qed.

(** C4 (amended). On a line that is not an alias line, the fields after the
    value are stripped of blanks and the empty ones are dropped; the first
    field left, if there is one, is the symbol, and a symbol field that is
    exactly an underscore gives no symbol (None) while still taking the
    symbol's place; of the fields after it, those equal to an underscore are
    dropped and the others are the aliases, in order. Unit and dimension
    definitions store them as they are, a prefix definition stores them with
    the dashes at both ends removed. *)
Theorem from_string_symbol_and_aliases (name0 value : string)
    (tokens : list string) (i : instance) :
  contains "=" name0 = false ->
  Forall (fun t => contains "=" t = false) (value :: tokens) ->
  startswith "@alias " (strip name0) = false ->
  from_string (name0 +:+ "=" +:+ join "=" (value :: tokens)) = Ok i ->
  let given := List.filter (fun x => ne x "") (map strip tokens) in
  let symbol :=
    match given with
    | s :: _ => if String.eqb s "_" then None else Some s
    | [] => None
    end in
  let aliases := List.filter (fun x => ne x "_") (tl given) in
  match i with
  | AUnit u => _symbol u = symbol /\ _aliases u = aliases
  | ADimension d => _symbol d = symbol /\ _aliases d = aliases
  | APrefix p =>
      _symbol p = strip_chars "-" <$> symbol
      /\ _aliases p = map (strip_chars "-") aliases
  | AnAlias _ => False
  end.
Proof.
  intros Hname Hall Halias Hi given symbol aliases.
  rewrite from_string_fields in Hi by (assumption || discriminate).
  rewrite Halias in Hi. simpl map in Hi. simpl hd in Hi. simpl tl in Hi.
  fold given in Hi.
  change (symbol_of given) with symbol in Hi.
  change (aliases_of given) with aliases in Hi.
  destruct (startswith "[" (strip name0)).
  { apply fmap_ok in Hi as (d & Hd & ->).
    apply DimensionDefinition_init_stores in Hd as (_ & Hs & Ha). split; assumption. }
  destruct (endswith "-" (strip name0)).
  { apply fmap_ok in Hi as (p & Hp & ->).
    apply PrefixDefinition_init_stores in Hp as (_ & Hs & Ha).
    split; [|exact Ha]. rewrite Hs.
    destruct symbol as [s|] eqn:Hsym; [|reflexivity].
    rewrite (symbol_of_truthy (map strip tokens) s Hsym). reflexivity. }
  apply fmap_ok in Hi as (u & Hu & ->).
  apply UnitDefinition_init_stores in Hu as (_ & Hs & Ha). split; assumption.
Qed.

(* --------------------------------------------------------------------- *)
(** *** Further properties of the definitions *)

Lemma from_string_ok_fields (line : string) (i : instance) :
  from_string line = Ok i ->
  exists name0 tokens,
    line = name0 +:+ "=" +:+ join "=" tokens
    /\ contains "=" name0 = false /\ tokens <> []
    /\ Forall (fun t => contains "=" t = false) tokens.
Proof.
  intros H. destruct (contains "=" line) eqn:Hc.
  - apply line_fields, Hc.
  - destruct (from_string_no_equals line Hc) as (msg & Hr). congruence.
Qed.

Lemma PrefixDefinition_init_converter name symbol aliases value p :
  PrefixDefinition_init name symbol aliases (FromStr value) = Ok p ->
  exists x, eval value = Ok x /\ _converter p = Some (ScaleConverter x).
Proof.
  unfold PrefixDefinition_init. intros H.
  apply bind_ok in H as (c & Hc & H). injection H as <-.
  apply bind_ok in Hc as (x & Hx & Hc). injection Hc as <-.
  exists x. split; [exact Hx|reflexivity].
Qed.

Lemma DimensionDefinition_init_converter name symbol aliases converter r b d :
  DimensionDefinition_init name symbol aliases converter r b = Ok d ->
  _converter d = None.
Proof.
  unfold DimensionDefinition_init. destruct converter as [s|c].
  - intros H. apply bind_ok in H as (ph & _ & H).
    apply bind_ok in H as (ib & _ & H). injection H as <-. reflexivity.
  - intros H. injection H as <-. reflexivity.
Qed.

Lemma UnitDefinition_init_converter name symbol aliases value r b u :
  UnitDefinition_init name symbol aliases (FromStr value) r b = Ok u ->
  exists c, _converter u = Some c.
Proof.
  unfold UnitDefinition_init. intros H.
  apply bind_ok in H as ([expr mods] & _ & H).
  apply bind_ok in H as (ph & _ & H).
  apply bind_ok in H as (ib & _ & H). injection H as <-.
  eexists. reflexivity.
Qed.

(** X1. A line without an equals sign is not a definition: [from_string]
    raises ValueError, whatever else the line holds. *)
Theorem from_string_without_equals (line : string) :
  contains "=" line = false -> raises (from_string line) ValueError.
Proof. exact (from_string_no_equals line). Qed.

(** X2. The blanks around the name and around the fields of a line do not
    matter: two lines whose names and fields agree once stripped are read as
    the same definition, or fail the same way. *)
Theorem from_string_ignores_blanks (name0 name1 : string)
    (tokens0 tokens1 : list string) :
  contains "=" name0 = false -> contains "=" name1 = false ->
  Forall (fun t => contains "=" t = false) tokens0 ->
  Forall (fun t => contains "=" t = false) tokens1 ->
  tokens0 <> [] ->
  strip name0 = strip name1 ->
  map strip tokens0 = map strip tokens1 ->
  from_string (name0 +:+ "=" +:+ join "=" tokens0)
  = from_string (name1 +:+ "=" +:+ join "=" tokens1).
Proof.
  intros H0 H1 Ht0 Ht1 Hne Hname Htoks.
  assert (Hne1 : tokens1 <> []).
  { intros ->. destruct tokens0; [contradiction|discriminate]. }
  rewrite (from_string_fields name0 tokens0 H0 Hne Ht0).
  rewrite (from_string_fields name1 tokens1 H1 Hne1 Ht1).
  cbv zeta. rewrite Hname, Htoks. reflexivity.
Qed.

(** X3. A dimension definition built from a string is a base dimension
    exactly when the parsed reference has no key; with keys that are all
    dimension names it is a derived dimension; with any other key the
    initialiser raises ValueError. It stores the parsed reference and never
    a converter, so asking it whether it is multiplicative raises
    AttributeError. *)
Theorem DimensionDefinition_is_base name symbol aliases value r b ph :
  ParserHelper_from_string value = Ok ph ->
  let ks := keys (units ph) in
  let made := DimensionDefinition_init name symbol aliases (FromStr value) r b in
  (units ph = [] ->
     exists d, made = Ok d /\ dimension_is_base d = true
               /\ dimension_reference d = Some []
               /\ raises (Definition_is_multiplicative d) AttributeError)
  /\ (units ph <> [] -> forallb _is_dim ks = true ->
        exists d, made = Ok d /\ dimension_is_base d = false
                  /\ dimension_reference d = Some (units ph)
                  /\ raises (Definition_is_multiplicative d) AttributeError)
  /\ (forallb _is_dim ks = false -> raises made ValueError).
Proof.
  intros Hp ks made. subst made ks. unfold DimensionDefinition_init.
  rewrite Hp. simpl. split; [|split].
  - intros ->. simpl. eexists. repeat split. eexists. reflexivity.
  - intros Hne Hall. destruct (units ph) as [|kv rest] eqn:Hu; [contradiction|].
    rewrite Hall. simpl. eexists. repeat split. eexists. reflexivity.
  - intros Hall. destruct (units ph) as [|kv rest] eqn:Hu; [discriminate|].
    rewrite Hall. simpl. eexists. reflexivity.
Qed.

(** X4. Whatever line a prefix definition is read from, its stored name
    does not end with a dash, and neither its symbol nor any of its aliases
    starts or ends with one. *)
Theorem prefix_has_no_dashes (line : string) (p : PrefixDefinition) :
  from_string line = Ok (APrefix p) ->
  endswith "-" (_name p) = false
  /\ (forall s, _symbol p = Some s ->
        startswith "-" s = false /\ endswith "-" s = false)
  /\ Forall (fun a => startswith "-" a = false /\ endswith "-" a = false)
       (_aliases p).
Proof.
  intros H.
  assert (Hstrip : forall s, startswith "-" (strip_chars "-" s) = false
                             /\ endswith "-" (strip_chars "-" s) = false).
  { intros s. destruct (strip_chars_ends "-" s "-"%char) as [Hf Hl].
    split.
    - destruct (startswith "-" (strip_chars "-" s)) eqn:E; [|reflexivity].
      apply startswith_char in E. apply Hf in E. discriminate.
    - destruct (endswith "-" (strip_chars "-" s)) eqn:E; [|reflexivity].
      apply endswith_char in E. apply Hl in E. discriminate. }
  destruct (from_string_ok_fields _ _ H) as (name0 & tokens & -> & Hn & Hne & Hall).
  rewrite (from_string_fields name0 tokens Hn Hne Hall) in H. cbv zeta in H.
  destruct (startswith "@alias " (strip name0)); [discriminate|].
  destruct (startswith "[" (strip name0)).
  { apply fmap_ok in H as (d & _ & Hd). discriminate. }
  destruct (endswith "-" (strip name0)).
  2:{ apply fmap_ok in H as (d & _ & Hd). discriminate. }
  apply fmap_ok in H as (q & Hq & [= ->]).
  apply PrefixDefinition_init_stores in Hq as (Hname & Hsym & Hal).
  split; [|split].
  - rewrite Hname.
    destruct (endswith "-" (rstrip_chars "-" (strip name0))) eqn:E; [|reflexivity].
    apply endswith_char in E. apply rstrip_by_last in E. discriminate.
  - intros s Hs. rewrite Hsym in Hs.
    destruct (symbol_of _) as [s0|]; [|discriminate].
    destruct (truthy s0) eqn:Ht; injection Hs as <-; [apply Hstrip|].
    unfold truthy, ne in Ht. apply negb_false_iff, String.eqb_eq in Ht. subst s0.
    split; reflexivity.
  - rewrite Hal. apply List.Forall_forall. intros a Ha.
    apply in_map_iff in Ha as (a0 & <- & _). apply Hstrip.
Qed.

(** X5. Of the definitions [from_string] reads, only prefixes and units
    have a converter: a prefix is always multiplicative, a unit answers the
    flag of its converter, and asking a dimension or an alias raises
    AttributeError. *)
Theorem is_multiplicative_by_kind (line : string) (i : instance) :
  from_string line = Ok i ->
  match i with
  | APrefix p => Definition_is_multiplicative p = Ok true
  | AUnit u => exists flag, Definition_is_multiplicative u = Ok flag
  | ADimension d => raises (Definition_is_multiplicative d) AttributeError
  | AnAlias a => raises (Definition_is_multiplicative a) AttributeError
  end.
Proof.
  intros H.
  destruct (from_string_ok_fields _ _ H) as (name0 & tokens & -> & Hn & Hne & Hall).
  rewrite (from_string_fields name0 tokens Hn Hne Hall) in H. cbv zeta in H.
  destruct (startswith "@alias " (strip name0)).
  { injection H as <-. eexists. reflexivity. }
  destruct (startswith "[" (strip name0)).
  { apply fmap_ok in H as (d & Hd & ->).
    apply DimensionDefinition_init_converter in Hd.
    unfold Definition_is_multiplicative. rewrite Hd. eexists. reflexivity. }
  destruct (endswith "-" (strip name0)).
  { apply fmap_ok in H as (p & Hp & ->).
    apply PrefixDefinition_init_converter in Hp as (x & _ & Hc).
    unfold Definition_is_multiplicative. rewrite Hc. reflexivity. }
  apply fmap_ok in H as (u & Hu & ->).
  apply UnitDefinition_init_converter in Hu as (c & Hc).
  unfold Definition_is_multiplicative. rewrite Hc. eexists. reflexivity.
Qed.

(** X6. A unit value with two semicolons or more is rejected with
    ValueError before anything is parsed: the text is cut into at most three
    parts and exactly two are expected. *)
Theorem UnitDefinition_two_semicolons name symbol aliases r b expr rest :
  contains ";" expr = false ->
  contains ";" rest = true ->
  raises (UnitDefinition_init name symbol aliases
            (FromStr (expr +:+ ";" +:+ rest)) r b) ValueError.
Proof.
  intros He Hr. destruct (contains_cut _ _ Hr) as (m & tail & -> & Hm).
  unfold UnitDefinition_init, split_modifiers.
  change (expr +:+ ";" +:+ m +:+ String ";" tail)
    with (expr +:+ String ";" (m +:+ String ";" tail)).
  assert (Hc : contains ";" (expr +:+ String ";" (m +:+ String ";" tail)) = true).
  { rewrite contains_app. simpl. apply orb_true_r. }
  rewrite Hc, split_max_2 by assumption. simpl. eexists. reflexivity.
Qed.

(** X7. The text after the semicolon must be one [key: value] pair: without
    a colon, and with two colons or more, the initialiser raises ValueError
    and nothing is evaluated or parsed. *)
Theorem UnitDefinition_modifier_needs_one_colon name symbol aliases r b expr modifier :
  contains ";" expr = false ->
  contains ";" modifier = false ->
  (contains ":" modifier = false ->
     raises (UnitDefinition_init name symbol aliases
               (FromStr (expr +:+ ";" +:+ modifier)) r b) ValueError)
  /\ (forall key value more,
        modifier = key +:+ ":" +:+ value +:+ ":" +:+ more ->
        contains ":" key = false -> contains ":" value = false ->
        raises (UnitDefinition_init name symbol aliases
                  (FromStr (expr +:+ ";" +:+ modifier)) r b) ValueError).
Proof.
  intros He Hm.
  assert (Hsplit : split_modifiers (expr +:+ ";" +:+ modifier)
                   = (modifiers ← modifiers_dict [modifier] ∅; Ok (expr, modifiers))).
  { unfold split_modifiers.
    change (expr +:+ ";" +:+ modifier) with (expr +:+ String ";" modifier).
    assert (Hc : contains ";" (expr +:+ String ";" modifier) = true).
    { rewrite contains_app. simpl. apply orb_true_r. }
    rewrite Hc, split_max_app by exact He.
    rewrite split_max_no_sep, split_no_sep by exact Hm. reflexivity. }
  split.
  - intros Hcolon. unfold UnitDefinition_init. rewrite Hsplit. simpl.
    rewrite split_no_sep by exact Hcolon. simpl. eexists. reflexivity.
  - intros key value more -> Hk Hv. unfold UnitDefinition_init. rewrite Hsplit. simpl.
    change (key +:+ ":" +:+ value +:+ ":" +:+ more)
      with (key +:+ String ":" (value +:+ String ":" more)).
    rewrite split_app by exact Hk. rewrite split_app by exact Hv.
    pose proof (split_ne_nil ":" more) as Hnil.
    destruct (split ":" more) as [|w ws]; [contradiction|]. simpl.
    eexists. reflexivity.
Qed.

(** X8. Only the modifier named [offset] selects the converter: with any
    other key the number is evaluated and then ignored, and the unit gets the
    ScaleConverter, however large the number. *)
Theorem UnitDefinition_other_modifier name symbol aliases r b expr key num ph x :
  contains ";" expr = false ->
  contains ";" key = false -> contains ":" key = false ->
  contains ";" num = false -> contains ":" num = false ->
  strip key <> "offset" ->
  eval num = Ok x ->
  ParserHelper_from_string expr = Ok ph ->
  mixed (keys (units ph)) = false ->
  exists u,
    UnitDefinition_init name symbol aliases
      (FromStr (expr +:+ ";" +:+ key +:+ ":" +:+ num)) r b = Ok u
    /\ _converter u = Some (ScaleConverter (scale ph))
    /\ Definition_is_multiplicative u = Ok true.
Proof.
  intros He Hk1 Hk2 Hn1 Hn2 Hkey Hv Hp Hmix.
  pose proof (split_modifiers_one expr key num x He Hk1 Hk2 Hn1 Hn2 Hv) as Hm.
  rewrite (UnitDefinition_init_consistent _ _ _ _ _ _ _ _ _ Hm Hp Hmix).
  rewrite lookup_singleton_ne by exact Hkey. simpl.
  eexists. repeat split.
Qed.



End Definitions.

(* --------------------------------------------------------------------- *)
(** *** Definition lines read with the parser modelled above *)

Definition parse_line : string -> result instance :=
  from_string parser.from_string parser._is_dim parser.eval.

Definition make_unit :=
  UnitDefinition_init parser.from_string parser._is_dim parser.eval.

Example parse_line_meter :
  parse_line "meter = [length] = m = metre"
  = Ok (AUnit {| unit_super := Definition_init "meter" (Some "m") ["metre"]
                                 (Some (ScaleConverter 1));
                 reference := Some [("[length]", 1%Q)];
                 is_base := true |}).
Proof. vm_compute. reflexivity. Qed.

Example parse_line_mixed :
  raises (parse_line "bad = [length] * meter") ValueError.
Proof. eexists. vm_compute. reflexivity. Qed.

Example parse_line_dimension :
  parse_line "[speed] = [length] / [time]"
  = Ok (ADimension {| dimension_super := Definition_init "[speed]" None [] None;
                      dimension_reference :=
                        Some [("[length]", 1%Q); ("[time]", (-1)%Q)];
                      dimension_is_base := false |}).
Proof. vm_compute. reflexivity. Qed.

Example parse_line_alias :
  parse_line "@alias meter = metro = _"
  = Ok (AnAlias (AliasDefinition_init "meter" ["metro"; "_"])).
Proof. vm_compute. reflexivity. Qed.

(** C1, where the claim fails: the reference of [dozen = 12] is empty, and
    the definition is not a base unit. *)
Lemma is_base_of_empty_reference :
  exists u, parse_line "dozen = 12" = Ok (AUnit u)
            /\ reference u = Some [] /\ is_base u = false.
Proof. eexists. split; [vm_compute; reflexivity|]. split; reflexivity. Qed.

Lemma UnitDefinition_is_base_witness :
  exists u, make_unit "meter" (Some "m") ["metre"] (FromStr "[length]") None false = Ok u
            /\ is_base u = true /\ reference u = Some [("[length]", 1%Q)].
Proof.
  destruct (UnitDefinition_is_base parser.from_string parser._is_dim parser.eval
              "meter" (Some "m") ["metre"] "[length]" None false "[length]" ∅
              {| scale := 1; units := [("[length]", 1%Q)] |} eq_refl eq_refl)
    as (_ & H & _).
  apply H; [discriminate|reflexivity].
Defined.

(** C3, where the claim fails: an offset modifier of zero gives a
    ScaleConverter, and the definition is multiplicative. *)
Lemma offset_zero_is_scale_converter :
  exists u, parse_line "degX = kelvin; offset: 0" = Ok (AUnit u)
            /\ _converter u = Some (ScaleConverter 1)
            /\ Definition_is_multiplicative u = Ok true.
Proof. eexists. split; [vm_compute; reflexivity|]. split; reflexivity. Qed.

Lemma UnitDefinition_offset_converter_witness :
  exists u, make_unit "degC" (Some "C") ["celsius"]
              (FromStr "kelvin; offset: 273.15") None false = Ok u
            /\ _converter u = Some (OffsetConverter 1 (5463 # 20))
            /\ Definition_is_multiplicative u = Ok false.
Proof.
  destruct (UnitDefinition_offset_converter parser.from_string parser._is_dim
              parser.eval "degC" (Some "C") ["celsius"] None false
              "kelvin" " offset" " 273.15"
              {| scale := 1; units := [("kelvin", 1%Q)] |} (5463 # 20)
              eq_refl eq_refl eq_refl eq_refl eq_refl eq_refl eq_refl eq_refl eq_refl)
    as (H & _).
  exact H.
Defined.

Lemma from_string_dispatch_witness :
  parse_line "kilo- = 1e3 = k-"
  = Ok (APrefix {| prefix_super := Definition_init "kilo" (Some "k") []
                                     (Some (ScaleConverter 1000)) |}).
Proof.
  refine (proj1 (from_string_dispatch parser.from_string parser._is_dim parser.eval
                   "kilo- " [" 1e3 "; " k-"] eq_refl _ _)).
  - discriminate.
  - repeat constructor.
Defined.

(** C9, where the claim fails: the prefix line [kilo- = 1e3 = -] gives a
    symbol, a dash, and the definition answers its name and has no symbol;
    the symbol [k-] of [kilo- = 1e3 = k-] is answered as [k]. *)
Lemma prefix_symbol_of_dashes :
  (exists p, parse_line "kilo- = 1e3 = -" = Ok (APrefix p)
             /\ symbol p = "kilo" /\ has_symbol p = false)
  /\ (exists p, parse_line "kilo- = 1e3 = k-" = Ok (APrefix p)
                /\ symbol p = "k" /\ has_symbol p = true).
Proof.
  split; eexists; (split; [vm_compute; reflexivity|]); split; reflexivity.
Qed.

(** C4, where the claim fails: the first field after the value of
    [x = 1 = = y] is empty, and the symbol is the next field. *)
Lemma symbol_skips_empty_field :
  exists u, parse_line "x = 1 = = y" = Ok (AUnit u)
            /\ _symbol u = Some "y" /\ _aliases u = [].
Proof. eexists. split; [vm_compute; reflexivity|]. split; reflexivity. Qed.

Lemma from_string_symbol_and_aliases_witness :
  let u := {| unit_super := Definition_init "x" None ["y"; "z"]
                              (Some (ScaleConverter 1));
              reference := Some [("meter", 1%Q)]; is_base := false |} in
  parse_line "x = meter = _ = y = _ = z" = Ok (AUnit u)
  /\ _symbol u = None /\ _aliases u = ["y"; "z"].
Proof.
  intros u. split; [vm_compute; reflexivity|].
  refine (from_string_symbol_and_aliases parser.from_string parser._is_dim
            parser.eval "x " " meter " [" _ "; " y "; " _ "; " z"] (AUnit u)
            eq_refl _ eq_refl eq_refl).
  repeat constructor.
Defined.

(* --------------------------------------------------------------------- *)
(** *** The further properties on lines of a definitions file *)

Definition make_dimension :=
  DimensionDefinition_init parser.from_string parser._is_dim.

Lemma from_string_without_equals_witness :
  raises (parse_line "kilometer 1000 meter") ValueError.
Proof.
  exact (from_string_without_equals parser.from_string parser._is_dim parser.eval
           "kilometer 1000 meter" eq_refl).
Defined.

Lemma from_string_ignores_blanks_witness :
  parse_line "meter=[length]=m" = parse_line "  meter =  [length]   = m ".
Proof.
  refine (from_string_ignores_blanks parser.from_string parser._is_dim parser.eval
            "meter" "  meter " ["[length]"; "m"] ["  [length]   "; " m "]
            eq_refl eq_refl _ _ _ eq_refl eq_refl).
  - repeat constructor.
  - repeat constructor.
  - discriminate.
Defined.

Lemma DimensionDefinition_is_base_witness :
  exists d, make_dimension "[speed]" None [] (FromStr "[length] / [time]") None false = Ok d
            /\ dimension_is_base d = false
            /\ raises (Definition_is_multiplicative d) AttributeError.
Proof.
  destruct (DimensionDefinition_is_base parser.from_string parser._is_dim
              "[speed]" None [] "[length] / [time]" None false
              {| scale := 1; units := [("[length]", 1%Q); ("[time]", (-1)%Q)] |}
              eq_refl) as (_ & H & _).
  destruct (H ltac:(discriminate) eq_refl) as (d & Hd & Hb & _ & Hm).
  exists d. repeat split; assumption.
Defined.

Lemma prefix_has_no_dashes_witness :
  let p := {| prefix_super := Definition_init "kilo" (Some "k") ["kk"]
                                (Some (ScaleConverter 1000)) |} in
  parse_line "kilo-- = 1e3 = -k- = --kk-" = Ok (APrefix p)
  /\ endswith "-" (_name p) = false.
Proof.
  intros p.
  assert (H : parse_line "kilo-- = 1e3 = -k- = --kk-" = Ok (APrefix p))
    by (vm_compute; reflexivity).
  split; [exact H|].
  exact (proj1 (prefix_has_no_dashes parser.from_string parser._is_dim parser.eval
                  "kilo-- = 1e3 = -k- = --kk-" p H)).
Defined.

Lemma is_multiplicative_by_kind_witness :
  exists d, parse_line "[speed] = [length] / [time]" = Ok (ADimension d)
            /\ raises (Definition_is_multiplicative d) AttributeError.
Proof.
  set (d := {| dimension_super := Definition_init "[speed]" None [] None;
               dimension_reference := Some [("[length]", 1%Q); ("[time]", (-1)%Q)];
               dimension_is_base := false |}).
  assert (H : parse_line "[speed] = [length] / [time]" = Ok (ADimension d))
    by (vm_compute; reflexivity).
  exists d. split; [exact H|].
  exact (is_multiplicative_by_kind parser.from_string parser._is_dim parser.eval
           "[speed] = [length] / [time]" (ADimension d) H).
Defined.

Lemma UnitDefinition_two_semicolons_witness :
  raises (make_unit "degC" None [] (FromStr "kelvin; offset: 273.15; scale: 2")
            None false) ValueError.
Proof.
  exact (UnitDefinition_two_semicolons parser.from_string parser._is_dim parser.eval
           "degC" None [] None false "kelvin" " offset: 273.15; scale: 2"
           eq_refl eq_refl).
Defined.

Lemma UnitDefinition_modifier_needs_one_colon_witness :
  raises (make_unit "degC" None [] (FromStr "kelvin; offset 273.15") None false)
    ValueError.
Proof.
  exact (proj1 (UnitDefinition_modifier_needs_one_colon parser.from_string
                  parser._is_dim parser.eval "degC" None [] None false
                  "kelvin" " offset 273.15" eq_refl eq_refl) eq_refl).
Defined.

Lemma UnitDefinition_other_modifier_witness :
  exists u, make_unit "degC" None [] (FromStr "kelvin; shift: 273.15") None false = Ok u
            /\ _converter u = Some (ScaleConverter 1).
Proof.
  destruct (UnitDefinition_other_modifier parser.from_string parser._is_dim
              parser.eval "degC" None [] None false "kelvin" " shift" " 273.15"
              {| scale := 1; units := [("kelvin", 1%Q)] |} (5463 # 20)
              eq_refl eq_refl eq_refl eq_refl eq_refl ltac:(discriminate)
              eq_refl eq_refl eq_refl) as (u & Hu & Hc & _).
  exists u. split; assumption.
Defined.

End definitions.

(* ===================================================================== *)
(** ** pint.registry_helpers *)
(* ===================================================================== *)

Module registry_helpers.
Import pystr.

(** What a caller may declare as the units of a parameter or of the
    result: None, a string, or a container. *)
Inductive unit_like :=
| UNone
| UStr (s : string)
| UContainer (u : UnitsContainer).

(** The declared units of [wraps]: one value, or a list or tuple of them. *)
Inductive unit_spec :=
| Single (u : unit_like)
| Several (us : list unit_like).

(** The values a wrapped function is called with and returns: None, a bare
    number, a quantity (an instance of the Quantity class of the registry
    numbered [cls]), or a tuple. *)
#[warnings="-register-all"]
Inductive pyvalue :=
| PNone
| Number (x : Q)
| Quantity (cls : nat) (_magnitude : Q) (_units : UnitsContainer)
| Seq (items : list pyvalue).

(** The registry, as far as the helpers use it: the identity of its
    Quantity class, its [_convert] method, and what its Quantity class makes
    of a value that is not a bare number. *)
Record Registry := {
  registry_id : nat;
  _convert : pyvalue -> UnitsContainer -> UnitsContainer -> result pyvalue;
  Quantity_of_other : pyvalue -> UnitsContainer -> result pyvalue
}.

(** [isinstance(v, ureg.Quantity)] *)
Definition is_Quantity (ureg : Registry) (v : pyvalue) : bool :=
  match v with
  | Quantity cls _ _ => Nat.eqb cls (registry_id ureg)
  | _ => false
  end.

(** Modelled from the spec: quantity.py is not part of the sources. The
    registry builds a quantity from a magnitude and a container; a bare
    number becomes a quantity of the registry with that magnitude and those
    units. *)
Definition new_Quantity (ureg : Registry) (value : pyvalue) (units : UnitsContainer)
    : result pyvalue :=
  match value with
  | Number x => Ok (Quantity (registry_id ureg) x units)
  | other => Quantity_of_other ureg other units
  end.

(** [getattr(value, "_magnitude", value)] *)
Definition magnitude_or_self (value : pyvalue) : pyvalue :=
  match value with
  | Quantity _ m _ => Number m
  | _ => value
  end.

(** [getattr(value, "_units", UnitsContainer({}))] *)
Definition units_or_empty (value : pyvalue) : UnitsContainer :=
  match value with
  | Quantity _ _ u => u
  | _ => []
  end.

(** A wrapped function: its parameters (name and default, in order) and
    what a call with positional arguments returns. Every parameter is
    positional-or-keyword, as in [def f(x, y=1)]: a signature with a starred
    parameter or a keyword-only parameter is not a [pyfunction], and nothing
    below is stated of one. *)
Record pyfunction := {
  parameters : list (string * option pyvalue);
  call : list pyvalue -> result pyvalue
}.

(** An element of [args_as_uc]: what [_to_units_container] returned, or
    the name that a defining argument is replaced by. *)
Inductive entry :=
| Units (arg : option UnitsContainer)
| Name (key : string).

(** The variables of [_parse_wrap_args] that [_converter] closes over.
    Each index set is named by the list of its members in the order they
    were added; the order in which a loop visits the members is another
    matter, see [visit] below. *)
Record wrap_args := {
  defs_args : gset string;
  defs_args_ndx : list nat;
  dependent_args_ndx : list nat;
  unit_args_ndx : list nat;
  args_as_uc : list (entry * bool)
}.

Definition add_definition (st : wrap_args) (ndx : nat) (key : string) : wrap_args :=
  {| defs_args := {[ key ]} ∪ defs_args st;
     defs_args_ndx := defs_args_ndx st ++ [ndx];
     dependent_args_ndx := dependent_args_ndx st;
     unit_args_ndx := unit_args_ndx st;
     args_as_uc := <[ ndx := (Name key, true) ]> (args_as_uc st) |}.

Definition add_dependent (st : wrap_args) (ndx : nat) : wrap_args :=
  {| defs_args := defs_args st;
     defs_args_ndx := defs_args_ndx st;
     dependent_args_ndx := dependent_args_ndx st ++ [ndx];
     unit_args_ndx := unit_args_ndx st;
     args_as_uc := args_as_uc st |}.

Definition add_unit (st : wrap_args) (ndx : nat) : wrap_args :=
  {| defs_args := defs_args st;
     defs_args_ndx := defs_args_ndx st;
     dependent_args_ndx := dependent_args_ndx st;
     unit_args_ndx := unit_args_ndx st ++ [ndx];
     args_as_uc := args_as_uc st |}.

(** The body of the first loop of [_parse_wrap_args], for one
    [(arg, is_ref)] at index [ndx]. *)
Definition classify (st : wrap_args) (ndx : nat)
    (item : option UnitsContainer * bool) : wrap_args :=
  match item with
  | (None, _) => st
  | (Some arg, true) =>
      match arg with
      | [(key, value)] =>
          if Qeq_bool value 1 && bool_decide (key ∉ defs_args st)
          then add_definition st ndx key
          else add_dependent st ndx
      | _ => add_dependent st ndx
      end
  | (Some _, false) => add_unit st ndx
  end.

(** The first loop, over [enumerate(args_as_uc)] from index [ndx] on. *)
Fixpoint classify_from (ndx : nat) (items : list (option UnitsContainer * bool))
    (st : wrap_args) : wrap_args :=
  match items with
  | [] => st
  | item :: rest => classify_from (S ndx) rest (classify st ndx item)
  end.

(** [sig.bind] on the positional and keyword arguments, for a function whose
    parameters are all positional-or-keyword. *)
Fixpoint bind_positional (params : list (string * option pyvalue))
    (args : list pyvalue) (bound : gmap string pyvalue)
    : result (gmap string pyvalue) :=
  match args, params with
  | [], _ => Ok bound
  | _ :: _, [] => Raise TypeError "too many positional arguments"
  | a :: args, (p, _) :: params => bind_positional params args (<[ p := a ]> bound)
  end.

Fixpoint bind_keywords (params : list (string * option pyvalue))
    (kwargs : list (string * pyvalue)) (bound : gmap string pyvalue)
    : result (gmap string pyvalue) :=
  match kwargs with
  | [] => Ok bound
  | (k, v) :: kwargs =>
      if negb (existsb (String.eqb k) (map fst params))
      then Raise TypeError "got an unexpected keyword argument"
      else match bound !! k with
           | Some _ => Raise TypeError "multiple values for argument"
           | None => bind_keywords params kwargs (<[ k := v ]> bound)
           end
  end.

Fixpoint check_required (params : list (string * option pyvalue))
    (bound : gmap string pyvalue) : result unit :=
  match params with
  | [] => Ok tt
  | (p, default) :: params =>
      match bound !! p, default with
      | None, None => Raise TypeError "missing a required argument"
      | _, _ => check_required params bound
      end
  end.

Definition sig_bind (params : list (string * option pyvalue))
    (args : list pyvalue) (kwargs : list (string * pyvalue))
    : result (gmap string pyvalue) :=
  bound ← bind_positional params args ∅;
  bound ← bind_keywords params kwargs bound;
  _ ← check_required params bound;
  Ok bound.

(** [_apply_defaults]: every parameter gets its bound value or its
    default, in the order of the signature; the keyword dict comes back
    empty. *)
Definition _apply_defaults (func : pyfunction) (args : list pyvalue)
    (kwargs : list (string * pyvalue))
    : result (list pyvalue * list (string * pyvalue)) :=
  bound_arguments ← sig_bind (parameters func) args kwargs;
  let args :=
    map (fun param : string * option pyvalue =>
           match bound_arguments !! fst param with
           | Some v => v
           | None => default PNone (snd param)
           end) (parameters func) in
  Ok (args, []).

Section Helpers.

(** [to_units_container] of pint.util, the product and the power of two
    values as [_replace_units] forms them, and whether a units container is
    an instance of dict; none of them is part of the sources at hand. *)
Variable to_units_container : unit_like -> option Registry -> result (option UnitsContainer).
Variable value_mul : pyvalue -> pyvalue -> result pyvalue.
Variable value_pow : pyvalue -> Q -> result pyvalue.
Variable UnitsContainer_is_dict : bool.

(** The index sets are Python sets, and the order in which a [for] loop
    visits the members of a set is left open by the language (CPython visits
    the set made of 1 and then 8 as 8, 1). [visit] is that order, for the set
    whose members were added in the order of the list; all that is known of
    it is that every member is visited once. *)
Variable visit : list nat -> list nat.
Hypothesis visit_all : forall l, Permutation (visit l) l.

Lemma visit_In (l : list nat) (j : nat) : In j (visit l) <-> In j l.
Proof.
  split; apply Permutation_in; [apply visit_all|apply Permutation_sym, visit_all].
Qed.

Lemma visit_nil : visit [] = [].
Proof. apply Permutation_nil, Permutation_sym, visit_all. Qed.

Lemma visit_singleton (j : nat) : visit [j] = [j].
Proof. apply Permutation_length_1_inv, Permutation_sym, visit_all. Qed.

(** [_replace_units] *)
Fixpoint replace_units_loop (items : UnitsContainer)
    (values_by_name : gmap string pyvalue) (q : pyvalue) : result pyvalue :=
  match items with
  | [] => Ok q
  | (arg_name, exponent) :: rest =>
      match values_by_name !! arg_name with
      | None => Raise KeyError arg_name
      | Some v =>
          p ← value_pow v exponent;
          q ← value_mul q p;
          replace_units_loop rest values_by_name q
      end
  end.

Definition _replace_units (original_units : UnitsContainer)
    (values_by_name : gmap string pyvalue) : result UnitsContainer :=
  q ← replace_units_loop original_units values_by_name (Number 1);
  Ok (units_or_empty q).

(** [_to_units_container] *)
Definition _to_units_container (a : unit_like) (registry : option Registry)
    : result (option UnitsContainer * bool) :=
  match a with
  | UStr s =>
      if contains "=" s then
        match split_max "=" 1 s with
        | [_; r] => u ← to_units_container (UStr r) None; Ok (u, true)
        | _ => Raise IndexError "list index out of range"
        end
      else u ← to_units_container a registry; Ok (u, false)
  | _ => u ← to_units_container a registry; Ok (u, false)
  end.

(** [[f(x) for x in l]], stopping at the first exception. *)
Fixpoint for_each {A B} (f : A -> result B) (l : list A) : result (list B) :=
  match l with
  | [] => Ok []
  | x :: rest => y ← f x; ys ← for_each f rest; Ok (y :: ys)
  end.

(** The second loop of [_parse_wrap_args]: every dependent argument
    refers to defined names only. *)
Fixpoint check_dependent (st : wrap_args) (ndxs : list nat) : result unit :=
  match ndxs with
  | [] => Ok tt
  | ndx :: rest =>
      match args_as_uc st !! ndx with
      | None => Raise IndexError "list index out of range"
      | Some (Units (Some arg), _) =>
          if negb UnitsContainer_is_dict then check_dependent st rest
          else if negb (forallb (fun k => bool_decide (k ∈ defs_args st)) (keys arg))
          then Raise ValueError "Found a missing token while wrapping a function"
          else check_dependent st rest
      | Some _ => check_dependent st rest
      end
  end.

(** [_parse_wrap_args], up to the closure it returns. *)
Definition _parse_wrap_args (args : list unit_like) (registry : option Registry)
    : result wrap_args :=
  parsed ← for_each (fun arg => _to_units_container arg registry) args;
  let st := classify_from 0 parsed
              {| defs_args := ∅; defs_args_ndx := []; dependent_args_ndx := [];
                 unit_args_ndx := [];
                 args_as_uc := map (fun item => (Units (fst item), snd item)) parsed |} in
  _ ← check_dependent st (visit (dependent_args_ndx st));
  Ok st.

(** The first pass of [_converter]: grab the named values. *)
Fixpoint grab_named (st : wrap_args) (values : list pyvalue) (ndxs : list nat)
    (acc : list pyvalue * gmap string pyvalue)
    : result (list pyvalue * gmap string pyvalue) :=
  match ndxs with
  | [] => Ok acc
  | ndx :: rest =>
      match values !! ndx with
      | None => Raise IndexError "list index out of range"
      | Some value =>
          match args_as_uc st !! ndx with
          | Some (Name key, _) =>
              grab_named st values rest
                (<[ ndx := magnitude_or_self value ]> (fst acc),
                 <[ key := value ]> (snd acc))
          | Some (Units _, _) => Raise TypeError "unhashable type"
          | None => Raise IndexError "list index out of range"
          end
      end
  end.

(** The second pass: convert the dependent arguments to the units their
    template gives with the named values. *)
Fixpoint convert_dependent (st : wrap_args) (ureg : Registry)
    (values : list pyvalue) (values_by_name : gmap string pyvalue)
    (ndxs : list nat) (new_values : list pyvalue) : result (list pyvalue) :=
  match ndxs with
  | [] => Ok new_values
  | ndx :: rest =>
      match values !! ndx with
      | None => Raise IndexError "list index out of range"
      | Some value =>
          match args_as_uc st !! ndx with
          | Some (Units (Some template), _) =>
              _ ← _replace_units template values_by_name;
              dst ← _replace_units template values_by_name;
              v ← _convert ureg (magnitude_or_self value) (units_or_empty value) dst;
              convert_dependent st ureg values values_by_name rest
                (<[ ndx := v ]> new_values)
          | Some _ => Raise AttributeError "object has no attribute 'items'"
          | None => Raise IndexError "list index out of range"
          end
      end
  end.

(** The third pass: convert the other arguments that have units. *)
Fixpoint convert_units (st : wrap_args) (ureg : Registry) (strict : bool)
    (values : list pyvalue) (ndxs : list nat) (new_values : list pyvalue)
    : result (list pyvalue) :=
  match ndxs with
  | [] => Ok new_values
  | ndx :: rest =>
      match values !! ndx with
      | None => Raise IndexError "list index out of range"
      | Some value =>
          if is_Quantity ureg value then
            match args_as_uc st !! ndx with
            | Some (Units (Some dst), _) =>
                v ← _convert ureg (magnitude_or_self value) (units_or_empty value) dst;
                convert_units st ureg strict values rest (<[ ndx := v ]> new_values)
            | Some _ => Raise TypeError "not a units container"
            | None => Raise IndexError "list index out of range"
            end
          else if strict then
            Raise ValueError
              ("A wrapped function using strict=True requires "
               +:+ "quantity for all arguments with not None units.")
          else convert_units st ureg strict values rest new_values
      end
  end.

(** The first two passes of [_converter]. *)
Definition first_passes (st : wrap_args) (ureg : Registry) (values : list pyvalue)
    : result (list pyvalue * gmap string pyvalue) :=
  '(new_values, values_by_name) ←
    grab_named st values (visit (defs_args_ndx st)) (values, ∅);
  new_values ← convert_dependent st ureg values values_by_name
                  (visit (dependent_args_ndx st)) new_values;
  Ok (new_values, values_by_name).

(** [_converter], the closure [_parse_wrap_args] returns. *)
Definition _converter (st : wrap_args) (ureg : Registry) (values : list pyvalue)
    (strict : bool) : result (list pyvalue * gmap string pyvalue) :=
  '(new_values, values_by_name) ← first_passes st ureg values;
  new_values ← convert_units st ureg strict values
                  (visit (unit_args_ndx st)) new_values;
  Ok (new_values, values_by_name).

(** The declared result units after [wraps] has read them. *)
Inductive ret_units :=
| RetOne (ret : option UnitsContainer * bool)
| RetSeveral (ret : list (option UnitsContainer * bool)).

(** [itertools.zip_longest]: the shorter list is filled up with None. *)
Fixpoint zip_longest {A B} (l : list A) (r : list B) : list (option A * option B) :=
  match l, r with
  | [], r => map (fun b => (None, Some b)) r
  | l, [] => map (fun a => (Some a, None)) l
  | a :: l, b :: r => (Some a, Some b) :: zip_longest l r
  end.

(** The units of one declared result: a back-reference is replaced with
    the named values. *)
Definition out_unit (values_by_name : gmap string pyvalue)
    (r : option UnitsContainer * bool) : result (option UnitsContainer) :=
  match r with
  | (Some u, true) => u' ← _replace_units u values_by_name; Ok (Some u')
  | (None, true) => Raise AttributeError "'NoneType' object has no attribute 'items'"
  | (u, false) => Ok u
  end.

(** The end of [wrapper]: the units are attached to what the wrapped
    function returned. *)
Definition attach_units (ureg : Registry) (ret : ret_units)
    (values_by_name : gmap string pyvalue) (result : pyvalue) : py.result pyvalue :=
  match ret with
  | RetSeveral ret =>
      match result with
      | Seq results =>
          items ← for_each
                    (fun pair : option (option UnitsContainer * bool) * option pyvalue =>
                       unit ← match fst pair with
                              | Some r => out_unit values_by_name r
                              | None => Ok None
                              end;
                       let res := default PNone (snd pair) in
                       match unit with
                       | None => Ok res
                       | Some u => new_Quantity ureg res u
                       end)
                    (zip_longest ret results);
          Ok (Seq items)
      | _ => Raise TypeError "object is not iterable"
      end
  | RetOne (None, _) => Ok result
  | RetOne (Some u, is_ref) =>
      units ← (if is_ref then _replace_units u values_by_name else Ok u);
      new_Quantity ureg result units
  end.

(** [wrapper], the function the decorator returns. *)
Definition wrapper (ureg : Registry) (ret : ret_units) (converter : wrap_args)
    (strict : bool) (func : pyfunction) (values : list pyvalue)
    (kw : list (string * pyvalue)) : result pyvalue :=
  '(values, kw) ← _apply_defaults func values kw;
  '(new_values, values_by_name) ← _converter converter ureg values strict;
  result ← call func new_values;
  attach_units ureg ret values_by_name result.

(** [wraps]: the decorator, as the function from the wrapped function to
    its wrapper. *)
Definition wraps (ureg : Registry) (ret : unit_spec) (args : unit_spec)
    (strict : bool)
    : result (pyfunction -> list pyvalue -> list (string * pyvalue) -> result pyvalue) :=
  let args := match args with Single a => [a] | Several l => l end in
  converter ← _parse_wrap_args args None;
  ret ← match ret with
        | Several l =>
            l' ← for_each (fun arg => _to_units_container arg (Some ureg)) l;
            Ok (RetSeveral l')
        | Single r =>
            r' ← _to_units_container r (Some ureg); Ok (RetOne r')
        end;
  Ok (wrapper ureg ret converter strict).

(* --------------------------------------------------------------------- *)
(** *** How the arguments are classified *)

(** The declared units as the list [_parse_wrap_args] reads. *)
Definition declared (args : unit_spec) : list unit_like :=
  match args with Single a => [a] | Several l => l end.

(** The argument at [ndx] gets through the third pass: it is there, and if
    it is a quantity then its conversion to the declared units succeeds. *)
Definition convertible (st : wrap_args) (ureg : Registry) (values : list pyvalue)
    (ndx : nat) : bool :=
  match values !! ndx with
  | None => false
  | Some value =>
      if is_Quantity ureg value then
        match args_as_uc st !! ndx with
        | Some (Units (Some dst), _) =>
            is_ok (_convert ureg (magnitude_or_self value) (units_or_empty value) dst)
        | _ => false
        end
      else true
  end.

Lemma for_each_lookup {A B} (f : A -> result B) (l : list A) (l' : list B)
    (i : nat) (a : A) :
  for_each f l = Ok l' -> l !! i = Some a ->
  exists b, f a = Ok b /\ l' !! i = Some b.
Proof.
  revert l' i. induction l as [|x l IH]; intros l' i H Hi; [discriminate|].
  simpl in H. apply bind_ok in H as (y & Hy & H).
  apply bind_ok in H as (ys & Hys & H). injection H as <-.
  destruct i as [|i]; simpl in Hi.
  - injection Hi as ->. exists y. split; [exact Hy|reflexivity].
  - destruct (IH ys i Hys Hi) as (b & Hb & Hl). exists b. split; assumption.
Qed.

Ltac classify_cases item :=
  unfold classify;
  destruct item as [[[|[? ?] [|? ?]]|] [|]];
  try match goal with
      | |- context [if ?c then _ else _] => destruct c
      | H : context [if ?c then _ else _] |- _ => destruct c
      end.

Lemma classify_unit_keeps st n item j :
  In j (unit_args_ndx st) -> In j (unit_args_ndx (classify st n item)).
Proof.
  intros H. classify_cases item; simpl; try assumption;
    apply in_or_app; left; assumption.
Qed.

Lemma classify_from_unit_keeps items n st j :
  In j (unit_args_ndx st) -> In j (unit_args_ndx (classify_from n items st)).
Proof.
  revert n st. induction items as [|item items IH]; intros n st H; simpl.
  - exact H.
  - apply IH, classify_unit_keeps, H.
Qed.

(** A plain declaration (not None, not a reference) puts its index among
    the unit arguments. *)
Lemma classify_from_unit_in items n st i u :
  items !! i = Some (Some u, false) ->
  In (n + i) (unit_args_ndx (classify_from n items st)).
Proof.
  revert n st i. induction items as [|item items IH]; intros n st i H; [discriminate|].
  destruct i as [|i]; simpl in H.
  - injection H as ->. simpl. apply classify_from_unit_keeps.
    simpl. apply in_or_app. right. rewrite Nat.add_0_r. left. reflexivity.
  - simpl. replace (n + S i) with (S n + i) by lia. apply IH, H.
Qed.

Lemma classify_refs st n item k :
  In k (defs_args_ndx (classify st n item))
  \/ In k (dependent_args_ndx (classify st n item)) ->
  In k (defs_args_ndx st) \/ In k (dependent_args_ndx st)
  \/ (k = n /\ exists u, item = (Some u, true)).
Proof.
  destruct item as [[u|] [|]]; simpl; try tauto.
  intros Hk.
  assert (Hor : In k (defs_args_ndx st) \/ In k (dependent_args_ndx st) \/ k = n).
  { revert Hk. destruct u as [|[key value] [|]];
      [|destruct (Qeq_bool value 1 && bool_decide (key ∉ defs_args st))|];
      simpl; rewrite ?in_app_iff; simpl; intuition (subst; auto). }
  destruct Hor as [?|[?| ->]]; auto.
  right; right. split; [reflexivity|]. exists u. reflexivity.
Qed.

(** Only references put an index among the defining or the dependent
    arguments. *)
Lemma classify_from_refs items n st j :
  In j (defs_args_ndx (classify_from n items st))
  \/ In j (dependent_args_ndx (classify_from n items st)) ->
  In j (defs_args_ndx st) \/ In j (dependent_args_ndx st)
  \/ exists i u, j = n + i /\ items !! i = Some (Some u, true).
Proof.
  revert n st. induction items as [|item items IH]; intros n st H; simpl in H.
  - tauto.
  - apply IH in H. destruct H as [H|[H|(i & u & -> & Hi)]].
    + destruct (classify_refs _ _ _ _ (or_introl H)) as [?|[?|(-> & u & ->)]]; auto.
      right; right. exists 0, u. split; [lia|reflexivity].
    + destruct (classify_refs _ _ _ _ (or_intror H)) as [?|[?|(-> & u & ->)]]; auto.
      right; right. exists 0, u. split; [lia|reflexivity].
    + right; right. exists (S i), u. split; [lia|exact Hi].
Qed.

(** The entry of an argument that is not a reference stays what
    [_to_units_container] made it. *)
Lemma classify_from_entry items n st j :
  (forall i u, items !! i = Some (Some u, true) -> j <> n + i) ->
  args_as_uc (classify_from n items st) !! j = args_as_uc st !! j.
Proof.
  revert n st. induction items as [|item items IH]; intros n st H; simpl.
  - reflexivity.
  - rewrite IH.
    + classify_cases item; simpl; try reflexivity.
      apply list_lookup_insert_ne. intros ->.
      eapply (H 0); [reflexivity|lia].
    + intros i u Hi. replace (S n + i) with (n + S i) by lia.
      apply (H (S i) u). exact Hi.
Qed.

(** What [_parse_wrap_args] knows about a plainly declared argument. *)
Lemma _parse_wrap_args_plain args registry st ndx a d :
  _parse_wrap_args args registry = Ok st ->
  args !! ndx = Some a ->
  _to_units_container a registry = Ok (Some d, false) ->
  In ndx (unit_args_ndx st)
  /\ ~ In ndx (defs_args_ndx st)
  /\ ~ In ndx (dependent_args_ndx st)
  /\ args_as_uc st !! ndx = Some (Units (Some d), false).
Proof.
  unfold _parse_wrap_args. intros H Ha Hd.
  apply bind_ok in H as (parsed & Hparsed & H).
  apply bind_ok in H as ([] & _ & H). injection H as <-.
  destruct (for_each_lookup _ _ _ _ _ Hparsed Ha) as (b & Hb & Hl).
  rewrite Hd in Hb. injection Hb as <-.
  assert (Hnoref : forall i u, parsed !! i = Some (Some u, true) -> ndx <> 0 + i).
  { intros i u Hi ->. simpl in Hl. rewrite Hl in Hi. discriminate. }
  repeat split.
  - apply (classify_from_unit_in parsed 0 _ ndx d Hl).
  - intros Hin. destruct (classify_from_refs _ _ _ _ (or_introl Hin))
      as [[]|[[]|(i & u & -> & Hi)]]. eapply Hnoref; eauto.
  - intros Hin. destruct (classify_from_refs _ _ _ _ (or_intror Hin))
      as [[]|[[]|(i & u & -> & Hi)]]. eapply Hnoref; eauto.
  - rewrite classify_from_entry by exact Hnoref. simpl.
    rewrite list_lookup_fmap, Hl. reflexivity.
Qed.

(* --------------------------------------------------------------------- *)
(** *** What the three passes leave in [new_values] *)

Lemma grab_named_other st values ndxs acc nv vbn :
  grab_named st values ndxs acc = Ok (nv, vbn) ->
  length nv = length (fst acc)
  /\ forall j, ~ In j ndxs -> nv !! j = fst acc !! j.
Proof.
  revert acc. induction ndxs as [|i ndxs IH]; intros acc H; simpl in H.
  - injection H as ->. split; reflexivity.
  - destruct (values !! i) as [value|]; [|discriminate].
    destruct (args_as_uc st !! i) as [[[?|key] ?]|]; try discriminate.
    apply IH in H as [Hlen Hother]. simpl in *.
    rewrite length_insert in Hlen. split; [exact Hlen|].
    intros j Hj. rewrite Hother by tauto.
    apply list_lookup_insert_ne. intros ->. tauto.
Qed.

Lemma convert_dependent_other st ureg values vbn ndxs nv0 nv :
  convert_dependent st ureg values vbn ndxs nv0 = Ok nv ->
  length nv = length nv0
  /\ forall j, ~ In j ndxs -> nv !! j = nv0 !! j.
Proof.
  revert nv0. induction ndxs as [|i ndxs IH]; intros nv0 H; simpl in H.
  - injection H as <-. split; reflexivity.
  - destruct (values !! i) as [value|]; [|discriminate].
    destruct (args_as_uc st !! i) as [[[[template|]|?] ?]|]; try discriminate.
    apply bind_ok in H as (? & _ & H). apply bind_ok in H as (dst & _ & H).
    apply bind_ok in H as (v & _ & H).
    apply IH in H as [Hlen Hother]. rewrite length_insert in Hlen.
    split; [exact Hlen|].
    intros j Hj. simpl in Hj. rewrite Hother by tauto.
    apply list_lookup_insert_ne. intros ->. tauto.
Qed.

Lemma first_passes_other st ureg values nv vbn :
  first_passes st ureg values = Ok (nv, vbn) ->
  length nv = length values
  /\ forall j, ~ In j (defs_args_ndx st) -> ~ In j (dependent_args_ndx st) ->
       nv !! j = values !! j.
Proof.
  unfold first_passes. intros H.
  apply bind_ok in H as ([nv1 vbn1] & H1 & H).
  apply bind_ok in H as (nv2 & H2 & H). injection H as <- <-.
  apply grab_named_other in H1 as [Hlen1 Ho1].
  apply convert_dependent_other in H2 as [Hlen2 Ho2]. simpl in *.
  split; [congruence|].
  intros j Hd Hp. rewrite Ho2, Ho1 by (rewrite visit_In; assumption). reflexivity.
Qed.

Lemma convert_units_length st ureg strict values ndxs nv0 nv :
  convert_units st ureg strict values ndxs nv0 = Ok nv -> length nv = length nv0.
Proof.
  revert nv0. induction ndxs as [|i ndxs IH]; intros nv0 H; simpl in H.
  - injection H as <-. reflexivity.
  - destruct (values !! i) as [value|]; [|discriminate].
    destruct (is_Quantity ureg value).
    + destruct (args_as_uc st !! i) as [[[[dst|]|?] ?]|]; try discriminate.
      apply bind_ok in H as (v & _ & H). apply IH in H.
      rewrite length_insert in H. exact H.
    + destruct strict; [discriminate|]. apply IH, H.
Qed.

(** The third pass never writes at the index of a value that is not a
    quantity of the registry. *)
Lemma convert_units_keeps st ureg strict values ndxs nv0 nv j v :
  convert_units st ureg strict values ndxs nv0 = Ok nv ->
  values !! j = Some v -> is_Quantity ureg v = false ->
  nv !! j = nv0 !! j.
Proof.
  intros H Hv Hq. revert nv0 H.
  induction ndxs as [|i ndxs IH]; intros nv0 H; simpl in H.
  - injection H as <-. reflexivity.
  - destruct (values !! i) as [value|] eqn:Hi; [|discriminate].
    destruct (is_Quantity ureg value) eqn:Hqi.
    + destruct (args_as_uc st !! i) as [[[[dst|]|?] ?]|]; try discriminate.
      apply bind_ok in H as (x & _ & H). rewrite (IH _ H).
      apply list_lookup_insert_ne. intros ->. congruence.
    + destruct strict; [discriminate|]. apply IH, H.
Qed.

(** With [strict], a value that is not a quantity stops the third pass. *)
Lemma convert_units_strict_stops st ureg values ndxs nv0 j v :
  In j ndxs -> values !! j = Some v -> is_Quantity ureg v = false ->
  exists t msg, convert_units st ureg true values ndxs nv0 = Raise t msg.
Proof.
  intros Hin Hv Hq. revert nv0.
  induction ndxs as [|i ndxs IH]; intros nv0; [contradiction|]. simpl.
  destruct (values !! i) as [value|] eqn:Hi; [|eauto].
  destruct (is_Quantity ureg value) eqn:Hqi; [|eauto].
  destruct Hin as [->|Hin]; [congruence|].
  destruct (args_as_uc st !! i) as [[[[dst|]|?] ?]|]; eauto.
  destruct (_convert ureg _ _ dst) as [x|t msg]; simpl; eauto.
Qed.

(** When nothing else fails, the exception is the ValueError. *)
Lemma convert_units_strict_ValueError st ureg values ndxs nv0 j v :
  forallb (convertible st ureg values) ndxs = true ->
  In j ndxs -> values !! j = Some v -> is_Quantity ureg v = false ->
  raises (convert_units st ureg true values ndxs nv0) ValueError.
Proof.
  intros Hall Hin Hv Hq. revert nv0.
  induction ndxs as [|i ndxs IH]; intros nv0; [contradiction|].
  simpl in Hall. apply andb_true_iff in Hall as [Hi Hall]. simpl.
  unfold convertible in Hi.
  destruct (values !! i) as [value|] eqn:Hvi; [|discriminate].
  destruct (is_Quantity ureg value) eqn:Hqi; [|eexists; reflexivity].
  destruct Hin as [->|Hin]; [congruence|].
  destruct (args_as_uc st !! i) as [[[[dst|]|?] ?]|]; try discriminate.
  destruct (_convert ureg _ _ dst) as [x|t msg]; [|discriminate]. simpl.
  apply IH; assumption.
Qed.

(** An exception of the strict third pass is the exception of its step at
    one of the indices. *)
Lemma convert_units_raises_at st ureg values ndxs nv0 t msg :
  convert_units st ureg true values ndxs nv0 = Raise t msg ->
  exists j nv, In j ndxs /\ convert_units st ureg true values [j] nv = Raise t msg.
Proof.
  revert nv0. induction ndxs as [|i ndxs IH]; intros nv0 H; [discriminate|].
  assert (Hhere : convert_units st ureg true values [i] nv0 = Raise t msg
                  \/ exists nv1, convert_units st ureg true values ndxs nv1 = Raise t msg).
  { simpl in *. destruct (values !! i) as [value|]; [|left; exact H].
    destruct (is_Quantity ureg value); [|left; exact H].
    destruct (args_as_uc st !! i) as [[[[dst|]|?] ?]|]; try (left; exact H).
    destruct (_convert ureg _ _ dst) as [x|t' msg']; simpl in *;
      [right; eauto|left; exact H]. }
  destruct Hhere as [Hhere|[nv1 Hrest]].
  - exists i, nv0. split; [left; reflexivity|exact Hhere].
  - destruct (IH _ Hrest) as (j & nv & Hj & Hraise).
    exists j, nv. split; [right; exact Hj|exact Hraise].
Qed.

(** The strict step at a value that is not a quantity raises ValueError. *)
Lemma convert_units_step_ValueError st ureg values j v nv t msg :
  values !! j = Some v -> is_Quantity ureg v = false ->
  convert_units st ureg true values [j] nv = Raise t msg -> t = ValueError.
Proof.
  intros Hv Hq H. simpl in H. rewrite Hv, Hq in H. injection H as <- _. reflexivity.
Qed.

(** A quantity at a unit argument's index is replaced by its converted
    magnitude. *)
Lemma convert_units_converts st ureg strict values ndxs nv0 nv j v d b :
  convert_units st ureg strict values ndxs nv0 = Ok nv ->
  length nv0 = length values ->
  values !! j = Some v -> is_Quantity ureg v = true ->
  args_as_uc st !! j = Some (Units (Some d), b) ->
  In j ndxs
  \/ (exists x, _convert ureg (magnitude_or_self v) (units_or_empty v) d = Ok x
                /\ nv0 !! j = Some x) ->
  exists x, _convert ureg (magnitude_or_self v) (units_or_empty v) d = Ok x
            /\ nv !! j = Some x.
Proof.
  intros H Hlen Hv Hq He. revert nv0 H Hlen.
  induction ndxs as [|i ndxs IH]; intros nv0 H Hlen Hcase; simpl in H.
  - injection H as <-. destruct Hcase as [[]|Hx]. exact Hx.
  - destruct (values !! i) as [value|] eqn:Hi; [|discriminate].
    destruct (Nat.eq_dec i j) as [->|Hne].
    + rewrite Hv in Hi. injection Hi as <-. rewrite Hq, He in H.
      destruct (_convert ureg _ _ d) as [x|] eqn:Hx; [|discriminate]. simpl in H.
      apply (IH _ H); [rewrite length_insert; exact Hlen|].
      right. exists x. split; [reflexivity|].
      apply list_lookup_insert_eq. rewrite Hlen.
      apply (lookup_lt_Some _ _ _ Hv).
    + assert (Hrest : In j ndxs
                \/ exists x, _convert ureg (magnitude_or_self v) (units_or_empty v) d = Ok x
                             /\ nv0 !! j = Some x).
      { destruct Hcase as [[?|?]|?]; [contradiction|left; assumption|right; assumption]. }
      destruct (is_Quantity ureg value).
      * destruct (args_as_uc st !! i) as [[[[dst|]|?] ?]|]; try discriminate.
        apply bind_ok in H as (y & _ & H).
        apply (IH _ H); [rewrite length_insert; exact Hlen|].
        destruct Hrest as [?|(x & Hx & Hl)]; [left; assumption|].
        right. exists x. split; [exact Hx|].
        rewrite list_lookup_insert_ne by exact Hne. exact Hl.
      * destruct strict; [discriminate|]. apply (IH _ H Hlen Hrest).
Qed.

Lemma wraps_ok ureg ret args strict w :
  wraps ureg ret args strict = Ok w ->
  exists st ret',
    _parse_wrap_args (declared args) None = Ok st
    /\ w = wrapper ureg ret' st strict.
Proof.
  unfold wraps. intros H.
  apply bind_ok in H as (st & Hst & H).
  apply bind_ok in H as (ret' & _ & H). injection H as <-.
  exists st, ret'. split; [exact Hst|reflexivity].
Qed.

Lemma bind_ret_r {A} (m : result A) : (m ≫= Ok) = m.
Proof. destruct m; reflexivity. Qed.

(** [_apply_defaults] reads the signature of the function only. *)
Lemma _apply_defaults_body func body values kw :
  _apply_defaults {| parameters := parameters func; call := body |} values kw
  = _apply_defaults func values kw.
Proof. reflexivity. Qed.

(** [wrapper], once the defaults are applied and the arguments are
    converted. *)
Lemma wrapper_converted ureg ret st strict func values kw vals kw' nv vbn :
  _apply_defaults func values kw = Ok (vals, kw') ->
  _converter st ureg vals strict = Ok (nv, vbn) ->
  wrapper ureg ret st strict func values kw
  = (result ← call func nv; attach_units ureg ret vbn result).
Proof.
  intros Hd Hc. unfold wrapper. rewrite Hd. simpl. rewrite Hc. reflexivity.
Qed.

(** [wrapper], when the conversion of the arguments raises: the wrapped
    function is not called. *)
Lemma wrapper_not_converted ureg ret st strict func values kw vals kw' t msg :
  _apply_defaults func values kw = Ok (vals, kw') ->
  _converter st ureg vals strict = Raise t msg ->
  forall body,
    wrapper ureg ret st strict {| parameters := parameters func; call := body |}
      values kw = Raise t msg.
Proof.
  intros Hd Hc body. unfold wrapper.
  rewrite _apply_defaults_body, Hd. simpl. rewrite Hc. reflexivity.
Qed.

(** C6 (amended). Take a function wrapped by [wraps(ureg, ret, args,
    strict)], a parameter whose declared units are plain (neither None nor a
    reference with an equals sign), and the value [v] the call has at that
    parameter once the defaults are applied. With strict true and [v] not a
    quantity of the registry, the call raises whatever the body of the
    function is, so before the function is called, in whatever order the
    index sets are visited. The exception is the ValueError, or the one the
    first two passes raise, or the one the third pass raises at another unit
    argument: which of several failing arguments is met first is a matter of
    the order of the set. It is the ValueError when nothing else fails (the
    first two passes return and every unit argument that is a quantity
    converts). With strict false such a [v] is handed to the function as it
    is. In either mode a quantity of the registry is replaced by its
    magnitude converted to the declared units. *)
Theorem wraps_strict_requires_quantity
    (ureg : Registry) (ret args : unit_spec) (strict : bool)
    (w : pyfunction -> list pyvalue -> list (string * pyvalue) -> result pyvalue)
    (func : pyfunction) (values : list pyvalue) (kw : list (string * pyvalue))
    (vals : list pyvalue) (ndx : nat) (a : unit_like) (d : UnitsContainer)
    (v : pyvalue) :
  wraps ureg ret args strict = Ok w ->
  declared args !! ndx = Some a ->
  _to_units_container a None = Ok (Some d, false) ->
  _apply_defaults func values kw = Ok (vals, []) ->
  vals !! ndx = Some v ->
  exists st ret',
    _parse_wrap_args (declared args) None = Ok st
    /\ w = wrapper ureg ret' st strict
    /\ (strict = true -> is_Quantity ureg v = false ->
          (exists t msg,
             (forall body,
                w {| parameters := parameters func; call := body |} values kw
                = Raise t msg)
             /\ (t = ValueError
                 \/ first_passes st ureg vals = Raise t msg
                 \/ exists j nv,
                      j <> ndx /\ In j (unit_args_ndx st)
                      /\ convert_units st ureg true vals [j] nv = Raise t msg))
          /\ (is_ok (first_passes st ureg vals) = true ->
              forallb (convertible st ureg vals) (unit_args_ndx st) = true ->
              raises (w func values kw) ValueError))
    /\ (strict = false -> is_Quantity ureg v = false ->
          forall nv vbn, _converter st ureg vals strict = Ok (nv, vbn) ->
            nv !! ndx = Some v
            /\ w func values kw
               = (result ← call func nv; attach_units ureg ret' vbn result))
    /\ (is_Quantity ureg v = true ->
          forall nv vbn, _converter st ureg vals strict = Ok (nv, vbn) ->
            exists x,
              _convert ureg (magnitude_or_self v) (units_or_empty v) d = Ok x
              /\ nv !! ndx = Some x
              /\ w func values kw
                 = (result ← call func nv; attach_units ureg ret' vbn result)).
Proof.
  intros Hw Ha Hd Hdef Hv.
  destruct (wraps_ok _ _ _ _ _ Hw) as (st & ret' & Hst & ->).
  destruct (_parse_wrap_args_plain _ _ _ _ _ _ Hst Ha Hd) as (Hin & Hnd & Hnp & He).
  pose proof (proj2 (visit_In _ _) Hin) as Hvisit.
  exists st, ret'. split; [exact Hst|]. split; [reflexivity|].
  split; [|split].
  - intros -> Hq. split.
    + destruct (_converter st ureg vals true) as [[nv vbn]|t msg] eqn:Hc.
      * exfalso. unfold _converter in Hc.
        apply bind_ok in Hc as ([nv0 vbn0] & _ & Hc).
        apply bind_ok in Hc as (nv1 & Hc & _).
        destruct (convert_units_strict_stops st ureg vals _ nv0 ndx v Hvisit Hv Hq)
          as (t & msg & Hstop).
        congruence.
      * exists t, msg.
        split; [apply (wrapper_not_converted _ _ _ _ _ _ _ _ _ _ _ Hdef Hc)|].
        unfold _converter in Hc.
        destruct (first_passes st ureg vals) as [[nv0 vbn0]|t0 msg0] eqn:Hfp.
        -- simpl in Hc.
           destruct (convert_units st ureg true vals (visit (unit_args_ndx st)) nv0)
             as [nv1|t1 msg1] eqn:Hcu; [discriminate|].
           simpl in Hc. injection Hc as -> ->.
           destruct (convert_units_raises_at _ _ _ _ _ _ _ Hcu) as (j & nv & Hj & Hraise).
           destruct (Nat.eq_dec j ndx) as [->|Hne].
           ++ left. apply (convert_units_step_ValueError _ _ _ _ _ _ _ _ Hv Hq Hraise).
           ++ right; right. exists j, nv.
              split; [exact Hne|]. split; [apply visit_In, Hj|exact Hraise].
        -- simpl in Hc. right; left. exact Hc.
    + intros Hok Hall.
      destruct (first_passes st ureg vals) as [[nv0 vbn0]|] eqn:Hfp; [|discriminate].
      assert (Hall' : forallb (convertible st ureg vals) (visit (unit_args_ndx st)) = true).
      { apply forallb_forall. intros j Hj.
        apply (proj1 (forallb_forall _ _) Hall), visit_In, Hj. }
      destruct (convert_units_strict_ValueError st ureg vals _ nv0 ndx v Hall' Hvisit Hv Hq)
        as (msg & Hstop).
      exists msg.
      rewrite <- (wrapper_not_converted ureg ret' st true func values kw vals [] ValueError msg Hdef)
        with (body := call func).
      * destruct func; reflexivity.
      * unfold _converter. rewrite Hfp. simpl. rewrite Hstop. reflexivity.
  - intros -> Hq nv vbn Hc. split.
    + pose proof Hc as Hc'. unfold _converter in Hc'.
      apply bind_ok in Hc' as ([nv0 vbn0] & Hfp & Hc').
      apply bind_ok in Hc' as (nv1 & Hcu & Hc'). injection Hc' as -> ->.
      apply first_passes_other in Hfp as [_ Hother].
      rewrite (convert_units_keeps _ _ _ _ _ _ _ _ _ Hcu Hv Hq).
      rewrite Hother by assumption. exact Hv.
    + apply (wrapper_converted _ _ _ _ _ _ _ _ _ _ _ Hdef Hc).
  - intros Hq nv vbn Hc.
    pose proof Hc as Hc'. unfold _converter in Hc'.
    apply bind_ok in Hc' as ([nv0 vbn0] & Hfp & Hc').
    apply bind_ok in Hc' as (nv1 & Hcu & Hc'). injection Hc' as -> ->.
    apply first_passes_other in Hfp as [Hlen _].
    destruct (convert_units_converts _ _ _ _ _ _ _ _ _ _ _ Hcu Hlen Hv Hq He
                (or_introl Hvisit)) as (x & Hx & Hl).
    exists x. split; [exact Hx|]. split; [exact Hl|].
    apply (wrapper_converted _ _ _ _ _ _ _ _ _ _ _ Hdef Hc).
Qed.

(** C7 (amended). Let the registry read the declared unit [meter]. The
    function wrapped with [wraps(ureg, "meter", ["meter"])], called with a
    quantity of the registry in any units (centimeter, say), calls the inner
    function with the magnitude converted to meter, and a bare number it
    returns comes back as a quantity of the registry in meter. A quantity
    that is not an instance of the Quantity class of the registry is not
    converted: strict, the call raises ValueError and the inner function is
    not called; not strict, the inner function gets the quantity as it is.
    With None declared for the result, the wrapper returns what the inner
    function returned, untouched. *)
Theorem wraps_meter (ureg : Registry) (strict : bool)
    (meter_parsed meter : UnitsContainer) :
  to_units_container (UStr "meter") None = Ok (Some meter_parsed) ->
  to_units_container (UStr "meter") (Some ureg) = Ok (Some meter) ->
  to_units_container UNone (Some ureg) = Ok None ->
  exists w w0 st,
    wraps ureg (Single (UStr "meter")) (Several [UStr "meter"]) strict = Ok w
    /\ wraps ureg (Single UNone) (Several [UStr "meter"]) strict = Ok w0
    /\ _parse_wrap_args [UStr "meter"] None = Ok st
    /\ (forall func p x src x' y,
          parameters func = [(p, None)] ->
          _convert ureg (Number x) src meter_parsed = Ok x' ->
          call func [x'] = Ok (Number y) ->
          w func [Quantity (registry_id ureg) x src] []
          = Ok (Quantity (registry_id ureg) y meter))
    /\ (forall func p cls x src,
          parameters func = [(p, None)] ->
          cls <> registry_id ureg ->
          (strict = true ->
             forall body,
               raises (w {| parameters := parameters func; call := body |}
                         [Quantity cls x src] []) ValueError)
          /\ (strict = false ->
              forall y,
                call func [Quantity cls x src] = Ok (Number y) ->
                w func [Quantity cls x src] []
                = Ok (Quantity (registry_id ureg) y meter)))
    /\ (forall func values kw vals nv vbn y,
          _apply_defaults func values kw = Ok (vals, []) ->
          _converter st ureg vals strict = Ok (nv, vbn) ->
          call func nv = Ok (Number y) ->
          w func values kw = Ok (Quantity (registry_id ureg) y meter))
    /\ (forall func values kw,
          w0 func values kw
          = ('(vals, _) ← _apply_defaults func values kw;
             '(nv, _) ← _converter st ureg vals strict;
             call func nv)).
Proof.
  intros Hparsed Hmeter Hnone.
  set (st := {| defs_args := ∅; defs_args_ndx := []; dependent_args_ndx := [];
                unit_args_ndx := [0];
                args_as_uc := [(Units (Some meter_parsed), false)] |}).
  assert (Hst : _parse_wrap_args [UStr "meter"] None = Ok st).
  { unfold _parse_wrap_args, _to_units_container. simpl. rewrite Hparsed. simpl.
    rewrite visit_nil. reflexivity. }
  assert (Hw : wraps ureg (Single (UStr "meter")) (Several [UStr "meter"]) strict
               = Ok (wrapper ureg (RetOne (Some meter, false)) st strict)).
  { unfold wraps. simpl declared. cbv zeta. rewrite Hst. simpl.
    rewrite Hmeter. reflexivity. }
  assert (Hw0 : wraps ureg (Single UNone) (Several [UStr "meter"]) strict
                = Ok (wrapper ureg (RetOne (None, false)) st strict)).
  { unfold wraps. cbv zeta. rewrite Hst. simpl. rewrite Hnone. reflexivity. }
  assert (Hgeneral : forall func values kw vals nv vbn y,
            _apply_defaults func values kw = Ok (vals, []) ->
            _converter st ureg vals strict = Ok (nv, vbn) ->
            call func nv = Ok (Number y) ->
            wrapper ureg (RetOne (Some meter, false)) st strict func values kw
            = Ok (Quantity (registry_id ureg) y meter)).
  { intros func values kw vals nv vbn y Hd Hc Hcall.
    rewrite (wrapper_converted _ _ _ _ _ _ _ _ _ _ _ Hd Hc), Hcall. reflexivity. }
  assert (Hone : forall func p v,
            parameters func = [(p, None)] ->
            _apply_defaults func [v] [] = Ok ([v], [])).
  { intros func p v Hparams. unfold _apply_defaults, sig_bind. rewrite Hparams. simpl.
    rewrite lookup_insert_eq. simpl. rewrite lookup_insert_eq. reflexivity. }
  assert (Hpass : forall v strict',
            _converter st ureg [v] strict'
            = (new_values ← convert_units st ureg strict' [v] [0] [v];
               Ok (new_values, ∅))).
  { intros v strict'. unfold _converter, first_passes.
    change (defs_args_ndx st) with (@nil nat).
    change (dependent_args_ndx st) with (@nil nat).
    change (unit_args_ndx st) with [0].
    rewrite visit_nil, visit_singleton. reflexivity. }
  exists (wrapper ureg (RetOne (Some meter, false)) st strict),
         (wrapper ureg (RetOne (None, false)) st strict), st.
  split; [exact Hw|]. split; [exact Hw0|]. split; [exact Hst|].
  split; [|split; [|split; [exact Hgeneral|]]].
  - intros func p x src x' y Hparams Hconv Hcall.
    apply (Hgeneral func _ _ [Quantity (registry_id ureg) x src] [x'] ∅).
    + apply (Hone func p _ Hparams).
    + rewrite Hpass. simpl. rewrite Nat.eqb_refl. rewrite Hconv. reflexivity.
    + exact Hcall.
  - intros func p cls x src Hparams Hcls.
    assert (Hq : Nat.eqb cls (registry_id ureg) = false)
      by (apply Nat.eqb_neq; exact Hcls).
    split.
    + intros -> body. eexists.
      apply (wrapper_not_converted _ _ _ _ func _ _ _ _ _ _ (Hone func p _ Hparams)).
      rewrite Hpass. simpl. rewrite Hq. reflexivity.
    + intros -> y Hcall.
      apply (Hgeneral func _ _ [Quantity cls x src] [Quantity cls x src] ∅).
      * apply (Hone func p _ Hparams).
      * rewrite Hpass. simpl. rewrite Hq. reflexivity.
      * exact Hcall.
  - intros func values kw. unfold wrapper.
    destruct (_apply_defaults func values kw) as [[vals kw']|]; [|reflexivity]. simpl.
    destruct (_converter st ureg vals strict) as [[nv vbn]|]; [|reflexivity]. simpl.
    apply bind_ret_r.
Qed.

(* --------------------------------------------------------------------- *)
(** *** Further properties of the wrapping helpers *)

Lemma for_each_length {A B} (f : A -> result B) (l : list A) (l' : list B) :
  for_each f l = Ok l' -> length l' = length l.
Proof.
  revert l'. induction l as [|x l IH]; intros l' H; simpl in H.
  - injection H as <-. reflexivity.
  - apply bind_ok in H as (y & _ & H). apply bind_ok in H as (ys & Hys & H).
    injection H as <-. simpl. f_equal. apply IH, Hys.
Qed.

Lemma convert_units_other st ureg strict values ndxs nv0 nv j :
  convert_units st ureg strict values ndxs nv0 = Ok nv ->
  ~ In j ndxs -> nv !! j = nv0 !! j.
Proof.
  revert nv0. induction ndxs as [|i ndxs IH]; intros nv0 H Hj; simpl in H.
  - injection H as <-. reflexivity.
  - simpl in Hj. destruct (values !! i) as [value|]; [|discriminate].
    destruct (is_Quantity ureg value).
    + destruct (args_as_uc st !! i) as [[[[dst|]|?] ?]|]; try discriminate.
      apply bind_ok in H as (x & _ & H). rewrite (IH _ H) by tauto.
      apply list_lookup_insert_ne. intros ->. tauto.
    + destruct strict; [discriminate|]. apply (IH _ H). tauto.
Qed.

(** What the strict third pass returns, the third pass that is not strict
    returns as well. *)
Lemma convert_units_strict_then_not st ureg values ndxs nv0 nv :
  convert_units st ureg true values ndxs nv0 = Ok nv ->
  convert_units st ureg false values ndxs nv0 = Ok nv.
Proof.
  revert nv0. induction ndxs as [|i ndxs IH]; intros nv0 H; simpl in *.
  - exact H.
  - destruct (values !! i) as [value|]; [|discriminate].
    destruct (is_Quantity ureg value); [|discriminate].
    destruct (args_as_uc st !! i) as [[[[dst|]|?] ?]|]; try discriminate.
    destruct (_convert ureg _ _ dst) as [x|]; [|discriminate]. simpl in *.
    apply IH, H.
Qed.

(** X10. Strictness only refuses: whatever a call of the function wrapped
    with strict true returns, the same call of the function wrapped with
    strict false returns too. *)
Theorem strict_result_is_the_result ureg ret args w :
  wraps ureg ret args true = Ok w ->
  exists w',
    wraps ureg ret args false = Ok w'
    /\ forall func values kw r,
         w func values kw = Ok r -> w' func values kw = Ok r.
Proof.
  unfold wraps. intros H.
  apply bind_ok in H as (st & Hst & H).
  apply bind_ok in H as (ret' & Hret & H). injection H as <-.
  exists (wrapper ureg ret' st false). split.
  - rewrite Hst. simpl. rewrite Hret. reflexivity.
  - intros func values kw r Hr. unfold wrapper in *.
    apply bind_ok in Hr as ([vals kw'] & -> & Hr). simpl.
    apply bind_ok in Hr as ([nv vbn] & Hc & Hr).
    assert (Hc' : _converter st ureg vals false = Ok (nv, vbn)).
    { unfold _converter in *.
      apply bind_ok in Hc as ([nv0 vbn0] & -> & Hc). simpl.
      apply bind_ok in Hc as (nv1 & Hcu & Hc). injection Hc as -> ->.
      rewrite (convert_units_strict_then_not _ _ _ _ _ _ Hcu). reflexivity. }
    rewrite Hc'. exact Hr.
Qed.

Lemma classify_unit_inv st n item j :
  In j (unit_args_ndx (classify st n item)) ->
  In j (unit_args_ndx st) \/ (j = n /\ exists u, item = (Some u, false)).
Proof.
  destruct item as [[u|] [|]]; simpl; try tauto.
  - destruct u as [|[key value] [|]];
      [|destruct (Qeq_bool value 1 && bool_decide (key ∉ defs_args st))|];
      simpl; tauto.
  - rewrite in_app_iff. simpl. intros [H|[<-|[]]]; [tauto|].
    right. split; [reflexivity|]. exists u. reflexivity.
Qed.

Lemma classify_from_unit_inv items n st j :
  In j (unit_args_ndx (classify_from n items st)) ->
  In j (unit_args_ndx st)
  \/ exists i u, j = n + i /\ items !! i = Some (Some u, false).
Proof.
  revert n st. induction items as [|item items IH]; intros n st H; simpl in H.
  - tauto.
  - apply IH in H. destruct H as [H|(i & u & -> & Hi)].
    + apply classify_unit_inv in H as [H|(-> & u & ->)]; [tauto|].
      right. exists 0, u. split; [lia|reflexivity].
    + right. exists (S i), u. split; [lia|exact Hi].
Qed.

Lemma classify_refs_keep st n item j :
  (In j (defs_args_ndx st) -> In j (defs_args_ndx (classify st n item)))
  /\ (In j (dependent_args_ndx st) -> In j (dependent_args_ndx (classify st n item))).
Proof.
  destruct item as [[u|] [|]]; simpl; try tauto.
  destruct u as [|[key value] [|]];
    [|destruct (Qeq_bool value 1 && bool_decide (key ∉ defs_args st))|];
    simpl; rewrite ?in_app_iff; tauto.
Qed.

Lemma classify_from_refs_keep items n st j :
  (In j (defs_args_ndx st) -> In j (defs_args_ndx (classify_from n items st)))
  /\ (In j (dependent_args_ndx st)
      -> In j (dependent_args_ndx (classify_from n items st))).
Proof.
  revert n st. induction items as [|item items IH]; intros n st; simpl; [tauto|].
  destruct (IH (S n) (classify st n item)) as [IH1 IH2].
  destruct (classify_refs_keep st n item j) as [H1 H2]. tauto.
Qed.

(** A reference puts its index among the defining or the dependent
    arguments. *)
Lemma classify_from_ref_in items n st i u :
  items !! i = Some (Some u, true) ->
  In (n + i) (defs_args_ndx (classify_from n items st))
  \/ In (n + i) (dependent_args_ndx (classify_from n items st)).
Proof.
  revert n st i. induction items as [|item items IH]; intros n st i H; [discriminate|].
  destruct i as [|i]; simpl in H.
  - injection H as ->. simpl. rewrite Nat.add_0_r.
    destruct (classify_from_refs_keep items (S n) (classify st n (Some u, true)) n)
      as [H1 H2].
    assert (Hn : In n (defs_args_ndx (classify st n (Some u, true)))
                 \/ In n (dependent_args_ndx (classify st n (Some u, true)))).
    { simpl. destruct u as [|[key value] [|]];
        [|destruct (Qeq_bool value 1 && bool_decide (key ∉ defs_args st))|];
        simpl; rewrite ?in_app_iff; simpl; tauto. }
    tauto.
  - simpl. replace (n + S i) with (S n + i) by lia. apply IH, H.
Qed.

(** One step of the first loop adds its index to one list at most. *)
Lemma classify_step st n item :
  let st' := classify st n item in
  (defs_args_ndx st' = defs_args_ndx st /\ dependent_args_ndx st' = dependent_args_ndx st)
  \/ (defs_args_ndx st' = defs_args_ndx st ++ [n]
      /\ dependent_args_ndx st' = dependent_args_ndx st)
  \/ (defs_args_ndx st' = defs_args_ndx st
      /\ dependent_args_ndx st' = dependent_args_ndx st ++ [n]).
Proof.
  destruct item as [[u|] [|]]; simpl; try tauto.
  destruct u as [|[key value] [|]];
    [|destruct (Qeq_bool value 1 && bool_decide (key ∉ defs_args st))|];
    simpl; tauto.
Qed.

Lemma classify_from_defs_dep items n st :
  (forall j, In j (defs_args_ndx st) -> j < n) ->
  (forall j, In j (dependent_args_ndx st) -> j < n) ->
  (forall j, In j (defs_args_ndx st) -> In j (dependent_args_ndx st) -> False) ->
  forall j, In j (defs_args_ndx (classify_from n items st)) ->
            In j (dependent_args_ndx (classify_from n items st)) -> False.
Proof.
  revert n st. induction items as [|item items IH]; intros n st Hd Hp Hdis; simpl.
  - exact Hdis.
  - pose proof (classify_step st n item) as Hs. cbv zeta in Hs.
    apply IH; intros j; destruct Hs as [[E1 E2]|[[E1 E2]|[E1 E2]]];
      rewrite ?E1, ?E2, ?in_app_iff; simpl; intros;
      repeat match goal with
             | H : _ \/ _ |- _ => destruct H
             | H : False |- _ => destruct H
             end;
      try (subst; lia);
      try (eapply Hdis; eassumption);
      try match goal with
          | H : In _ (defs_args_ndx st) |- _ => apply Hd in H; lia
          | H : In _ (dependent_args_ndx st) |- _ => apply Hp in H; lia
          end.
Qed.

(** The parsed declarations behind a state of [_parse_wrap_args], looked
    up by index. *)
Lemma _parse_wrap_args_parsed args registry st :
  _parse_wrap_args args registry = Ok st ->
  exists parsed,
    for_each (fun arg => _to_units_container arg registry) args = Ok parsed
    /\ st = classify_from 0 parsed
              {| defs_args := ∅; defs_args_ndx := []; dependent_args_ndx := [];
                 unit_args_ndx := [];
                 args_as_uc := map (fun item => (Units (fst item), snd item)) parsed |}.
Proof.
  unfold _parse_wrap_args. intros H.
  apply bind_ok in H as (parsed & Hparsed & H).
  apply bind_ok in H as ([] & _ & H). injection H as <-.
  exists parsed. split; [exact Hparsed|reflexivity].
Qed.

(** The kind of each parameter, read off its declaration. *)
Lemma _parse_wrap_args_kinds args registry st ndx a o is_ref :
  _parse_wrap_args args registry = Ok st ->
  args !! ndx = Some a ->
  _to_units_container a registry = Ok (o, is_ref) ->
  let unit := In ndx (unit_args_ndx st) in
  let defining := In ndx (defs_args_ndx st) in
  let dependent := In ndx (dependent_args_ndx st) in
  match o, is_ref with
  | None, _ => ~ unit /\ ~ defining /\ ~ dependent
  | Some _, false => unit /\ ~ defining /\ ~ dependent
  | Some _, true => ~ unit /\ (defining \/ dependent) /\ ~ (defining /\ dependent)
  end.
Proof.
  intros Hst Ha Ho.
  destruct (_parse_wrap_args_parsed _ _ _ Hst) as (parsed & Hparsed & ->).
  destruct (for_each_lookup _ _ _ _ _ Hparsed Ha) as (item & Hitem & Hl).
  rewrite Ho in Hitem. injection Hitem as <-. cbv zeta.
  set (st0 := {| defs_args := ∅; defs_args_ndx := []; dependent_args_ndx := [];
                 unit_args_ndx := []; args_as_uc := _ |}).
  assert (Hunit : In ndx (unit_args_ndx (classify_from 0 parsed st0)) ->
                  exists u, parsed !! ndx = Some (Some u, false)).
  { intros H. apply classify_from_unit_inv in H as [[]|(i & u & -> & Hi)]. eauto. }
  assert (Hrefs : In ndx (defs_args_ndx (classify_from 0 parsed st0))
                  \/ In ndx (dependent_args_ndx (classify_from 0 parsed st0)) ->
                  exists u, parsed !! ndx = Some (Some u, true)).
  { intros H. apply classify_from_refs in H as [[]|[[]|(i & u & -> & Hi)]]. eauto. }
  destruct o as [u|]; [destruct is_ref|].
  - split; [|split].
    + intros H. destruct (Hunit H) as (u' & Hu'). congruence.
    + apply (classify_from_ref_in parsed 0 st0 ndx u Hl).
    + intros [Hd Hp]. revert Hd Hp.
      apply classify_from_defs_dep; simpl; intros; contradiction.
  - split; [|split].
    + apply (classify_from_unit_in parsed 0 st0 ndx u Hl).
    + intros H. destruct (Hrefs (or_introl H)) as (u' & Hu'). congruence.
    + intros H. destruct (Hrefs (or_intror H)) as (u' & Hu'). congruence.
  - split; [|split].
    + intros H. destruct (Hunit H) as (u' & Hu'). congruence.
    + intros H. destruct (Hrefs (or_introl H)) as (u' & Hu'). congruence.
    + intros H. destruct (Hrefs (or_intror H)) as (u' & Hu'). congruence.
Qed.

(** X12. [_parse_wrap_args] sorts the parameters into kinds that do not
    overlap: a parameter declared None is in none of the three index sets; a
    parameter with plain units is a unit argument only; a parameter declared
    as a reference is a defining or a dependent argument, never both and
    never a unit argument. *)
Theorem _parse_wrap_args_partition args registry st ndx a o is_ref :
  _parse_wrap_args args registry = Ok st ->
  args !! ndx = Some a ->
  _to_units_container a registry = Ok (o, is_ref) ->
  let unit := In ndx (unit_args_ndx st) in
  let defining := In ndx (defs_args_ndx st) in
  let dependent := In ndx (dependent_args_ndx st) in
  match o, is_ref with
  | None, _ => ~ unit /\ ~ defining /\ ~ dependent
  | Some _, false => unit /\ ~ defining /\ ~ dependent
  | Some _, true => ~ unit /\ (defining \/ dependent) /\ ~ (defining /\ dependent)
  end.
Proof. exact (_parse_wrap_args_kinds args registry st ndx a o is_ref). Qed.

(** X11. [_converter] hands as many values on as it was given, leaves the
    value of every parameter declared None as it is, and leaves the values
    beyond the declared parameters as they are, in either mode. *)
Theorem _converter_skips_None args registry st ureg strict vals nv vbn :
  _parse_wrap_args args registry = Ok st ->
  _converter st ureg vals strict = Ok (nv, vbn) ->
  length nv = length vals
  /\ (forall ndx a is_ref,
        args !! ndx = Some a ->
        _to_units_container a registry = Ok (None, is_ref) ->
        nv !! ndx = vals !! ndx)
  /\ (forall ndx, length args <= ndx -> nv !! ndx = vals !! ndx).
Proof.
  intros Hst Hc.
  assert (Hout : forall ndx,
            ~ In ndx (unit_args_ndx st) -> ~ In ndx (defs_args_ndx st) ->
            ~ In ndx (dependent_args_ndx st) -> nv !! ndx = vals !! ndx).
  { intros ndx Hu Hd Hp. unfold _converter in Hc.
    apply bind_ok in Hc as ([nv0 vbn0] & Hfp & Hc).
    apply bind_ok in Hc as (nv1 & Hcu & Hc). injection Hc as -> ->.
    rewrite (convert_units_other _ _ _ _ _ _ _ _ Hcu
               (fun H => Hu (proj1 (visit_In _ _) H))).
    apply first_passes_other in Hfp as [_ Hother]. apply Hother; assumption. }
  split; [|split].
  - unfold _converter in Hc.
    apply bind_ok in Hc as ([nv0 vbn0] & Hfp & Hc).
    apply bind_ok in Hc as (nv1 & Hcu & Hc). injection Hc as -> ->.
    apply first_passes_other in Hfp as [Hlen _].
    apply convert_units_length in Hcu. congruence.
  - intros ndx a is_ref Ha Ho.
    destruct (_parse_wrap_args_kinds _ _ _ _ _ _ _ Hst Ha Ho) as (Hu & Hd & Hp).
    apply Hout; assumption.
  - intros ndx Hge.
    destruct (_parse_wrap_args_parsed _ _ _ Hst) as (parsed & Hparsed & ->).
    pose proof (for_each_length _ _ _ Hparsed) as Hlen.
    assert (Hnone : forall b, parsed !! ndx = Some b -> False).
    { intros b Hb. apply lookup_lt_Some in Hb. lia. }
    apply Hout.
    + intros H. apply classify_from_unit_inv in H as [[]|(i & u & -> & Hi)]. eauto.
    + intros H.
      destruct (classify_from_refs _ _ _ _ (or_introl H)) as [[]|[[]|(i & u & -> & Hi)]].
      eauto.
    + intros H.
      destruct (classify_from_refs _ _ _ _ (or_intror H)) as [[]|[[]|(i & u & -> & Hi)]].
      eauto.
Qed.

(** The entries of the defining arguments are names, and their indices are
    indices of declared parameters. *)
Lemma classify_from_named items n st :
  n + length items = length (args_as_uc st) ->
  (forall j, In j (defs_args_ndx st) ->
     j < n /\ exists key, args_as_uc st !! j = Some (Name key, true)) ->
  forall j, In j (defs_args_ndx (classify_from n items st)) ->
    j < n + length items
    /\ exists key, args_as_uc (classify_from n items st) !! j = Some (Name key, true).
Proof.
  revert n st. induction items as [|item items IH]; intros n st Hlen Hinv j Hj.
  - simpl in *. destruct (Hinv j Hj) as [Hlt Hk]. split; [lia|exact Hk].
  - simpl in Hj. simpl length. replace (n + S (length items)) with (S n + length items) by lia.
    apply (IH (S n) (classify st n item)); [| |exact Hj].
    + destruct item as [[u|] [|]]; simpl; try (simpl in Hlen; lia).
      destruct u as [|[key value] [|]];
        [|destruct (Qeq_bool value 1 && bool_decide (key ∉ defs_args st))|];
        simpl; rewrite ?length_insert; simpl in Hlen; lia.
    + intros k Hk.
      assert (Hold : In k (defs_args_ndx st) ->
                S n > k /\ exists key, args_as_uc st !! k = Some (Name key, true)).
      { intros H. destruct (Hinv k H) as [Hlt He]. split; [lia|exact He]. }
      destruct item as [[u|] [|]]; simpl in Hk |- *; try (apply Hold, Hk).
      destruct u as [|[key value] [|]];
        [|destruct (Qeq_bool value 1 && bool_decide (key ∉ defs_args st))|];
        simpl in Hk |- *; try (apply Hold, Hk).
      apply in_app_iff in Hk as [Hk|[<-|[]]].
      * destruct (Hinv k Hk) as [Hlt (key' & He)]. split; [lia|].
        exists key'. rewrite list_lookup_insert_ne by lia. exact He.
      * split; [lia|]. exists key. apply list_lookup_insert_eq.
        simpl in Hlen. lia.
Qed.

Lemma grab_named_magnitudes st values ndxs acc :
  (forall j, In j ndxs ->
     j < length values /\ exists key, args_as_uc st !! j = Some (Name key, true)) ->
  length (fst acc) = length values ->
  exists nv vbn,
    grab_named st values ndxs acc = Ok (nv, vbn)
    /\ length nv = length values
    /\ forall j v, values !! j = Some v ->
         In j ndxs \/ fst acc !! j = Some (magnitude_or_self v) ->
         nv !! j = Some (magnitude_or_self v).
Proof.
  revert acc. induction ndxs as [|i ndxs IH]; intros [nv0 vbn0] Hinv Hlen; simpl in *.
  - exists nv0, vbn0. split; [reflexivity|]. split; [exact Hlen|].
    intros j v _ [[]|H]. exact H.
  - destruct (Hinv i (or_introl eq_refl)) as [Hlt (key & He)].
    destruct (lookup_lt_is_Some_2 values i Hlt) as [value Hvalue].
    rewrite Hvalue, He.
    destruct (IH (<[i := magnitude_or_self value]> nv0, <[key := value]> vbn0))
      as (nv & vbn & Hg & Hl & Hm).
    + intros j Hj. apply Hinv. right. exact Hj.
    + simpl. rewrite length_insert. exact Hlen.
    + exists nv, vbn. split; [exact Hg|]. split; [exact Hl|].
      intros j v Hv Hcase. apply (Hm j v Hv). simpl.
      destruct (Nat.eq_dec i j) as [->|Hne].
      * right. rewrite Hvalue in Hv. injection Hv as ->.
        apply list_lookup_insert_eq. lia.
      * destruct Hcase as [[?|?]|H]; [contradiction|left; assumption|].
        right. rewrite list_lookup_insert_ne by exact Hne. exact H.
Qed.

(** X13. When the call has a value for every declared parameter, the first
    pass of [_converter] returns, in whatever order the set of defining
    arguments is visited: every defining argument is there and its entry is a
    name. It keeps the number of values and replaces each defining argument
    by its magnitude (a quantity by its number, any other value by
    itself). *)
Theorem first_pass_returns args registry st values :
  _parse_wrap_args args registry = Ok st ->
  length args <= length values ->
  exists nv vbn,
    grab_named st values (visit (defs_args_ndx st)) (values, ∅) = Ok (nv, vbn)
    /\ length nv = length values
    /\ forall j v, In j (defs_args_ndx st) -> values !! j = Some v ->
         nv !! j = Some (magnitude_or_self v).
Proof.
  intros Hst Hlen.
  destruct (_parse_wrap_args_parsed _ _ _ Hst) as (parsed & Hparsed & ->).
  pose proof (for_each_length _ _ _ Hparsed) as Hpl.
  set (st0 := {| defs_args := ∅; defs_args_ndx := []; dependent_args_ndx := [];
                 unit_args_ndx := []; args_as_uc := _ |}).
  assert (Hnamed : forall j, In j (visit (defs_args_ndx (classify_from 0 parsed st0))) ->
            j < length values
            /\ exists key, args_as_uc (classify_from 0 parsed st0) !! j
                           = Some (Name key, true)).
  { intros j Hj. apply (proj1 (visit_In _ _)) in Hj.
    destruct (classify_from_named parsed 0 st0) with (j := j) as [Hlt Hk].
    - simpl. rewrite length_map. reflexivity.
    - simpl. intros ? [].
    - exact Hj.
    - split; [simpl in Hlt; lia|exact Hk]. }
  destruct (grab_named_magnitudes (classify_from 0 parsed st0) values _ (values, ∅)
              Hnamed eq_refl) as (nv & vbn & Hg & Hl & Hm).
  exists nv, vbn. split; [exact Hg|]. split; [exact Hl|].
  intros j v Hj Hv. apply (Hm j v Hv). left. apply (proj2 (visit_In _ _)), Hj.
Qed.

(** X14. [_replace_units] of the empty template is the empty container,
    whatever the named values are; a template that names a value that was not
    recorded never gives units: the call raises, and it is the KeyError when
    the missing name is the first of the template. *)
Theorem _replace_units_missing_name (template : UnitsContainer)
    (values_by_name : gmap string pyvalue) (name : string) :
  _replace_units [] values_by_name = Ok []
  /\ (In name (keys template) -> values_by_name !! name = None ->
      is_ok (_replace_units template values_by_name) = false)
  /\ (forall exponent rest, template = (name, exponent) :: rest ->
        values_by_name !! name = None ->
        raises (_replace_units template values_by_name) KeyError).
Proof.
  split; [reflexivity|]. split.
  - intros Hin Hnone. unfold _replace_units.
    assert (H : forall q, is_ok (replace_units_loop template values_by_name q) = false).
    { induction template as [|[k e] rest IH]; intros q; [destruct Hin|]. simpl.
      destruct (values_by_name !! k) as [v|] eqn:Hk; [|reflexivity].
      destruct (value_pow v e) as [p|]; [|reflexivity]. simpl.
      destruct (value_mul q p) as [q'|]; [|reflexivity]. simpl.
      apply IH. destruct Hin as [Heq|Hin]; [|exact Hin].
      simpl in Heq. subst k. congruence. }
    specialize (H (Number 1)).
    destruct (replace_units_loop template values_by_name (Number 1)); [discriminate|].
    reflexivity.
  - intros exponent rest -> Hnone. unfold _replace_units. simpl. rewrite Hnone.
    eexists. reflexivity.
Qed.

Lemma for_each_map_ok {A B} (f : A -> result B) (g : B -> A) (l : list B) :
  (forall b, f (g b) = Ok b) -> for_each f (map g l) = Ok l.
Proof.
  intros H. induction l as [|x l IH]; [reflexivity|].
  simpl. rewrite H, IH. reflexivity.
Qed.

(** X15. A function wrapped with a list of plain result units that returns
    a tuple of bare numbers gets each number tagged with the unit at its
    place, or left bare where the unit is None; results beyond the declared
    units come back untouched. A result that is not a tuple raises
    TypeError. *)
Theorem attach_units_to_tuple ureg vbn (us : list (option UnitsContainer))
    (xs : list Q) (extra : list pyvalue) :
  length xs = length us ->
  attach_units ureg (RetSeveral (map (fun o => (o, false)) us)) vbn
    (Seq (map Number xs ++ extra))
  = Ok (Seq (zip_with
               (fun x o => match o with
                           | Some u => Quantity (registry_id ureg) x u
                           | None => Number x
                           end) xs us ++ extra))
  /\ forall x, raises (attach_units ureg (RetSeveral (map (fun o => (o, false)) us))
                         vbn (Number x)) TypeError.
Proof.
  intros Hlen. split; [|intros x; eexists; reflexivity].
  unfold attach_units.
  match goal with
  | |- (items ← for_each ?g _; _) = _ => set (f := g)
  end.
  assert (Hextra : forall b, f (None, Some b) = Ok b) by reflexivity.
  assert (Hhere : forall o x,
            f (Some (o, false), Some (Number x))
            = Ok (match o with
                  | Some u => Quantity (registry_id ureg) x u
                  | None => Number x
                  end)).
  { intros [u|] x; reflexivity. }
  clearbody f.
  assert (H : for_each f (zip_longest (map (fun o => (o, false)) us)
                            (map Number xs ++ extra))
              = Ok (zip_with
                      (fun x o => match o with
                                  | Some u => Quantity (registry_id ureg) x u
                                  | None => Number x
                                  end) xs us ++ extra)).
  { revert xs Hlen. induction us as [|o us IH]; intros xs Hlen.
    - destruct xs; [|discriminate]. simpl. apply for_each_map_ok, Hextra.
    - destruct xs as [|x xs]; [discriminate|].
      injection Hlen as Hlen. specialize (IH xs Hlen).
      simpl. rewrite Hhere. simpl. rewrite IH. reflexivity. }
  rewrite H. reflexivity.
Qed.

End Helpers.

(* --------------------------------------------------------------------- *)
(** *** The defaults of a call *)

Lemma bind_positional_lookup params args bound b :
  bind_positional params args bound = Ok b ->
  NoDup (map fst params) ->
  (forall i p d, params !! i = Some (p, d) ->
     b !! p = match args !! i with Some v => Some v | None => bound !! p end)
  /\ (forall q, ~ In q (map fst params) -> b !! q = bound !! q).
Proof.
  revert args bound. induction params as [|[p0 d0] params IH]; intros args bound H Hnd.
  - destruct args; [|discriminate]. injection H as <-. split; [discriminate|reflexivity].
  - destruct args as [|a args].
    + injection H as <-. split; reflexivity.
    + simpl in H. apply NoDup_cons in Hnd as [Hnotin Hnd].
      rewrite list_elem_of_In in Hnotin.
      destruct (IH _ _ H Hnd) as [IHi IHo]. split.
      * intros [|i] p d Hp; simpl in Hp.
        -- injection Hp as -> ->. rewrite (IHo p Hnotin). simpl.
           apply lookup_insert_eq.
        -- rewrite (IHi i p d Hp). simpl.
           destruct (args !! i); [reflexivity|].
           apply lookup_insert_ne. intros ->. apply Hnotin.
           apply in_map_iff. exists (p, d). split; [reflexivity|].
           apply list_elem_of_In, list_elem_of_lookup. eauto.
      * intros q Hq. simpl in Hq. rewrite (IHo q) by tauto.
        apply lookup_insert_ne. intros ->. tauto.
Qed.

Lemma bind_positional_too_many params args bound :
  length params < length args ->
  raises (bind_positional params args bound) TypeError.
Proof.
  revert args bound. induction params as [|[p0 d0] params IH]; intros args bound H.
  - destruct args; [simpl in H; lia|]. eexists. reflexivity.
  - destruct args as [|a args]; [simpl in H; lia|]. simpl. apply IH. simpl in H. lia.
Qed.

Lemma bind_positional_fits params args bound :
  length args <= length params ->
  exists b, bind_positional params args bound = Ok b.
Proof.
  revert args bound. induction params as [|[p0 d0] params IH]; intros args bound H.
  - destruct args; [eexists; reflexivity|simpl in H; lia].
  - destruct args as [|a args]; [eexists; reflexivity|].
    simpl. apply IH. simpl in H. lia.
Qed.

Lemma check_required_ok params (b : gmap string pyvalue) :
  (forall p d, In (p, d) params -> is_Some (b !! p) \/ is_Some d) ->
  check_required params b = Ok tt.
Proof.
  induction params as [|[p d] params IH]; intros H; simpl; [reflexivity|].
  destruct (H p d (or_introl eq_refl)) as [[v ->]|[v ->]].
  - apply IH. intros; apply H; right; assumption.
  - destruct (b !! p); apply IH; intros; apply H; right; assumption.
Qed.

(** X16. [_apply_defaults] for a function whose parameters are all
    positional-or-keyword (no starred and no keyword-only parameter), on a
    call with positional arguments only: the arguments come back in their
    order, followed by the defaults of the parameters that were not given,
    and the keyword dict is empty; with more arguments than parameters the
    call raises TypeError. *)
Theorem _apply_defaults_positional (func : pyfunction) (args : list pyvalue) :
  NoDup (map fst (parameters func)) ->
  (length args <= length (parameters func) ->
   (forall i p, parameters func !! i = Some (p, None) -> i < length args) ->
   _apply_defaults func args []
   = Ok (args ++ map (fun param => default PNone (snd param))
                   (skipn (length args) (parameters func)), []))
  /\ (length (parameters func) < length args ->
      raises (_apply_defaults func args []) TypeError).
Proof.
  intros Hnd. split.
  - intros Hlen Hreq. unfold _apply_defaults, sig_bind.
    destruct (bind_positional (parameters func) args ∅) as [b|t msg] eqn:Hb.
    2:{ destruct (bind_positional_fits _ _ ∅ Hlen) as (b & Hb'). congruence. }
    destruct (bind_positional_lookup _ _ _ _ Hb Hnd) as [Hi _].
    simpl. rewrite check_required_ok.
    2:{ intros p d Hin. apply list_elem_of_In, list_elem_of_lookup in Hin as (i & Hin).
        rewrite (Hi i p d Hin). destruct d as [v|]; [right; eauto|].
        left. destruct (lookup_lt_is_Some_2 args i (Hreq i p Hin)) as [v ->]. eauto. }
    simpl. f_equal. f_equal. apply list_eq. intros i.
    rewrite list_lookup_fmap.
    destruct (parameters func !! i) as [[p d]|] eqn:Hp; simpl.
    + rewrite (Hi i p d Hp).
      destruct (args !! i) as [v|] eqn:Hv.
      * rewrite lookup_app_l by (apply (lookup_lt_Some _ _ _ Hv)). rewrite Hv. reflexivity.
      * apply lookup_ge_None in Hv. rewrite lookup_empty.
        rewrite lookup_app_r by exact Hv.
        rewrite list_lookup_fmap, lookup_drop.
        replace (length args + (i - length args)) with i by lia.
        rewrite Hp. reflexivity.
    + apply lookup_ge_None in Hp. symmetry. apply lookup_ge_None.
      rewrite length_app, length_map, length_drop. lia.
  - intros Hlen. unfold _apply_defaults, sig_bind.
    destruct (bind_positional_too_many _ _ ∅ Hlen) as (msg & ->).
    eexists. reflexivity.
Qed.

(* --------------------------------------------------------------------- *)
(** *** A registry with two units, for the examples *)

(** Modelled from the spec: [to_units_container] of pint.util is not part
    of the sources. None, which marks a parameter to skip, stays None; a
    container is itself; a string is read by the parser helper. *)
Definition read_units (a : unit_like) (registry : option Registry)
    : result (option UnitsContainer) :=
  match a with
  | UNone => Ok None
  | UStr s => ph ← parser.from_string s; Ok (Some (units ph))
  | UContainer u => Ok (Some u)
  end.

(** The factor of a unit of length to the meter. *)
Definition to_meter (u : UnitsContainer) : option Q :=
  match u with
  | [(name, e)] =>
      if Qeq_bool e 1 then
        if String.eqb name "meter" then Some 1%Q
        else if String.eqb name "centimeter" then Some (1 # 100)
        else None
      else None
  | _ => None
  end.

(** Modelled from the spec: the registry converts a magnitude by the
    quotient of the factors of the two units to the base unit, and raises
    DimensionalityError when one of them is not a length. *)
Definition convert_length (value : pyvalue) (src dst : UnitsContainer)
    : result pyvalue :=
  match value, to_meter src, to_meter dst with
  | Number x, Some f, Some g => Ok (Number (Qred (x * (f / g))))
  | Number _, _, _ => Raise DimensionalityError "Cannot convert"
  | _, _, _ => Raise TypeError "the magnitude is not a number"
  end.

Definition lengths : Registry :=
  {| registry_id := 0;
     _convert := convert_length;
     Quantity_of_other := fun _ _ => Raise TypeError "the magnitude is not a number" |}.

(** Products and powers of values, for the back-references. *)
Definition times (a b : pyvalue) : result pyvalue :=
  match a, b with
  | Number x, Number y => Ok (Number (Qred (x * y)))
  | Number x, Quantity c y u => Ok (Quantity c (Qred (x * y)) u)
  | Quantity c x u, Number y => Ok (Quantity c (Qred (x * y)) u)
  | Quantity c x u, Quantity _ y u' =>
      Ok (Quantity c (Qred (x * y)) (parser.multiply u u'))
  | _, _ => Raise TypeError "unsupported operand"
  end.

Definition to_the (a : pyvalue) (e : Q) : result pyvalue :=
  if (Qden (Qred e) =? 1)%positive then
    match a with
    | Number x => Ok (Number (Qred (Qpower x (Qnum (Qred e)))))
    | Quantity c x u =>
        Ok (Quantity c (Qred (Qpower x (Qnum (Qred e)))) (parser.power u e))
    | _ => Raise TypeError "unsupported operand"
    end
  else Raise ValueError "fractional power".

(** The order of the examples: the members of a set as they were added. *)
Definition as_added (l : list nat) : list nat := l.

Lemma as_added_all (l : list nat) : Permutation (as_added l) l.
Proof. apply Permutation_refl. Defined.

(** Another order, the members that were added last first. *)
Definition last_added_first (l : list nat) : list nat := rev l.

Lemma last_added_first_all (l : list nat) : Permutation (last_added_first l) l.
Proof. apply Permutation_sym, Permutation_rev. Qed.

Definition wraps_lengths := wraps read_units times to_the false as_added lengths.

(** A function of one parameter that doubles its argument. *)
Definition double : pyfunction :=
  {| parameters := [("x", None)];
     call := fun args =>
       match args with
       | [Number x] => Ok (Number (Qred (2 * x)))
       | _ => Raise TypeError "unsupported operand"
       end |}.

Definition centimeter : UnitsContainer := [("centimeter", 1%Q)].
Definition meter : UnitsContainer := [("meter", 1%Q)].

Example double_of_centimeters :
  (w ← wraps_lengths (Single (UStr "meter")) (Several [UStr "meter"]) true;
   w double [Quantity 0 150 centimeter] [])
  = Ok (Quantity 0 3 meter).
Proof. vm_compute. reflexivity. Qed.

Example double_of_a_number_strict :
  raises (w ← wraps_lengths (Single (UStr "meter")) (Several [UStr "meter"]) true;
          w double [Number 150] []) ValueError.
Proof. eexists. vm_compute. reflexivity. Qed.

Example double_of_a_number_not_strict :
  (w ← wraps_lengths (Single (UStr "meter")) (Several [UStr "meter"]) false;
   w double [Number 150] [])
  = Ok (Quantity 0 300 meter).
Proof. vm_compute. reflexivity. Qed.

(** C6, where the claim fails: the parameter is declared [=A], which is not
    None, the call is strict and the argument is a bare number; nothing is
    raised and the inner function is called with the number. *)
Lemma strict_accepts_number_for_reference :
  (w ← wraps_lengths (Single UNone) (Several [UStr "=A"]) true;
   w double [Number 150] [])
  = Ok (Number 300).
Proof. vm_compute. reflexivity. Qed.

(** Two arguments that fail, a bare number and a quantity that is not a
    length: which exception the strict call raises depends on the order in
    which the set of unit arguments is visited. *)
Example strict_exception_depends_on_the_order :
  let f := {| parameters := [("x", None); ("y", None)]; call := fun _ => Ok PNone |} in
  let call_in (order : list nat -> list nat) :=
    w ← wraps read_units times to_the false order lengths
          (Single UNone) (Several [UStr "meter"; UStr "meter"]) true;
    w f [Number 5; Quantity 0 1 [("second", 1%Q)]] [] in
  raises (call_in as_added) ValueError
  /\ raises (call_in last_added_first) DimensionalityError.
Proof. split; eexists; vm_compute; reflexivity. Qed.

Lemma wraps_strict_requires_quantity_witness :
  exists w,
    wraps_lengths (Single UNone) (Several [UStr "meter"; UStr "meter"]) true = Ok w
    /\ raises (w {| parameters := [("x", None); ("y", None)];
                    call := fun _ => Ok PNone |}
                 [Quantity 0 150 centimeter; Number 2] []) ValueError.
Proof.
  set (f := {| parameters := [("x", None); ("y", None)]; call := fun _ => Ok PNone |}).
  destruct (wraps_lengths (Single UNone) (Several [UStr "meter"; UStr "meter"]) true)
    as [w|] eqn:Hw; [|discriminate].
  exists w. split; [reflexivity|].
  destruct (wraps_strict_requires_quantity read_units times to_the false
              as_added as_added_all lengths
              (Single UNone) (Several [UStr "meter"; UStr "meter"]) true w f
              [Quantity 0 150 centimeter; Number 2] []
              [Quantity 0 150 centimeter; Number 2] 1 (UStr "meter") meter (Number 2)
              Hw eq_refl eq_refl eq_refl eq_refl)
    as (st & ret' & Hst & _ & Hstrict & _).
  vm_compute in Hst. injection Hst as <-.
  destruct (Hstrict eq_refl eq_refl) as [_ Hraise].
  apply Hraise; reflexivity.
Defined.

(** A function of one parameter that answers the magnitude of what it is
    given. *)
Definition magnitude_of : pyfunction :=
  {| parameters := [("x", None)];
     call := fun args =>
       match args with
       | [value] => Ok (magnitude_or_self value)
       | _ => Raise TypeError "takes 1 positional argument"
       end |}.

(** C7, where the claim fails: a quantity in centimeter that belongs to
    another registry is not converted to meter. The strict call raises
    ValueError; the call that is not strict hands the quantity over as it
    is, and the 150 centimeter come back as 150 meter. *)
Lemma quantity_of_another_registry_is_not_converted :
  raises (w ← wraps_lengths (Single (UStr "meter")) (Several [UStr "meter"]) true;
          w magnitude_of [Quantity 1 150 centimeter] []) ValueError
  /\ (w ← wraps_lengths (Single (UStr "meter")) (Several [UStr "meter"]) false;
      w magnitude_of [Quantity 1 150 centimeter] [])
     = Ok (Quantity 0 150 meter)
  /\ (w ← wraps_lengths (Single (UStr "meter")) (Several [UStr "meter"]) false;
      w magnitude_of [Quantity 0 150 centimeter] [])
     = Ok (Quantity 0 (3 # 2) meter).
Proof.
  split; [eexists; vm_compute; reflexivity|].
  split; vm_compute; reflexivity.
Qed.

Lemma wraps_meter_witness :
  exists w,
    wraps_lengths (Single (UStr "meter")) (Several [UStr "meter"]) true = Ok w
    /\ w double [Quantity 0 150 centimeter] [] = Ok (Quantity 0 3 meter).
Proof.
  destruct (wraps_meter read_units times to_the false as_added as_added_all
              lengths true meter meter
              eq_refl eq_refl eq_refl)
    as (w & w0 & st & Hw & _ & _ & Hcall & _).
  exists w. split; [exact Hw|].
  apply (Hcall double "x" 150%Q centimeter (Number (3 # 2)) 3%Q); reflexivity.
Defined.

(* --------------------------------------------------------------------- *)
(** *** [check] *)

Section Check.

(** The methods of the registry that [check] calls, which are not part of
    the sources at hand: [ureg.get_dimensionality] on a declared dimension
    and on a value, and [ureg.Quantity(value).check(dim)]. *)
Variable get_dimensionality : unit_like -> result UnitsContainer.
Variable get_dimensionality_of : pyvalue -> result UnitsContainer.
Variable Quantity_check : pyvalue -> UnitsContainer -> result bool.

(** A call of the function with positional and keyword arguments: the
    parameters are bound, the ones left out take their defaults, and the body
    runs on the values in the order of the signature. *)
Definition apply (func : pyfunction) (args : list pyvalue)
    (kwargs : list (string * pyvalue)) : result pyvalue :=
  '(values, _) ← _apply_defaults func args kwargs;
  call func values.

(** The list [dimensions] that [check] computes once, when it decorates. *)
Definition check_dimensions (args : list unit_like)
    : result (list (option UnitsContainer)) :=
  for_each (fun dim => match dim with
                       | UNone => Ok None
                       | _ => d ← get_dimensionality dim; Ok (Some d)
                       end) args.

(** The loop of the wrapper over [zip(dimensions, list_args)]. *)
Fixpoint check_values (dimensions : list (option UnitsContainer))
    (list_args : list pyvalue) : result unit :=
  match dimensions, list_args with
  | dim :: dimensions, value :: list_args =>
      match dim with
      | None => check_values dimensions list_args
      | Some dim =>
          ok ← Quantity_check value dim;
          if negb ok then
            val_dim ← get_dimensionality_of value;
            Raise DimensionalityError "Cannot convert"
          else check_values dimensions list_args
      end
  | _, _ => Ok tt
  end.

(** The wrapper [check] returns for a function. The texts of the two
    messages are abridged: they name the function and the values, which the
    theorems do not read. *)
Definition check_wrapper (dimensions : list (option UnitsContainer))
    (func : pyfunction) (args : list pyvalue) (kwargs : list (string * pyvalue))
    : result pyvalue :=
  '(list_args, empty) ← _apply_defaults func args kwargs;
  if (length list_args <? length dimensions)%nat then
    Raise TypeError "takes fewer parameters than dimensions were passed"
  else
    _ ← check_values dimensions list_args;
    apply func args kwargs.

(** [check] *)
Definition check (args : list unit_like)
    : result (pyfunction -> list pyvalue -> list (string * pyvalue) -> result pyvalue) :=
  dimensions ← check_dimensions args;
  Ok (check_wrapper dimensions).

Lemma check_ok args w :
  check args = Ok w ->
  exists dimensions,
    check_dimensions args = Ok dimensions
    /\ length dimensions = length args
    /\ w = check_wrapper dimensions.
Proof.
  unfold check. intros H. apply bind_ok in H as (dims & Hd & H). injection H as <-.
  exists dims. split; [exact Hd|]. split; [|reflexivity].
  apply (for_each_length _ _ _ Hd).
Qed.

Lemma check_values_pass dimensions list_args :
  (forall i d v, dimensions !! i = Some (Some d) -> list_args !! i = Some v ->
     Quantity_check v d = Ok true) ->
  check_values dimensions list_args = Ok tt.
Proof.
  revert list_args. induction dimensions as [|dim dims IH]; intros vals H; [reflexivity|].
  destruct vals as [|v vals]; [reflexivity|]. simpl.
  assert (Hrest : check_values dims vals = Ok tt).
  { apply IH. intros i d v' Hd Hv. apply (H (S i) d v'); assumption. }
  destruct dim as [d|]; [|exact Hrest].
  rewrite (H 0 d v eq_refl eq_refl). simpl. exact Hrest.
Qed.

Lemma check_values_fail dimensions list_args i d v :
  (forall j d' v', j < i -> dimensions !! j = Some (Some d') ->
     list_args !! j = Some v' -> Quantity_check v' d' = Ok true) ->
  dimensions !! i = Some (Some d) -> list_args !! i = Some v ->
  Quantity_check v d = Ok false ->
  match get_dimensionality_of v with
  | Ok _ => raises (check_values dimensions list_args) DimensionalityError
  | Raise t msg => check_values dimensions list_args = Raise t msg
  end.
Proof.
  revert list_args i. induction dimensions as [|dim dims IH]; intros vals i Hbefore Hd Hv Hq;
    [discriminate|].
  destruct vals as [|v0 vals]; [discriminate|].
  destruct i as [|i]; simpl in Hd, Hv.
  - injection Hd as ->. injection Hv as ->. simpl. rewrite Hq. simpl.
    destruct (get_dimensionality_of v); simpl; [eexists|]; reflexivity.
  - assert (Hrest : match get_dimensionality_of v with
                    | Ok _ => raises (check_values dims vals) DimensionalityError
                    | Raise t msg => check_values dims vals = Raise t msg
                    end).
    { apply (IH vals i); try assumption.
      intros j d' v' Hj. apply (Hbefore (S j)). lia. }
    simpl. destruct dim as [d0|]; [|exact Hrest].
    rewrite (Hbefore 0 d0 v0 ltac:(lia) eq_refl eq_refl). simpl. exact Hrest.
Qed.

(** X17. A function decorated by [check] with more dimensions than it has
    parameters raises TypeError at every call, before any argument is
    checked and without the function being called. *)
Theorem check_too_many_dimensions args w func values kw vals kw' :
  check args = Ok w ->
  _apply_defaults func values kw = Ok (vals, kw') ->
  length vals < length args ->
  forall body,
    raises (w {| parameters := parameters func; call := body |} values kw) TypeError.
Proof.
  intros Hw Hd Hlen body.
  destruct (check_ok _ _ Hw) as (dims & _ & Hl & ->).
  unfold check_wrapper. rewrite _apply_defaults_body, Hd. simpl.
  rewrite (proj2 (Nat.ltb_lt _ _)) by lia. eexists. reflexivity.
Qed.

(** X18. When every argument that has a declared dimension passes its
    check, the decorated function returns what the function returns on the
    arguments as they were given, defaults applied: [check] converts
    nothing. *)
Theorem check_passes args w dimensions func values kw vals kw' :
  check args = Ok w ->
  check_dimensions args = Ok dimensions ->
  _apply_defaults func values kw = Ok (vals, kw') ->
  length args <= length vals ->
  (forall i d v, dimensions !! i = Some (Some d) -> vals !! i = Some v ->
     Quantity_check v d = Ok true) ->
  w func values kw = call func vals.
Proof.
  intros Hw Hdims Hd Hlen Hpass.
  destruct (check_ok _ _ Hw) as (dims & Hdims' & Hl & ->).
  assert (dims = dimensions) as -> by congruence.
  unfold check_wrapper, apply. rewrite Hd. simpl.
  rewrite (proj2 (Nat.ltb_ge _ _)) by lia.
  rewrite (check_values_pass _ _ Hpass). reflexivity.
Qed.

(** X19. When an argument fails the check of its declared dimension, and
    the arguments before it pass theirs, the decorated function raises
    without calling the function: DimensionalityError, unless the registry
    fails to give the dimensionality of the offending value, whose exception
    is raised then. *)
Theorem check_mismatch args w dimensions func values kw vals kw' i d v :
  check args = Ok w ->
  check_dimensions args = Ok dimensions ->
  _apply_defaults func values kw = Ok (vals, kw') ->
  length args <= length vals ->
  (forall j d' v', j < i -> dimensions !! j = Some (Some d') ->
     vals !! j = Some v' -> Quantity_check v' d' = Ok true) ->
  dimensions !! i = Some (Some d) -> vals !! i = Some v ->
  Quantity_check v d = Ok false ->
  (exists t msg, forall body,
     w {| parameters := parameters func; call := body |} values kw = Raise t msg)
  /\ (is_ok (get_dimensionality_of v) = true ->
      raises (w func values kw) DimensionalityError).
Proof.
  intros Hw Hdims Hd Hlen Hbefore Hi Hv Hq.
  destruct (check_ok _ _ Hw) as (dims & Hdims' & Hl & ->).
  assert (dims = dimensions) as -> by congruence.
  pose proof (check_values_fail _ _ _ _ _ Hbefore Hi Hv Hq) as Hfail.
  assert (Hwrap : forall f t msg,
            parameters f = parameters func ->
            check_values dimensions vals = Raise t msg ->
            check_wrapper dimensions f values kw = Raise t msg).
  { intros f t msg Hp Hc. unfold check_wrapper.
    replace (_apply_defaults f values kw) with (_apply_defaults func values kw)
      by (unfold _apply_defaults; rewrite Hp; reflexivity).
    rewrite Hd. simpl. rewrite (proj2 (Nat.ltb_ge _ _)) by lia.
    rewrite Hc. reflexivity. }
  split.
  - destruct (get_dimensionality_of v) as [vd|t msg].
    + destruct Hfail as (msg & Hc). exists DimensionalityError, msg.
      intros body. apply Hwrap; [reflexivity|exact Hc].
    + exists t, msg. intros body. apply Hwrap; [reflexivity|exact Hfail].
  - intros Hok. destruct (get_dimensionality_of v) as [vd|]; [|discriminate].
    destruct Hfail as (msg & Hc). exists msg. apply Hwrap; [reflexivity|exact Hc].
Qed.

End Check.

(* --------------------------------------------------------------------- *)
(** *** The further properties on the registry of lengths *)

Definition parse_lengths := _parse_wrap_args read_units false as_added.
Definition convert_lengths := _converter times to_the as_added.

Lemma strict_result_is_the_result_witness :
  exists w',
    wraps_lengths (Single (UStr "meter")) (Several [UStr "meter"]) false = Ok w'
    /\ w' double [Quantity 0 150 centimeter] [] = Ok (Quantity 0 3 meter).
Proof.
  destruct (wraps_lengths (Single (UStr "meter")) (Several [UStr "meter"]) true)
    as [w|] eqn:Hw; [|discriminate].
  destruct (strict_result_is_the_result read_units times to_the false as_added lengths
              (Single (UStr "meter")) (Several [UStr "meter"]) w Hw)
    as (w' & Hw' & Hsame).
  exists w'. split; [exact Hw'|]. apply Hsame.
  vm_compute in Hw. injection Hw as <-. vm_compute. reflexivity.
Defined.

Lemma _parse_wrap_args_partition_witness :
  exists st,
    parse_lengths [UStr "=A"; UStr "=A"; UStr "meter"; UNone] None = Ok st
    /\ ~ In 1 (unit_args_ndx st)
    /\ (In 1 (defs_args_ndx st) \/ In 1 (dependent_args_ndx st))
    /\ ~ (In 1 (defs_args_ndx st) /\ In 1 (dependent_args_ndx st)).
Proof.
  destruct (parse_lengths [UStr "=A"; UStr "=A"; UStr "meter"; UNone] None)
    as [st|] eqn:Hst; [|discriminate].
  exists st. split; [reflexivity|].
  exact (_parse_wrap_args_partition read_units false as_added
           [UStr "=A"; UStr "=A"; UStr "meter"; UNone] None st 1 (UStr "=A")
           (Some [("A", 1%Q)]) true Hst eq_refl eq_refl).
Defined.

Lemma _converter_skips_None_witness :
  exists st nv vbn,
    parse_lengths [UStr "meter"; UNone] None = Ok st
    /\ convert_lengths st lengths [Quantity 0 150 centimeter; Number 7] true
       = Ok (nv, vbn)
    /\ nv !! 1 = Some (Number 7).
Proof.
  destruct (parse_lengths [UStr "meter"; UNone] None) as [st|] eqn:Hst; [|discriminate].
  destruct (convert_lengths st lengths [Quantity 0 150 centimeter; Number 7] true)
    as [[nv vbn]|] eqn:Hc.
  2:{ exfalso. vm_compute in Hst. injection Hst as <-. vm_compute in Hc. discriminate. }
  exists st, nv, vbn. split; [reflexivity|]. split; [exact Hc|].
  destruct (_converter_skips_None read_units times to_the false as_added as_added_all
              [UStr "meter"; UNone] None st lengths true
              [Quantity 0 150 centimeter; Number 7] nv vbn Hst Hc)
    as (_ & Hnone & _).
  exact (Hnone 1 UNone false eq_refl eq_refl).
Defined.

Lemma first_pass_returns_witness :
  exists st nv vbn,
    parse_lengths [UStr "=A"; UStr "meter"] None = Ok st
    /\ grab_named st [Quantity 0 5 meter; Number 1] (as_added (defs_args_ndx st))
         ([Quantity 0 5 meter; Number 1], ∅) = Ok (nv, vbn)
    /\ length nv = 2.
Proof.
  destruct (parse_lengths [UStr "=A"; UStr "meter"] None) as [st|] eqn:Hst;
    [|discriminate].
  destruct (first_pass_returns read_units false as_added as_added_all [UStr "=A"; UStr "meter"] None st
              [Quantity 0 5 meter; Number 1] Hst ltac:(simpl; lia))
    as (nv & vbn & Hg & Hl & _).
  exists st, nv, vbn. split; [reflexivity|]. split; [exact Hg|exact Hl].
Defined.

Lemma attach_units_to_tuple_witness :
  attach_units times to_the lengths
    (RetSeveral [(Some meter, false); (None, false)]) ∅
    (Seq [Number 3; Number 4; Number 5])
  = Ok (Seq [Quantity 0 3 meter; Number 4; Number 5]).
Proof.
  exact (proj1 (attach_units_to_tuple times to_the lengths ∅ [Some meter; None]
                  [3%Q; 4%Q] [Number 5] eq_refl)).
Defined.

(** A function of two parameters, the second with a default. *)
Definition scaled : pyfunction :=
  {| parameters := [("x", None); ("factor", Some (Number 2))];
     call := fun args =>
       match args with
       | [Number x; Number f] => Ok (Number (Qred (f * x)))
       | [Quantity c x u; Number f] => Ok (Quantity c (Qred (f * x)) u)
       | _ => Raise TypeError "unsupported operand"
       end |}.

Lemma _apply_defaults_positional_witness :
  _apply_defaults scaled [Number 5] [] = Ok ([Number 5; Number 2], []).
Proof.
  refine (proj1 (_apply_defaults_positional scaled [Number 5] _) _ _).
  - apply (bool_decide_unpack _). vm_compute. exact I.
  - simpl. lia.
  - intros [|[|i]] p H; simpl in H; [simpl; lia|discriminate|discriminate].
Defined.

(** The dimensionality of a value, for the examples: a length for a
    quantity in meter or centimeter, none for a bare number. *)
Definition dimension_of (v : pyvalue) : result UnitsContainer :=
  match v with
  | Number _ => Ok []
  | Quantity _ _ u =>
      match to_meter u with
      | Some _ => Ok [("[length]", 1%Q)]
      | None => Raise UndefinedUnitError "not defined in the unit registry"
      end
  | _ => Raise TypeError "not a quantity"
  end.

Definition declared_dimension (dim : unit_like) : result UnitsContainer :=
  match dim with
  | UNone => Raise TypeError "no dimension"
  | UStr s => ph ← parser.from_string s; Ok (units ph)
  | UContainer u => Ok u
  end.

Fixpoint same_units (a b : UnitsContainer) : bool :=
  match a, b with
  | [], [] => true
  | (k, x) :: a, (l, y) :: b => String.eqb k l && Qeq_bool x y && same_units a b
  | _, _ => false
  end.

Definition has_dimension (v : pyvalue) (dim : UnitsContainer) : result bool :=
  d ← dimension_of v; Ok (same_units d dim).

Definition check_lengths := check declared_dimension dimension_of has_dimension.

Lemma check_too_many_dimensions_witness :
  exists w,
    check_lengths [UStr "[length]"; UNone; UStr "[length]"] = Ok w
    /\ raises (w scaled [Quantity 0 5 meter] []) TypeError.
Proof.
  destruct (check_lengths [UStr "[length]"; UNone; UStr "[length]"]) as [w|] eqn:Hw;
    [|discriminate].
  exists w. split; [reflexivity|].
  exact (check_too_many_dimensions declared_dimension dimension_of has_dimension
           [UStr "[length]"; UNone; UStr "[length]"] w scaled [Quantity 0 5 meter] []
           [Quantity 0 5 meter; Number 2] [] Hw eq_refl ltac:(simpl; lia)
           (call scaled)).
Defined.

Lemma check_passes_witness :
  exists w,
    check_lengths [UStr "[length]"] = Ok w
    /\ w scaled [Quantity 0 5 centimeter] [] = Ok (Quantity 0 10 centimeter).
Proof.
  destruct (check_lengths [UStr "[length]"]) as [w|] eqn:Hw; [|discriminate].
  exists w. split; [reflexivity|].
  refine (check_passes declared_dimension dimension_of has_dimension
            [UStr "[length]"] w [Some [("[length]", 1%Q)]] scaled
            [Quantity 0 5 centimeter] [] [Quantity 0 5 centimeter; Number 2] []
            Hw eq_refl eq_refl ltac:(simpl; lia) _).
  intros [|i] d v Hd Hv; [|destruct i; discriminate].
  injection Hd as <-. injection Hv as <-. reflexivity.
Defined.

Lemma check_mismatch_witness :
  exists w,
    check_lengths [UStr "[length]"] = Ok w
    /\ raises (w scaled [Number 5] []) DimensionalityError.
Proof.
  destruct (check_lengths [UStr "[length]"]) as [w|] eqn:Hw; [|discriminate].
  exists w. split; [reflexivity|].
  refine (proj2 (check_mismatch declared_dimension dimension_of has_dimension
                   [UStr "[length]"] w [Some [("[length]", 1%Q)]] scaled
                   [Number 5] [] [Number 5; Number 2] [] 0 [("[length]", 1%Q)]
                   (Number 5) Hw eq_refl eq_refl ltac:(simpl; lia) _
                   eq_refl eq_refl eq_refl) eq_refl).
  intros j d' v' Hj. lia.
Defined.

End registry_helpers.

(* ===================================================================== *)
(** ** pint.errors, from its description and its tests *)
(* ===================================================================== *)

Module errors.

(** [sep.join(l)] for a separator of any length. *)
Fixpoint pystr_join (sep : string) (l : list string) : string :=
  match l with
  | [] => EmptyString
  | [x] => x
  | x :: rest => x +:+ sep +:+ pystr_join sep rest
  end.

(** The values an error is built from and carries: None, a string, an
    integer, a units container, a quantity (a magnitude with units; [check]
    of registry_helpers puts the value of the caller into the
    DimensionalityError it raises), and a value of any other type, given by
    its text and its truth value (a float, a list). *)
Inductive pyval :=
| VNone
| VStr (s : string)
| VInt (n : Z)
| VUnits (u : UnitsContainer)
| VQuantity (magnitude : pyval) (units : UnitsContainer)
| VOther (text : string) (truth : bool).

(** An exception object: its class, its [args] and its [__dict__]. *)
Record instance := {
  etype : exc_type;
  args : list pyval;
  __dict__ : gmap string pyval
}.

(** The five error kinds of the package. *)
Definition is_pint_error (t : exc_type) : bool :=
  match t with
  | DefinitionSyntaxError | RedefinitionError | UndefinedUnitError
  | DimensionalityError | OffsetUnitCalculusError => true
  | _ => false
  end.

(** Modelled from the spec: errors.py is not part of the sources. The
    keyword-only arguments of each kind with their defaults, as the tests
    pass them: filename and lineno for the errors the loader annotates,
    extra_msg for DimensionalityError. *)
Definition keywords (t : exc_type) : list (string * pyval) :=
  match t with
  | DefinitionSyntaxError | RedefinitionError =>
      [("filename", VNone); ("lineno", VNone)]
  | DimensionalityError => [("extra_msg", VStr "")]
  | _ => []
  end.

(** Modelled from the spec: how many positional arguments each kind takes,
    as the tests call them. *)
Definition arity_ok (t : exc_type) (n : nat) : bool :=
  match t with
  | DefinitionSyntaxError => (n =? 1)%nat
  | RedefinitionError => (n =? 2)%nat
  | UndefinedUnitError => true
  | DimensionalityError => ((2 <=? n) && (n <=? 4))%nat
  | OffsetUnitCalculusError => ((1 <=? n) && (n <=? 2))%nat
  | _ => false
  end.

(** Modelled from the spec: calling the class. The positional arguments are
    the constructor arguments the object keeps; every keyword-only argument
    becomes an attribute, with its default when it is not given. None when
    the call does not fit the signature. *)
Definition construct (t : exc_type) (positional : list pyval)
    (kw : gmap string pyval) : option instance :=
  if arity_ok t (length positional)
     && bool_decide (dom kw ⊆ list_to_set (map fst (keywords t)))
  then Some {| etype := t; args := positional;
               __dict__ := kw ∪ list_to_map (keywords t) |}
  else None.

(** Setting an attribute after the object is built. *)
Definition setattr (e : instance) (name : string) (v : pyval) : instance :=
  {| etype := etype e; args := args e; __dict__ := <[ name := v ]> (__dict__ e) |}.

(** An error as the code can hold one: built by a call of its class, then
    any attributes attached. *)
Inductive built : instance -> Prop :=
| built_call t positional kw e :
    is_pint_error t = true ->
    construct t positional kw = Some e ->
    built e
| built_setattr e name v :
    built e -> built (setattr e name v).

Definition decimal (n : Z) : string := NilZero.string_of_int (Z.to_int n).

Section Rendering.

(** The text of a units container, which the formatter of the package
    makes. *)
Variable format_units : UnitsContainer -> string.

(** [str(v)]. Modelled from the spec: a quantity reads as its magnitude
    and its units with a blank between them. *)
Fixpoint str_of (v : pyval) : string :=
  match v with
  | VNone => "None"
  | VStr s => s
  | VInt n => decimal n
  | VUnits u => format_units u
  | VQuantity magnitude u => str_of magnitude +:+ " " +:+ format_units u
  | VOther text _ => text
  end.

(** [bool(v)]. Modelled from the spec: a quantity is true when its
    magnitude is. *)
Fixpoint truthy (v : pyval) : bool :=
  match v with
  | VNone => false
  | VStr s => pystr.truthy s
  | VInt n => negb (n =? 0)%Z
  | VUnits u => match u with [] => false | _ => true end
  | VQuantity magnitude _ => truthy magnitude
  | VOther _ truth => truth
  end.

Definition arg (e : instance) (i : nat) : pyval := nth i (args e) (VStr "").

Definition attr (e : instance) (name : string) : pyval :=
  default VNone (__dict__ e !! name).

(** Modelled from the spec: the message of each kind without the place it
    was found at, as the tests expect it. *)
Definition message (e : instance) : string :=
  match etype e with
  | DefinitionSyntaxError => str_of (arg e 0)
  | RedefinitionError =>
      "Cannot redefine '" +:+ str_of (arg e 0) +:+ "' (" +:+ str_of (arg e 1) +:+ ")"
  | UndefinedUnitError =>
      match args e with
      | [name] => "'" +:+ str_of name +:+ "' is not defined in the unit registry"
      | names =>
          "(" +:+ pystr_join ", " (map (fun v => "'" +:+ str_of v +:+ "'") names)
          +:+ ") are not defined in the unit registry"
      end
  | DimensionalityError =>
      (if truthy (arg e 2) || truthy (arg e 3) then
         "Cannot convert from '" +:+ str_of (arg e 0) +:+ "' (" +:+ str_of (arg e 2)
         +:+ ") to '" +:+ str_of (arg e 1) +:+ "' (" +:+ str_of (arg e 3) +:+ ")"
       else
         "Cannot convert from '" +:+ str_of (arg e 0) +:+ "' to '"
         +:+ str_of (arg e 1) +:+ "'")
      +:+ str_of (attr e "extra_msg")
  | OffsetUnitCalculusError =>
      "Ambiguous operation with offset unit ("
      +:+ pystr_join ", " (map str_of (List.filter truthy (args e)))
      +:+ "). See https://pint.readthedocs.io/en/latest/nonmult.html for guidance."
  | _ => pystr_join ", " (map str_of (args e))
  end.

(** Modelled from the spec: the errors the loader annotates are rendered as
    [While opening <file>, in line <n>: <msg>], with either part left out
    when the attribute is not set (is None). *)
Definition located (e : instance) (msg : string) : string :=
  match attr e "filename", attr e "lineno" with
  | VNone, VNone => msg
  | VNone, lineno => "In line " +:+ str_of lineno +:+ ": " +:+ msg
  | filename, VNone => "While opening " +:+ str_of filename +:+ ": " +:+ msg
  | filename, lineno =>
      "While opening " +:+ str_of filename +:+ ", in line " +:+ str_of lineno
      +:+ ": " +:+ msg
  end.

(** [str(e)] *)
Definition str (e : instance) : string :=
  match etype e with
  | DefinitionSyntaxError | RedefinitionError => located e (message e)
  | _ => message e
  end.

End Rendering.

(* --------------------------------------------------------------------- *)
(** *** Attributes *)

Lemma attr_setattr_eq e name v : attr (setattr e name v) name = v.
Proof. unfold attr, setattr. simpl. rewrite lookup_insert_eq. reflexivity. Qed.

Lemma attr_setattr_ne e name other v :
  name <> other -> attr (setattr e name v) other = attr e other.
Proof.
  intros H. unfold attr, setattr. simpl. rewrite lookup_insert_ne by exact H.
  reflexivity.
Qed.




Lemma construct_dict t positional kw e :
  construct t positional kw = Some e ->
  etype e = t /\ args e = positional
  /\ __dict__ e = kw ∪ list_to_map (keywords t).
Proof.
  unfold construct. intros H.
  destruct (arity_ok t (length positional) && _); [|discriminate].
  injection H as <-. repeat split.
Qed.

(** The rendering of the errors the loader annotates reads the kind, the
    arguments and the two attributes of the place. *)
Lemma str_same format_units x y :
  etype x = DefinitionSyntaxError \/ etype x = RedefinitionError ->
  etype y = etype x -> args y = args x ->
  attr y "filename" = attr x "filename" ->
  attr y "lineno" = attr x "lineno" ->
  str format_units y = str format_units x.
Proof.
  intros Hk Ht Ha Hf Hl. unfold str, located, message, arg.
  rewrite Ht, Ha, Hf, Hl. destruct Hk as [-> | ->]; reflexivity.
Qed.

Lemma str_unset format_units x :
  etype x = DefinitionSyntaxError \/ etype x = RedefinitionError ->
  attr x "filename" = VNone -> attr x "lineno" = VNone ->
  str format_units x = message format_units x.
Proof.
  intros Hk Hf Hl. unfold str, located. rewrite Hf, Hl.
  destruct Hk as [-> | ->]; reflexivity.
Qed.

(** C8. A DefinitionSyntaxError, and likewise a RedefinitionError, renders
    as its bare message when neither filename nor lineno is set (both are
    None), as [In line <n>: <msg>] when only lineno is set, as
    [While opening <file>: <msg>] when only filename is set, and as
    [While opening <file>, in line <n>: <msg>] when both are; an attribute
    attached after the construction is read like one given to the
    constructor, and attaching does not change the message. *)
Theorem loader_error_rendering (format_units : UnitsContainer -> string)
    (e : instance) (file : string) (n : Z) :
  etype e = DefinitionSyntaxError \/ etype e = RedefinitionError ->
  let str := str format_units in
  let msg := message format_units e in
  let unset := setattr (setattr e "filename" VNone) "lineno" VNone in
  str unset = msg
  /\ str (setattr unset "lineno" (VInt n))
     = "In line " +:+ decimal n +:+ ": " +:+ msg
  /\ str (setattr unset "filename" (VStr file))
     = "While opening " +:+ file +:+ ": " +:+ msg
  /\ str (setattr (setattr unset "filename" (VStr file)) "lineno" (VInt n))
     = "While opening " +:+ file +:+ ", in line " +:+ decimal n +:+ ": " +:+ msg
  /\ (forall positional e0 e1,
        construct (etype e) positional ∅ = Some e0 ->
        construct (etype e) positional
          (<[ "filename" := VStr file ]> (<[ "lineno" := VInt n ]> ∅)) = Some e1 ->
        str (setattr (setattr e0 "filename" (VStr file)) "lineno" (VInt n)) = str e1
        /\ str e0 = message format_units e0).
Proof.
  intros Hkind str0 msg unset.
  assert (Hstr : forall x, etype x = etype e ->
            args x = args e ->
            str0 x = located format_units x msg).
  { intros x Ht Hargs. unfold str0, str, msg, message.
    rewrite Ht. destruct Hkind as [-> | ->]; unfold arg; rewrite Hargs; reflexivity. }
  assert (Hne : "lineno" <> "filename") by discriminate.
  assert (Hne' : "filename" <> "lineno") by discriminate.
  repeat split.
  - rewrite Hstr by reflexivity. unfold located, unset.
    rewrite attr_setattr_ne, attr_setattr_eq, attr_setattr_eq by exact Hne.
    reflexivity.
  - rewrite Hstr by reflexivity. unfold located, unset.
    rewrite attr_setattr_ne, attr_setattr_ne, attr_setattr_eq, attr_setattr_eq
      by exact Hne.
    reflexivity.
  - rewrite Hstr by reflexivity. unfold located, unset.
    rewrite attr_setattr_eq, attr_setattr_ne, attr_setattr_eq by exact Hne'.
    reflexivity.
  - rewrite Hstr by reflexivity. unfold located, unset.
    rewrite attr_setattr_ne, attr_setattr_eq, attr_setattr_eq by exact Hne.
    reflexivity.
  - apply construct_dict in H as (Ht0 & Ha0 & _).
    apply construct_dict in H0 as (Ht1 & Ha1 & Hd1).
    apply (str_same format_units e1).
    + rewrite Ht1. exact Hkind.
    + simpl. congruence.
    + simpl. congruence.
    + rewrite (attr_setattr_ne _ _ _ _ Hne), attr_setattr_eq.
      unfold attr. rewrite Hd1.
      rewrite (lookup_union_Some_l _ _ _ (VStr file)); [reflexivity|].
      apply lookup_insert_eq.
    + rewrite attr_setattr_eq. unfold attr. rewrite Hd1.
      rewrite (lookup_union_Some_l _ _ _ (VInt n)); [reflexivity|].
      rewrite lookup_insert_ne by exact Hne'. apply lookup_insert_eq.
  - apply construct_dict in H as (Ht0 & _ & Hd0).
    assert (Hunset : attr e0 "filename" = VNone /\ attr e0 "lineno" = VNone).
    { unfold attr. rewrite Hd0, (left_id_L ∅ (∪)).
      destruct Hkind as [-> | ->]; split; vm_compute; reflexivity. }
    apply str_unset; [rewrite Ht0; exact Hkind|apply Hunset|apply Hunset].
Qed.

(* --------------------------------------------------------------------- *)
(** *** The cases of the test suite *)

(** A stand-in for the formatter: the names of a container, joined. *)
Definition names_of (u : UnitsContainer) : string := pystr_join " * " (keys u).

Definition call (t : exc_type) (positional : list pyval)
    (kw : list (string * pyval)) : option instance :=
  construct t positional (list_to_map kw).

Definition rendered (e : option instance) : option string := str names_of <$> e.

Example test_definition_syntax_error :
  rendered (call DefinitionSyntaxError [VStr "foo"] []) = Some "foo"
  /\ rendered (e ← call DefinitionSyntaxError [VStr "foo"] [];
               Some (setattr (setattr e "filename" (VStr "a.txt")) "lineno" (VInt 123)))
     = Some "While opening a.txt, in line 123: foo"
  /\ rendered (call DefinitionSyntaxError [VStr "foo"] [("lineno", VInt 123)])
     = Some "In line 123: foo"
  /\ rendered (call DefinitionSyntaxError [VStr "foo"] [("filename", VStr "a.txt")])
     = Some "While opening a.txt: foo"
  /\ rendered (call DefinitionSyntaxError [VStr "foo"]
                 [("filename", VStr "a.txt"); ("lineno", VInt 123)])
     = Some "While opening a.txt, in line 123: foo".
Proof. repeat split; vm_compute; reflexivity. Qed.

Example test_redefinition_error :
  rendered (call RedefinitionError [VStr "foo"; VStr "bar"] [])
  = Some "Cannot redefine 'foo' (bar)"
  /\ rendered (call RedefinitionError [VStr "foo"; VStr "bar"] [("lineno", VInt 123)])
     = Some "In line 123: Cannot redefine 'foo' (bar)"
  /\ rendered (call RedefinitionError [VStr "foo"; VStr "bar"]
                 [("filename", VStr "a.txt"); ("lineno", VInt 123)])
     = Some "While opening a.txt, in line 123: Cannot redefine 'foo' (bar)".
Proof. repeat split; vm_compute; reflexivity. Qed.

Example test_undefined_unit_error :
  rendered (call UndefinedUnitError [VStr "meter"] [])
  = Some "'meter' is not defined in the unit registry"
  /\ rendered (call UndefinedUnitError [VStr "meter"; VStr "kg"] [])
     = Some "('meter', 'kg') are not defined in the unit registry".
Proof. repeat split; vm_compute; reflexivity. Qed.

Example test_dimensionality_error :
  rendered (call DimensionalityError [VStr "a"; VStr "b"] [])
  = Some "Cannot convert from 'a' to 'b'"
  /\ rendered (call DimensionalityError [VStr "a"; VStr "b"; VStr "c"] [])
     = Some "Cannot convert from 'a' (c) to 'b' ()"
  /\ rendered (call DimensionalityError [VStr "a"; VStr "b"; VStr "c"; VStr "d"]
                 [("extra_msg", VStr ": msg")])
     = Some "Cannot convert from 'a' (c) to 'b' (d): msg".
Proof. repeat split; vm_compute; reflexivity. Qed.

Example test_offset_unit_calculus_error :
  rendered (call OffsetUnitCalculusError [VUnits [("kilogram", 1%Q)]] [])
  = Some ("Ambiguous operation with offset unit (kilogram). See "
          +:+ "https://pint.readthedocs.io/en/latest/nonmult.html for guidance.")
  /\ rendered (call OffsetUnitCalculusError
                 [VUnits [("kilogram", 1%Q)]; VUnits [("second", 1%Q)]] [])
     = Some ("Ambiguous operation with offset unit (kilogram, second). See "
             +:+ "https://pint.readthedocs.io/en/latest/nonmult.html for guidance.").
Proof. repeat split; vm_compute; reflexivity. Qed.

(** The DefinitionSyntaxError of the tests, before a place is attached. *)
Definition foo_error : instance :=
  {| etype := DefinitionSyntaxError; args := [VStr "foo"];
     __dict__ := list_to_map [("filename", VNone); ("lineno", VNone)] |}.

Lemma foo_error_built : built foo_error.
Proof.
  apply (built_call DefinitionSyntaxError [VStr "foo"] ∅); [reflexivity|].
  vm_compute. reflexivity.
Defined.

Lemma loader_error_rendering_witness :
  str names_of (setattr (setattr foo_error "filename" (VStr "a.txt")) "lineno" (VInt 123))
  = "While opening a.txt, in line 123: foo".
Proof.
  destruct (loader_error_rendering names_of foo_error "a.txt" 123 (or_introl eq_refl))
    as (_ & _ & _ & H & _).
  vm_compute in H. vm_compute. exact H.
Defined.

End errors.

(* ===================================================================== *)
(** ** pint/__init__.py: the application registry *)
(* ===================================================================== *)

Module pint.

(** The classes an argument of [set_application_registry] may be an
    instance of: the two registry classes, a subclass of a class, or any
    other class. *)
Inductive pyclass :=
| LazyRegistry
| UnitRegistry
| Subclass (name : string) (base : pyclass)
| OtherClass (name : string).

Fixpoint same_class (c d : pyclass) : bool :=
  match c, d with
  | LazyRegistry, LazyRegistry => true
  | UnitRegistry, UnitRegistry => true
  | Subclass n b, Subclass m b' => String.eqb n m && same_class b b'
  | OtherClass n, OtherClass m => String.eqb n m
  | _, _ => false
  end.

(** [issubclass(c, target)]: a class is a subclass of itself and of what
    its base is a subclass of. *)
Fixpoint issubclass (c target : pyclass) : bool :=
  same_class c target
  || match c with
     | Subclass _ base => issubclass base target
     | _ => false
     end.

(** An object: its identity and its class. *)
Record object := { id : nat; type : pyclass }.

(** [isinstance(o, classes)] for a tuple of classes. *)
Definition isinstance (o : object) (classes : list pyclass) : bool :=
  existsb (issubclass (type o)) classes.

Definition class_name (c : pyclass) : string :=
  match c with
  | LazyRegistry => "LazyRegistry"
  | UnitRegistry => "UnitRegistry"
  | Subclass name _ => name
  | OtherClass name => name
  end.

(** The globals of the module, and the records the logger was handed. *)
Record globals := {
  _DEFAULT_REGISTRY : object;
  _APP_REGISTRY : object;
  debug_records : list (object * object)
}.

(** The module after its import: the default registry is a fresh
    LazyRegistry, and it is the application registry. *)
Definition imported : globals :=
  let default := {| id := 0; type := LazyRegistry |} in
  {| _DEFAULT_REGISTRY := default; _APP_REGISTRY := default; debug_records := [] |}.

(** [set_application_registry]: the outcome of the call and the globals
    after it. *)
Definition set_application_registry (registry : object) (g : globals)
    : result unit * globals :=
  if negb (isinstance registry [LazyRegistry; UnitRegistry]) then
    (Raise TypeError ("Expected UnitRegistry; got " +:+ class_name (type registry)), g)
  else
    (Ok tt,
     {| _DEFAULT_REGISTRY := _DEFAULT_REGISTRY g;
        _APP_REGISTRY := registry;
        debug_records := debug_records g ++ [(_APP_REGISTRY g, registry)] |}).

(** [get_application_registry] *)
Definition get_application_registry (g : globals) : object := _APP_REGISTRY g.

(** C10. [set_application_registry] on an argument that is not an instance
    of UnitRegistry or LazyRegistry raises TypeError and leaves the globals,
    and with them the application registry, as they were; on an instance of
    one of the two it returns, and [get_application_registry] then returns
    the very object that was set. *)
Theorem set_then_get_application_registry (registry : object) (g : globals) :
  let outcome := set_application_registry registry g in
  if isinstance registry [LazyRegistry; UnitRegistry]
  then fst outcome = Ok tt
       /\ get_application_registry (snd outcome) = registry
  else raises (fst outcome) TypeError
       /\ snd outcome = g
       /\ get_application_registry (snd outcome) = get_application_registry g.
Proof.
  unfold set_application_registry.
  destruct (isinstance registry [LazyRegistry; UnitRegistry]); simpl.
  - split; reflexivity.
  - split; [eexists; reflexivity|]. split; reflexivity.
Qed.

Example set_application_registry_of_a_string :
  let g := snd (set_application_registry {| id := 7; type := OtherClass "str" |} imported) in
  get_application_registry g = _DEFAULT_REGISTRY imported.
Proof. reflexivity. Qed.

Example set_application_registry_of_a_subclass :
  let mine := {| id := 3; type := Subclass "MyRegistry" UnitRegistry |} in
  get_application_registry (snd (set_application_registry mine imported)) = mine.
Proof. reflexivity. Qed.

(** A run of calls of [set_application_registry], each on the globals the
    call before it left; an exception of a call is caught by the caller. *)
Definition set_all (registries : list object) (g : globals) : globals :=
  fold_left (fun g registry => snd (set_application_registry registry g))
            registries g.

(** The guard of [set_application_registry]. *)
Definition is_registry (o : object) : bool :=
  isinstance o [LazyRegistry; UnitRegistry].

Lemma set_all_cons (registry : object) (rest : list object) (g : globals) :
  set_all (registry :: rest) g
  = set_all rest (snd (set_application_registry registry g)).
Proof. reflexivity. Qed.

Lemma set_application_registry_rejects (registry : object) (g : globals) :
  is_registry registry = false ->
  snd (set_application_registry registry g) = g.
Proof.
  unfold is_registry, set_application_registry. intros ->. reflexivity.
Qed.

Lemma set_application_registry_accepts (registry : object) (g : globals) :
  is_registry registry = true ->
  snd (set_application_registry registry g)
  = {| _DEFAULT_REGISTRY := _DEFAULT_REGISTRY g;
       _APP_REGISTRY := registry;
       debug_records := debug_records g ++ [(_APP_REGISTRY g, registry)] |}.
Proof.
  unfold is_registry, set_application_registry. intros ->. reflexivity.
Qed.

Lemma last_cons_default {A : Type} (x : A) (l : list A) (d d' : A) :
  List.last (x :: l) d = List.last (x :: l) d'.
Proof.
  revert x. induction l as [|y l IH]; intros x; [reflexivity|].
  change (List.last (y :: l) d = List.last (y :: l) d'). apply IH.
Qed.

(** X20. After any run of calls of [set_application_registry], the
    application registry is the argument of the last call that passed the
    isinstance guard, or the registry from before the run when no call
    passed it; the default registry is never reassigned; and the logger was
    handed one record for each call that passed. *)
Theorem application_registry_after_calls (registries : list object) (g : globals) :
  let g' := set_all registries g in
  get_application_registry g'
  = List.last (List.filter is_registry registries) (get_application_registry g)
  /\ _DEFAULT_REGISTRY g' = _DEFAULT_REGISTRY g
  /\ length (debug_records g')
     = (length (debug_records g)
        + length (List.filter is_registry registries))%nat.
Proof.
  cbv zeta. revert g.
  induction registries as [|r rest IH]; intros g.
  - simpl. repeat split. lia.
  - rewrite set_all_cons. cbn [List.filter].
    destruct (is_registry r) eqn:E.
    + rewrite (set_application_registry_accepts _ _ E).
      destruct (IH {| _DEFAULT_REGISTRY := _DEFAULT_REGISTRY g;
                      _APP_REGISTRY := r;
                      debug_records := debug_records g ++ [(_APP_REGISTRY g, r)] |})
        as (H1 & H2 & H3).
      rewrite H1, H2, H3. cbn [get_application_registry _APP_REGISTRY
                                 _DEFAULT_REGISTRY debug_records].
      repeat split.
      * destruct (List.filter is_registry rest) as [|o l]; [reflexivity|].
        change (List.last (o :: l) r
                = List.last (o :: l) (get_application_registry g)).
        apply last_cons_default.
      * rewrite length_app. simpl. lia.
    + rewrite (set_application_registry_rejects _ _ E). apply IH.
Qed.

(** X21. The application registry stays an instance of LazyRegistry or of
    UnitRegistry: when it is one before a run of calls of
    [set_application_registry], it is one after the run, whatever the
    arguments of the calls are. *)
Theorem application_registry_stays_a_registry
    (registries : list object) (g : globals) :
  is_registry (get_application_registry g) = true ->
  is_registry (get_application_registry (set_all registries g)) = true.
Proof.
  revert g. induction registries as [|r rest IH]; intros g Hg.
  - exact Hg.
  - rewrite set_all_cons. apply IH.
    destruct (is_registry r) eqn:E.
    + rewrite (set_application_registry_accepts _ _ E). exact E.
    + rewrite (set_application_registry_rejects _ _ E). exact Hg.
Qed.

(** What [_unpickle] is called on after the class: a UnitsContainer, which
    the loop iterates over by unit name, or a value of another type. *)
Inductive argument (V : Type) :=
| Container (units : UnitsContainer)
| Other (value : V).

Arguments Container {V} units.
Arguments Other {V} value.

Definition names_of {V : Type} (args : list (argument V)) : list string :=
  flat_map (fun arg => match arg with
                       | Container units => keys units
                       | Other _ => []
                       end) args.

Section Unpickle.

(** The registry and the class to rebuild are not part of this module.
    [parse_units] of a registry may define prefixed units in it, and the
    class may read the registry, so both run on a store [world]. *)
Variable world : Type.
Variable Unit_ : Type.
Variable parse_units : object -> string -> world -> result Unit_ * world.
Variable V : Type.
Variable T : Type.
Variable cls : list (argument V) -> world -> result T * world.

(** [for name in arg: _APP_REGISTRY.parse_units(name)] *)
Fixpoint parse_names (registry : object) (names : list string) (w : world)
    : result unit * world :=
  match names with
  | [] => (Ok tt, w)
  | name :: rest =>
      match parse_units registry name w with
      | (Ok _, w') => parse_names registry rest w'
      | (Raise t msg, w') => (Raise t msg, w')
      end
  end.

(** [for arg in args: if isinstance(arg, UnitsContainer): ...] *)
Fixpoint parse_arguments (registry : object) (args : list (argument V)) (w : world)
    : result unit * world :=
  match args with
  | [] => (Ok tt, w)
  | Container units :: rest =>
      match parse_names registry (keys units) w with
      | (Ok _, w') => parse_arguments registry rest w'
      | (Raise t msg, w') => (Raise t msg, w')
      end
  | Other _ :: rest => parse_arguments registry rest w
  end.

(** [_unpickle(cls, *args)] *)
Definition _unpickle (args : list (argument V)) (g : globals) (w : world)
    : result T * world :=
  match parse_arguments (_APP_REGISTRY g) args w with
  | (Ok _, w') => cls args w'
  | (Raise t msg, w') => (Raise t msg, w')
  end.

Lemma parse_names_app (registry : object) (a b : list string) (w : world) :
  parse_names registry (a ++ b) w
  = match parse_names registry a w with
    | (Ok _, w') => parse_names registry b w'
    | (Raise t msg, w') => (Raise t msg, w')
    end.
Proof.
  revert w. induction a as [|n a IH]; intros w; simpl.
  - reflexivity.
  - destruct (parse_units registry n w) as [[u|t msg] w']; [apply IH|reflexivity].
Qed.


Lemma parse_arguments_names (registry : object) (args : list (argument V)) (w : world) :
  parse_arguments registry args w = parse_names registry (names_of args) w.
Proof.
  revert w. induction args as [|[units|repr] rest IH]; intros w.
  - reflexivity.
  - cbn [parse_arguments names_of flat_map]. rewrite parse_names_app.
    destruct (parse_names registry (keys units) w) as [[[]|t msg] w'];
      [apply IH|reflexivity].
  - cbn [parse_arguments names_of flat_map app]. apply IH.
Qed.

(** X22. [_unpickle] stops at the first unit name the application registry
    does not parse: when the names of the container arguments, in the order
    of the arguments, parse up to one name on which [parse_units] raises,
    [_unpickle] raises that exception, on the store that call left; the
    names after it are not parsed and the class is not called, so the
    outcome is the same for every class. *)
Theorem _unpickle_unknown_unit (args : list (argument V)) (g : globals)
    (known : list string) (name : string) (rest : list string)
    (w w1 w2 : world) (t : exc_type) (msg : string) :
  names_of args = known ++ name :: rest ->
  parse_names (get_application_registry g) known w = (Ok tt, w1) ->
  parse_units (get_application_registry g) name w1 = (Raise t msg, w2) ->
  _unpickle args g w = (Raise t msg, w2).
Proof.
  unfold _unpickle, get_application_registry. intros Hn Hk Hp.
  rewrite parse_arguments_names, Hn, parse_names_app, Hk.
  cbn [parse_names]. rewrite Hp. reflexivity.
Qed.

(** X23. After [set_application_registry] accepted a registry, [_unpickle]
    parses the unit names with that registry and no other: when the
    registry parses every name of the container arguments, in the order of
    the arguments, the outcome is the class called on the arguments as they
    were passed, on the store the parsing left. *)
Theorem _unpickle_after_set (registry : object) (g : globals)
    (args : list (argument V)) (w w' : world) :
  fst (set_application_registry registry g) = Ok tt ->
  parse_names registry (names_of args) w = (Ok tt, w') ->
  _unpickle args (snd (set_application_registry registry g)) w = cls args w'.
Proof.
  unfold _unpickle, set_application_registry. intros Hs Hp.
  destruct (negb (isinstance registry [LazyRegistry; UnitRegistry])).
  - discriminate Hs.
  - cbn [snd _APP_REGISTRY]. rewrite parse_arguments_names, Hp. reflexivity.
Qed.

End Unpickle.

Arguments parse_names {world Unit_} parse_units registry names w.
Arguments parse_arguments {world Unit_} parse_units {V} registry args w.
Arguments _unpickle {world Unit_} parse_units {V T} cls args g w.

(** A registry for the witnesses: it knows two units, and its store is the
    list of the names it parsed. *)
Definition parse_known (registry : object) (name : string) (parsed : list string)
    : result string * list string :=
  if name =? "meter" then (Ok name, parsed ++ [name])
  else if name =? "second" then (Ok name, parsed ++ [name])
  else (Raise UndefinedUnitError name, parsed).

(** A class for the witnesses: it counts its arguments. *)
Definition count_arguments (args : list (argument string)) (parsed : list string)
    : result nat * list string :=
  (Ok (length args), parsed).

Definition my_registry : object :=
  {| id := 3; type := Subclass "MyRegistry" UnitRegistry |}.

Definition speed : list (argument string) :=
  [Other "3.5"; Container [("meter", 1%Q); ("second", (-1)%Q)]].

Definition furlongs : list (argument string) :=
  [Container [("meter", 1%Q)]; Other "2"; Container [("furlong", 1%Q); ("second", 1%Q)]].

Lemma application_registry_stays_a_registry_witness :
  is_registry
    (get_application_registry
       (set_all [{| id := 7; type := OtherClass "str" |}; my_registry] imported))
  = true.
Proof.
  apply application_registry_stays_a_registry. reflexivity.
Defined.

Lemma _unpickle_unknown_unit_witness :
  _unpickle parse_known count_arguments furlongs imported []
  = (Raise UndefinedUnitError "furlong", ["meter"]).
Proof.
  apply (_unpickle_unknown_unit _ _ parse_known _ _ count_arguments furlongs imported
           ["meter"] "furlong" ["second"] [] ["meter"] ["meter"]);
    reflexivity.
Defined.

Lemma _unpickle_after_set_witness :
  _unpickle parse_known count_arguments speed
            (snd (set_application_registry my_registry imported)) []
  = (Ok 2%nat, ["meter"; "second"]).
Proof.
  apply (_unpickle_after_set _ _ parse_known _ _ count_arguments my_registry imported
           speed [] ["meter"; "second"]);
    reflexivity.
Defined.

End pint.

(* ===================================================================== *)
(** ** Serializing the errors *)
(* ===================================================================== *)

Module pickling.
Import errors.

(** Modelled from the spec: serializing keeps the kind, the constructor
    arguments and the attributes, and nothing of a registry. *)
Record pickled := {
  p_type : exc_type;
  p_args : list pyval;
  p_state : gmap string pyval
}.

Definition dumps (e : instance) : pickled :=
  {| p_type := etype e; p_args := args e; p_state := __dict__ e |}.

(** The unit names of the quantities within a value. *)
Fixpoint units_held (v : pyval) : list string :=
  match v with
  | VQuantity magnitude units => units_held magnitude ++ keys units
  | _ => []
  end.

(** The unit names of the quantities an error holds, in its constructor
    arguments and in its attributes. *)
Definition held (e : instance) : list string :=
  flat_map units_held (args e)
  ++ flat_map units_held (map snd (map_to_list (__dict__ e))).

Section Loading.

(** [parse_units] of a registry, on the store of the registries, as
    [_unpickle] calls it. *)
Variable world : Type.
Variable Unit_ : Type.
Variable parse_units : pint.object -> string -> world -> result Unit_ * world.

(** Modelled from the spec: quantity.py is not part of the sources. The
    Quantity class, called by [_unpickle] on a magnitude and a units
    container. *)
Definition Quantity_new (args : list (pint.argument pyval)) (w : world)
    : result pyval * world :=
  match args with
  | [pint.Other magnitude; pint.Container units] => (Ok (VQuantity magnitude units), w)
  | _ => (Raise TypeError "Quantity takes a magnitude and units", w)
  end.

(** Modelled from the spec: deserializing a value. A quantity was
    serialized as the call [_unpickle(Quantity, magnitude, units)], which
    is made now, on the application registry of the moment; any other value
    comes back as it is. *)
Fixpoint load (g : pint.globals) (v : pyval) (w : world) : result pyval * world :=
  match v with
  | VQuantity magnitude units =>
      match load g magnitude w with
      | (Ok magnitude, w) =>
          pint._unpickle parse_units Quantity_new
            [pint.Other magnitude; pint.Container units] g w
      | (Raise t msg, w) => (Raise t msg, w)
      end
  | _ => (Ok v, w)
  end.

Fixpoint load_all (g : pint.globals) (vs : list pyval) (w : world)
    : result (list pyval) * world :=
  match vs with
  | [] => (Ok [], w)
  | v :: rest =>
      match load g v w with
      | (Ok v, w) =>
          match load_all g rest w with
          | (Ok rest, w) => (Ok (v :: rest), w)
          | (Raise t msg, w) => (Raise t msg, w)
          end
      | (Raise t msg, w) => (Raise t msg, w)
      end
  end.

(** Modelled from the spec: deserializing an error loads the constructor
    arguments, calls the class on them, so the keyword-only arguments take
    their defaults, loads the saved attributes and puts them over the fresh
    ones. *)
Definition loads (g : pint.globals) (p : pickled) (w : world)
    : result instance * world :=
  match load_all g (p_args p) w with
  | (Ok positional, w) =>
      match construct (p_type p) positional ∅ with
      | Some e =>
          let saved := map_to_list (p_state p) in
          match load_all g (map snd saved) w with
          | (Ok values, w) =>
              (Ok {| etype := etype e; args := args e;
                     __dict__ := list_to_map (zip (map fst saved) values)
                                 ∪ __dict__ e |}, w)
          | (Raise t msg, w) => (Raise t msg, w)
          end
      | None => (Raise TypeError "the arguments do not fit the signature", w)
      end
  | (Raise t msg, w) => (Raise t msg, w)
  end.

(** The application registry parses a name, whatever it has parsed
    before. *)
Definition known (g : pint.globals) (name : string) : Prop :=
  forall w, exists u w',
    parse_units (pint.get_application_registry g) name w = (Ok u, w').





End Loading.

Arguments loads {world Unit_} parse_units g p w.
Arguments known {world Unit_} parse_units g name.









(** The errors of the test suite hold no quantity: they come back whatever
    the application registry is, also the one made of the units of a custom
    registry. *)
Example test_pickle_definition_syntax_error :
  let e := setattr (setattr foo_error "filename" (VStr "a.txt")) "lineno" (VInt 123) in
  held e = []
  /\ loads pint.parse_known pint.imported (dumps e) [] = (Ok e, []).
Proof. split; vm_compute; reflexivity. Qed.

Example test_pickle_offset_unit_calculus_error :
  let e := {| etype := OffsetUnitCalculusError;
              args := [VUnits [("foo", 1%Q)]; VUnits [("bar", 1%Q)]];
              __dict__ := ∅ |} in
  call OffsetUnitCalculusError [VUnits [("foo", 1%Q)]; VUnits [("bar", 1%Q)]] [] = Some e
  /\ loads pint.parse_known pint.imported (dumps e) [] = (Ok e, []).
Proof. split; vm_compute; reflexivity. Qed.

End pickling.


(* ===================================================================== *)
(** ** pint/compat.py: magnitudes *)
(* ===================================================================== *)

Module compat.

(** The values [_to_magnitude] tells apart by type: None, a bool, a dict, a
    str, a list, a tuple, a NumPy array, and the values of the other types
    (numbers, Decimal). *)
#[warnings="-register-all"]
Inductive value :=
| None_
| Bool (b : bool)
| Dict (items : list (value * value))
| Str (s : string)
| List_ (items : list value)
| Tuple (items : list value)
| Ndarray (data : value)
| Number (q : Q).

(** [isinstance(value, (dict, bool)) or value is None] *)
Definition is_dict_bool_or_None (v : value) : bool :=
  match v with
  | Dict _ | Bool _ | None_ => true
  | _ => false
  end.

(** [isinstance(value, str) and value == ''] *)
Definition is_empty_str (v : value) : bool :=
  match v with
  | Str s => String.eqb s ""
  | _ => false
  end.

(** [isinstance(value, (list, tuple))] *)
Definition is_list_or_tuple (v : value) : bool :=
  match v with
  | List_ _ | Tuple _ => true
  | _ => false
  end.

(** [isinstance(value, ndarray)] *)
Definition is_ndarray (v : value) : bool :=
  match v with
  | Ndarray _ => true
  | _ => false
  end.

Section Magnitude.

(** [repr] of a value, for the message, and NumPy's [asarray], which
    raises on a value it cannot make an array of. *)
Variable repr : value -> string.
Variable asarray : value -> result value.

(** [_to_magnitude(value, force_ndarray=False)]: the module defines the
    first function when NumPy can be imported and the second when not. *)
Definition _to_magnitude (HAS_NUMPY : bool) (v : value) (force_ndarray : bool)
    : result value :=
  if HAS_NUMPY then
    if is_dict_bool_or_None v then
      Raise TypeError ("Invalid magnitude for Quantity: " +:+ repr v)
    else if is_empty_str v then
      Raise ValueError "Quantity magnitude cannot be an empty string."
    else if is_list_or_tuple v then
      asarray v
    else if force_ndarray then
      asarray v
    else
      Ok v
  else
    if is_dict_bool_or_None v then
      Raise TypeError ("Invalid magnitude for Quantity: " +:+ repr v)
    else if is_empty_str v then
      Raise ValueError "Quantity magnitude cannot be an empty string."
    else if is_list_or_tuple v then
      Raise TypeError
        "lists and tuples are valid magnitudes for Quantity only when NumPy is present."
    else
      Ok v.

Lemma ndarray_passes (v : value) :
  is_ndarray v = true ->
  is_dict_bool_or_None v = false
  /\ is_empty_str v = false
  /\ is_list_or_tuple v = false.
Proof. destruct v; intros H; try discriminate H; repeat split. Qed.

(** X24. A magnitude [_to_magnitude] returned is one it returns unchanged:
    on its own result, with the same [force_ndarray], it returns that
    result again, with NumPy and without it; so the result is never None,
    a bool, a dict, the empty string, a list or a tuple. NumPy's [asarray]
    is taken to return an array when it returns, and to return an array it
    is given as it is. *)
Theorem _to_magnitude_idempotent
    (HAS_NUMPY : bool) (v : value) (force_ndarray : bool) (r : value) :
  (forall x y, asarray x = Ok y -> is_ndarray y = true) ->
  (forall x, is_ndarray x = true -> asarray x = Ok x) ->
  _to_magnitude HAS_NUMPY v force_ndarray = Ok r ->
  _to_magnitude HAS_NUMPY r force_ndarray = Ok r
  /\ is_dict_bool_or_None r = false
  /\ is_empty_str r = false
  /\ is_list_or_tuple r = false.
Proof.
  intros Harr Hid H.
  assert (Hnd : forall x y, asarray x = Ok y ->
                  _to_magnitude true y force_ndarray = Ok y
                  /\ is_dict_bool_or_None y = false
                  /\ is_empty_str y = false
                  /\ is_list_or_tuple y = false).
  { intros x y Hy. specialize (Harr x y Hy).
    destruct (ndarray_passes _ Harr) as (E1 & E2 & E3).
    unfold _to_magnitude. rewrite E1, E2, E3, (Hid _ Harr).
    destruct force_ndarray; auto. }
  unfold _to_magnitude in H.
  destruct HAS_NUMPY;
    destruct (is_dict_bool_or_None v) eqn:E1; try discriminate H;
    destruct (is_empty_str v) eqn:E2; try discriminate H;
    destruct (is_list_or_tuple v) eqn:E3; try discriminate H.
  - apply (Hnd v r H).
  - destruct force_ndarray eqn:Ef.
    + apply (Hnd v r H).
    + injection H as <-. unfold _to_magnitude. rewrite E1, E2, E3. auto.
  - injection H as <-. unfold _to_magnitude. rewrite E1, E2, E3. auto.
Qed.

(** X25. The two definitions of [_to_magnitude] agree where both apply:
    what the one without NumPy returns is its argument, whatever
    [force_ndarray] is, and the one with NumPy returns the same when
    [force_ndarray] is false; an exception the one with NumPy raises is
    either raised by the one without NumPy too, with the same message, or
    it is the exception of [asarray] on the value, which only a list, a
    tuple or [force_ndarray] lead to. *)
Theorem _to_magnitude_with_and_without_numpy
    (v : value) (force_ndarray force_ndarray' : bool) :
  (forall r, _to_magnitude false v force_ndarray = Ok r ->
             r = v /\ _to_magnitude true v false = Ok v)
  /\ (forall t msg, _to_magnitude true v force_ndarray = Raise t msg ->
        _to_magnitude false v force_ndarray' = Raise t msg
        \/ (asarray v = Raise t msg
            /\ (is_list_or_tuple v = true \/ force_ndarray = true)))
  /\ (is_list_or_tuple v = false -> force_ndarray = false ->
      _to_magnitude true v force_ndarray = _to_magnitude false v force_ndarray').
Proof.
  unfold _to_magnitude. repeat split.
  - destruct (is_dict_bool_or_None v); try discriminate H.
    destruct (is_empty_str v); try discriminate H.
    destruct (is_list_or_tuple v); try discriminate H.
    injection H as <-. reflexivity.
  - destruct (is_dict_bool_or_None v); try discriminate H.
    destruct (is_empty_str v); try discriminate H.
    destruct (is_list_or_tuple v); try discriminate H.
    reflexivity.
  - intros t msg H.
    destruct (is_dict_bool_or_None v); [left; exact H|].
    destruct (is_empty_str v); [left; exact H|].
    destruct (is_list_or_tuple v); [right; split; [exact H|left; reflexivity]|].
    destruct force_ndarray; [right; split; [exact H|right; reflexivity]|].
    discriminate H.
  - intros -> ->. reflexivity.
Qed.

End Magnitude.

(** An [asarray] for the examples: an array stays; a list or a tuple whose
    items are lists of different lengths is refused, as NumPy refuses a
    ragged sequence; any other value becomes the array of its data. *)
Definition row_length (v : value) : option nat :=
  match v with
  | List_ items | Tuple items => Some (length items)
  | _ => None
  end.

Definition ragged (items : list value) : bool :=
  match items with
  | [] => false
  | first :: rest =>
      negb (forallb (fun item =>
                       bool_decide (row_length item = row_length first)) rest)
  end.

Definition as_array (v : value) : result value :=
  match v with
  | Ndarray _ => Ok v
  | List_ items | Tuple items =>
      if ragged items
      then Raise ValueError "setting an array element with a sequence."
      else Ok (Ndarray v)
  | _ => Ok (Ndarray v)
  end.

Definition repr_of (v : value) : string :=
  match v with
  | None_ => "None"
  | Bool true => "True"
  | Bool false => "False"
  | _ => "..."
  end.

Example _to_magnitude_of_None :
  _to_magnitude repr_of as_array true None_ false
  = Raise TypeError "Invalid magnitude for Quantity: None".
Proof. reflexivity. Qed.

(** A ragged list: with NumPy the exception is the one of [asarray], without
    NumPy it is the TypeError for lists. *)
Example _to_magnitude_of_a_ragged_list :
  let rows := List_ [List_ [Number 1; Number 2]; List_ [Number 3]] in
  _to_magnitude repr_of as_array true rows false
  = Raise ValueError "setting an array element with a sequence."
  /\ raises (_to_magnitude repr_of as_array false rows false) TypeError.
Proof. split; [reflexivity|eexists; reflexivity]. Qed.

Lemma _to_magnitude_idempotent_witness :
  _to_magnitude repr_of as_array true (Ndarray (List_ [Number 1; Number 2])) false
  = Ok (Ndarray (List_ [Number 1; Number 2]))
  /\ is_dict_bool_or_None (Ndarray (List_ [Number 1; Number 2])) = false
  /\ is_empty_str (Ndarray (List_ [Number 1; Number 2])) = false
  /\ is_list_or_tuple (Ndarray (List_ [Number 1; Number 2])) = false.
Proof.
  apply (_to_magnitude_idempotent repr_of as_array true
           (List_ [Number 1; Number 2]) false).
  - intros x y H. destruct x; simpl in H;
      try (destruct (ragged items); [discriminate H|]);
      injection H as <-; reflexivity.
  - intros []; intros H; try discriminate H; reflexivity.
  - reflexivity.
Defined.

End compat.
